(** * ZeroTier One: the node control plane of [node/Node.cpp]

    A shallow embedding of [ZeroTier::Node] and of its C bindings
    ([ZT1_Node_*]), and the properties of the node specification that
    can be stated over it.

    The node is a single-threaded state machine once its two mutexes are
    taken, so every entry point is a function from the state before the
    call to the state after it, together with what the call returned (or
    threw) and the calls it made to its collaborators.  The collaborators
    (switch, topology, multicaster, networks, peers, identity, the
    embedder's callbacks) live in other translation units; they are the
    fields of a record [Collaborators], over which everything below is
    parametric. *)

From stdpp Require Import gmap strings list sorting.
From Stdlib Require Import ZArith Lia.

Local Open Scope Z_scope.

(** ** Machine integers *)

(** [uint64_t] and [unsigned int] values are integers reduced modulo the
    width of their type. *)
Definition u64 (z : Z) : Z := z mod 2 ^ 64.
Definition u32 (z : Z) : Z := z mod 2 ^ 32.

Abbreviation bytes := (list Byte.byte).

(** ** Result codes, events, exceptions *)

(** [enum ZT1_ResultCode] as listed in the external interface. *)
Inductive ZT1_ResultCode : Set :=
| ZT1_RESULT_OK
| ZT1_RESULT_FATAL_ERROR_OUT_OF_MEMORY
| ZT1_RESULT_FATAL_ERROR_DATA_STORE_FAILED
| ZT1_RESULT_FATAL_ERROR_INTERNAL
| ZT1_RESULT_ERROR_NETWORK_NOT_FOUND
| ZT1_RESULT_ERROR_PACKET_INVALID.

#[global] Instance ZT1_ResultCode_eq_dec : EqDecision ZT1_ResultCode.
Proof. solve_decision. Defined.

(** The two [ZT1_Event]s this file posts. *)
Inductive ZT1_Event : Set :=
| ZT1_EVENT_UP
| ZT1_EVENT_SAW_MORE_RECENT_VERSION.

#[global] Instance ZT1_Event_eq_dec : EqDecision ZT1_Event.
Proof. solve_decision. Defined.

(** The C++ exceptions the [catch] clauses of this file tell apart:
    [std::bad_alloc], [std::runtime_error] and everything else. *)
Inductive exception : Set :=
| bad_alloc
| runtime_error (what : string)
| other_exception.

(** ** Outcomes *)

(** How a piece of C++ ends: it returns a value, it throws, or it does
    something the language leaves undefined (here: a member call through
    a null [SharedPtr]).  [OutOfFuel] is not an ending: it marks a loop
    that was still running when the bound given to the model was used up
    (only [dataStoreGet] has such a loop). *)
Inductive Outcome (A : Type) : Type :=
| Returned (a : A)
| Threw (e : exception)
| Undefined
| OutOfFuel.
Arguments Returned {A} a.
Arguments Threw {A} e.
Arguments Undefined {A}.
Arguments OutOfFuel {A}.

(** ** Compile-time constants *)

(** The macros of [Constants.hpp] and [version.h] that [Node.cpp] reads.
    Their values are not part of this translation unit.  They are [int]
    constant expressions; products of them are taken in [Z]. *)
Record Constants : Type := mkConstants {
  ZT_PING_CHECK_INVERVAL : Z;
  ZT_CORE_DESPERATION_INCREMENT : Z;
  ZT_NETWORK_AUTOCONF_DELAY : Z;
  ZT_HOUSEKEEPING_PERIOD : Z;
  ZT_CORE_TIMER_TASK_GRANULARITY : Z;
  ZEROTIER_ONE_VERSION_MAJOR : Z;
  ZEROTIER_ONE_VERSION_MINOR : Z;
  ZEROTIER_ONE_VERSION_REVISION : Z
}.

(** ** Collaborators *)

(** Everything [Node.cpp] calls and does not define.  [Ext] is the state
    hidden behind those calls: the subsystems' own data, the peers, the
    networks' configuration, the embedder's store.  A call that can throw
    returns [inl e] for the exception; [const] getters only read [Ext]. *)
Record Collaborators : Type := mkCollaborators {
  Ext : Type;
  Network : Type;
  Peer : Type;
  Identity : Type;
  Dictionary : Type;
  ZT1_VirtualNetworkConfig : Type;

  (* Switch *)
  sw_onRemotePacket : bytes -> Z -> bytes -> Ext -> (exception + unit) * Ext;
  sw_onLocalEthernet :
    Network -> Z -> Z -> Z -> Z -> bytes -> Ext -> (exception + unit) * Ext;
  sw_doTimerTasks : Z -> Ext -> (exception + Z) * Ext;

  (* Topology and Peer *)
  topology_supernodeAddresses : Ext -> list Z;
  topology_activePeers : Ext -> list Peer;
  topology_clean : Z -> Ext -> (exception + unit) * Ext;
  topology_setSupernodes : Dictionary -> Ext -> (exception + unit) * Ext;
  topology_authenticateRootTopology : Dictionary -> bool;
  peer_address : Peer -> Z;
  peer_lastReceive : Peer -> Ext -> Z;
  peer_alive : Peer -> Z -> Ext -> bool;
  peer_doPingAndKeepalive : Peer -> Z -> Ext -> (exception + unit) * Ext;

  (* Multicaster *)
  mc_clean : Z -> Ext -> (exception + unit) * Ext;

  (* Network *)
  network_new : Z -> Ext -> (exception + Network) * Ext;
  network_destroy : Network -> Ext -> (exception + unit) * Ext;
  network_multicastSubscribe :
    Network -> Z -> Z -> Ext -> (exception + unit) * Ext;
  network_multicastUnsubscribe :
    Network -> Z -> Z -> Ext -> (exception + unit) * Ext;
  network_requestConfiguration : Network -> Ext -> (exception + unit) * Ext;
  network_lastConfigUpdate : Network -> Ext -> Z;
  network_externalConfig :
    Network -> Ext -> (exception + ZT1_VirtualNetworkConfig) * Ext;

  (* Identity *)
  identity_default : Identity;
  identity_fromString : bytes -> option Identity;
  identity_hasPrivate : Identity -> bool;
  identity_generate : Ext -> Identity * Ext;
  identity_toString : Identity -> bool -> bytes;

  (* Dictionary and the compiled-in default root topology *)
  dictionary_fromString : bytes -> Dictionary;
  dictionary_empty : Dictionary;
  dictionary_size : Dictionary -> nat;
  dictionary_get : Dictionary -> string -> bytes -> bytes;
  ZT_DEFAULTS_defaultRootTopology : bytes;

  (* the remaining subsystems, built in the constructor's [try] block *)
  subsystems_new : Ext -> (exception + unit) * Ext;

  (* [::malloc] of a [ZT1_VirtualNetworkConfig]: whether the block
     returned is not null *)
  malloc : Ext -> bool * Ext;

  (* the embedder's callbacks *)
  dataStoreGetFunction :
    string -> Z -> Z -> Ext -> (Z * bytes * Z) * Ext;
  dataStorePutFunction : string -> bytes -> bool -> Ext -> bool * Ext;
  statusCallback : ZT1_Event -> Ext -> Ext
}.

Section NodeModel.

Context (K : Constants) (C : Collaborators).

(** ** Observable calls *)

(** What a call of the node did to the outside, in order. *)
Inductive Call : Type :=
| CallOnRemotePacket (remoteAddress : bytes) (linkDesperation : Z) (packetData : bytes)
| CallOnLocalEthernet (nw : Network C) (sourceMac destMac etherType vlanId : Z)
    (frameData : bytes)
| CallDoTimerTasks (now : Z) (r : exception + Z)
| CallDoPingAndKeepalive (p : Peer C) (now : Z)
| CallTopologyClean (now : Z)
| CallMulticasterClean (now : Z)
| CallSetSupernodes (rt : Dictionary C)
| CallNetworkNew (nwid : Z)
| CallNetworkDestroy (nw : Network C)
| CallNetworkMulticastSubscribe (nw : Network C) (mac adi : Z)
| CallNetworkMulticastUnsubscribe (nw : Network C) (mac adi : Z)
| CallNetworkRequestConfiguration (nw : Network C)
| CallNetworkExternalConfig (nw : Network C)
| CallMalloc
| CallIdentityGenerate
| CallSubsystemsNew
| CallDataStoreGet (name : string) (readIndex : Z)
| CallDataStorePut (name : string) (data : bytes) (secure : bool) (ok : bool)
| CallStatus (ev : ZT1_Event).

(** ** The node's state *)

(** The data members of [Node] that the code below reads or writes, the
    identity held in the runtime environment, the collaborators' state,
    and the embedder's [uint64_t] that every entry point receives by
    pointer as [nextBackgroundTaskDeadline].  An entry of [_networks] is a
    [SharedPtr<Network>]: [None] is the null pointer. *)
Record State : Type := mkState {
  ext : Ext C;
  nextBackgroundTaskDeadline : Z;
  RR_identity : Identity C;
  _networks : gmap Z (option (Network C));
  _now : Z;
  _startTimeAfterInactivity : Z;
  _lastPingCheck : Z;
  _lastHousekeepingRun : Z;
  _coreDesperation : Z;
  _newestVersionSeen : Z * Z * Z
}.

Definition set_ext (v : Ext C) (s : State) : State :=
  mkState v (nextBackgroundTaskDeadline s) (RR_identity s) (_networks s)
    (_now s) (_startTimeAfterInactivity s) (_lastPingCheck s)
    (_lastHousekeepingRun s) (_coreDesperation s) (_newestVersionSeen s).
Definition set_nextBackgroundTaskDeadline (v : Z) (s : State) : State :=
  mkState (ext s) v (RR_identity s) (_networks s)
    (_now s) (_startTimeAfterInactivity s) (_lastPingCheck s)
    (_lastHousekeepingRun s) (_coreDesperation s) (_newestVersionSeen s).
Definition set_identity (v : Identity C) (s : State) : State :=
  mkState (ext s) (nextBackgroundTaskDeadline s) v (_networks s)
    (_now s) (_startTimeAfterInactivity s) (_lastPingCheck s)
    (_lastHousekeepingRun s) (_coreDesperation s) (_newestVersionSeen s).
Definition set_networks (v : gmap Z (option (Network C))) (s : State) : State :=
  mkState (ext s) (nextBackgroundTaskDeadline s) (RR_identity s) v
    (_now s) (_startTimeAfterInactivity s) (_lastPingCheck s)
    (_lastHousekeepingRun s) (_coreDesperation s) (_newestVersionSeen s).
Definition set_now (v : Z) (s : State) : State :=
  mkState (ext s) (nextBackgroundTaskDeadline s) (RR_identity s) (_networks s)
    v (_startTimeAfterInactivity s) (_lastPingCheck s)
    (_lastHousekeepingRun s) (_coreDesperation s) (_newestVersionSeen s).
Definition set_startTimeAfterInactivity (v : Z) (s : State) : State :=
  mkState (ext s) (nextBackgroundTaskDeadline s) (RR_identity s) (_networks s)
    (_now s) v (_lastPingCheck s)
    (_lastHousekeepingRun s) (_coreDesperation s) (_newestVersionSeen s).
Definition set_lastPingCheck (v : Z) (s : State) : State :=
  mkState (ext s) (nextBackgroundTaskDeadline s) (RR_identity s) (_networks s)
    (_now s) (_startTimeAfterInactivity s) v
    (_lastHousekeepingRun s) (_coreDesperation s) (_newestVersionSeen s).
Definition set_lastHousekeepingRun (v : Z) (s : State) : State :=
  mkState (ext s) (nextBackgroundTaskDeadline s) (RR_identity s) (_networks s)
    (_now s) (_startTimeAfterInactivity s) (_lastPingCheck s)
    v (_coreDesperation s) (_newestVersionSeen s).
Definition set_coreDesperation (v : Z) (s : State) : State :=
  mkState (ext s) (nextBackgroundTaskDeadline s) (RR_identity s) (_networks s)
    (_now s) (_startTimeAfterInactivity s) (_lastPingCheck s)
    (_lastHousekeepingRun s) v (_newestVersionSeen s).
Definition set_newestVersionSeen (v : Z * Z * Z) (s : State) : State :=
  mkState (ext s) (nextBackgroundTaskDeadline s) (RR_identity s) (_networks s)
    (_now s) (_startTimeAfterInactivity s) (_lastPingCheck s)
    (_lastHousekeepingRun s) (_coreDesperation s) v.

(** ** Computations *)

(** What running a piece of the node gives: how it ended, the state it
    left, and the outside calls it made, oldest first. *)
Record Result (A : Type) : Type := mkResult {
  outcome : Outcome A;
  final : State;
  emitted : list Call
}.
Arguments mkResult {A} _ _ _.
Arguments outcome {A} _.
Arguments final {A} _.
Arguments emitted {A} _.

(** State, exceptions and a log of outside calls.  Assignments made
    before a [throw] stay made. *)
Definition M (A : Type) : Type := State -> Result A.

Definition ret {A} (a : A) : M A := fun s => mkResult (Returned a) s [].

Definition bind {A B} (m : M A) (k : A -> M B) : M B := fun s =>
  let r := m s in
  match outcome r with
  | Returned a =>
      let r' := k a (final r) in
      mkResult (outcome r') (final r') (emitted r ++ emitted r')
  | Threw e => mkResult (Threw e) (final r) (emitted r)
  | Undefined => mkResult Undefined (final r) (emitted r)
  | OutOfFuel => mkResult OutOfFuel (final r) (emitted r)
  end.

Notation "'do' x <- m ; k" := (bind m (fun x => k))
  (at level 10, x name, m at level 100, k at level 200, only parsing).
Notation "'do' ' p <- m ; k" := (bind m (fun x => match x with p => k end))
  (at level 10, p pattern, m at level 100, k at level 200, only parsing).
Notation "m ;;; k" := (bind m (fun _ => k))
  (at level 100, k at level 200, right associativity, only parsing).

Definition throw {A} (e : exception) : M A := fun s => mkResult (Threw e) s [].
Definition undefined {A} : M A := fun s => mkResult Undefined s [].
Definition out_of_fuel {A} : M A := fun s => mkResult OutOfFuel s [].
Definition get : M State := fun s => mkResult (Returned s) s [].
Definition modify (f : State -> State) : M unit :=
  fun s => mkResult (Returned tt) (f s) [].

(** [try { m } catch ( ... ) { h }] *)
Definition try_catch_all {A} (m : M A) (h : M A) : M A := fun s =>
  let r := m s in
  match outcome r with
  | Threw _ =>
      let r' := h (final r) in
      mkResult (outcome r') (final r') (emitted r ++ emitted r')
  | _ => r
  end.

(** [try { m } catch (std::bad_alloc &) { h1 } catch ( ... ) { h2 }] *)
Definition try_catch_bad_alloc {A} (m : M A) (h1 h2 : M A) : M A := fun s =>
  let r := m s in
  match outcome r with
  | Threw e =>
      let r' := match e with bad_alloc => h1 | _ => h2 end (final r) in
      mkResult (outcome r') (final r') (emitted r ++ emitted r')
  | _ => r
  end.

(** A call into a collaborator that may throw; the log entry may show
    how the call ended. *)
Definition call_r {A} (c : exception + A -> Call)
    (f : Ext C -> (exception + A) * Ext C) : M A :=
  fun s =>
    let '(r, e') := f (ext s) in
    mkResult (match r with inl x => Threw x | inr a => Returned a end)
      (set_ext e' s) [c r].

Definition call {A} (c : Call) (f : Ext C -> (exception + A) * Ext C) : M A :=
  call_r (fun _ => c) f.

(** A call that cannot throw. *)
Definition call_total {A} (c : Call) (f : Ext C -> A * Ext C) : M A :=
  fun s =>
    let '(a, e') := f (ext s) in
    mkResult (Returned a) (set_ext e' s) [c].

(** ** Node methods used only within node/ *)

(** Modelled from the spec: [Node::postEvent] is an inline member of
    Node.hpp; node-level events are reported through the embedder's
    status callback. *)
Definition postEvent (ev : ZT1_Event) : M unit :=
  call_total (CallStatus ev) (fun e => (tt, statusCallback C ev e)).

(** Modelled from the spec: [Node::dataStorePut] is an inline member of
    Node.hpp; it writes the named object through the embedder's callback,
    [secure] asking for storage fit for secrets, and returns whether the
    callback reported success. *)
Definition dataStorePut (name : string) (data : bytes) (secure : bool) : M bool :=
  fun s =>
    let '(ok, e') := dataStorePutFunction C name data secure (ext s) in
    mkResult (Returned ok) (set_ext e' s) [CallDataStorePut name data secure ok].

(** [Node::dataStoreGet].  One turn of the [do ... while] asks the
    callback for the part of the object that starts at [r.length()]; the
    callback answers with a count [n], the buffer and the object's total
    length [olen].  [fuel] bounds the number of turns. *)
Fixpoint dataStoreGet_loop (fuel : nat) (name : string) (r : bytes) : M bytes :=
  match fuel with
  | O => out_of_fuel
  | S fuel' =>
      do ' (n, buf, olen) <-
        call_total (CallDataStoreGet name (Z.of_nat (length r)))
          (dataStoreGetFunction C name 16384 (Z.of_nat (length r)));
      if n <=? 0 then ret []
      else
        let r' := r ++ take (Z.to_nat n) buf in
        if Z.of_nat (length r') <? olen
        then dataStoreGet_loop fuel' name r'
        else ret r'
  end.

Definition dataStoreGet (fuel : nat) (name : string) : M bytes :=
  dataStoreGet_loop fuel name [].

(** Modelled from the spec: [Peer::compareVersion] is defined in Peer.hpp;
    the specification of [postNewerVersionIfNewer] gives it as the
    lexicographic order on (major, minor, revision): positive when the
    first triple is the greater, negative when it is the smaller, zero
    when they are equal. *)
Definition compareVersion (maj1 min1 rev1 maj2 min2 rev2 : Z) : Z :=
  if maj2 <? maj1 then 1
  else if maj1 <? maj2 then -1
  else if min2 <? min1 then 1
  else if min1 <? min2 then -1
  else if rev2 <? rev1 then 1
  else if rev1 <? rev2 then -1
  else 0.

Definition postNewerVersionIfNewer (major minor rev : Z) : M unit :=
  do s <- get;
  let '(m0, m1, m2) := _newestVersionSeen s in
  if 0 <? compareVersion major minor rev m0 m1 m2 then
    modify (set_newestVersionSeen (major, minor, rev));;;
    postEvent ZT1_EVENT_SAW_MORE_RECENT_VERSION
  else ret tt.

(** Modelled from the spec: [Node::network] is an inline member of
    Node.hpp; it looks the network up by [nwid] under the registry lock
    and yields a null pointer when there is none. *)
Definition network (nwid : Z) : M (option (Network C)) :=
  do s <- get;
  ret (match _networks s !! nwid with Some nw => nw | None => None end).

(** ** Background tasks *)

(** [_PingPeersThatNeedPing::operator()]; [lastReceiveFromSupernode] is
    the functor's public member, threaded through the iteration. *)
Definition _PingPeersThatNeedPing_call (_supernodes : list Z) (now : Z)
    (p : Peer C) (lastReceiveFromSupernode : Z) : M Z :=
  if bool_decide (peer_address C p ∈ _supernodes) then
    call (CallDoPingAndKeepalive p now) (peer_doPingAndKeepalive C p now);;;
    do s <- get;
    let lr := peer_lastReceive C p (ext s) in
    ret (if lastReceiveFromSupernode <? lr then lr else lastReceiveFromSupernode)
  else
    do s <- get;
    if peer_alive C p now (ext s) then
      call (CallDoPingAndKeepalive p now) (peer_doPingAndKeepalive C p now);;;
      ret lastReceiveFromSupernode
    else ret lastReceiveFromSupernode.

(** Modelled from the spec: [Topology::eachPeer] is a member template of
    Topology.hpp; it iterates over all peers known to the topology and
    applies the functor to each in turn. *)
Fixpoint eachPeer (_supernodes : list Z) (now : Z) (peers : list (Peer C))
    (lastReceiveFromSupernode : Z) : M Z :=
  match peers with
  | [] => ret lastReceiveFromSupernode
  | p :: peers' =>
      do lr <- _PingPeersThatNeedPing_call _supernodes now p lastReceiveFromSupernode;
      eachPeer _supernodes now peers' lr
  end.

(** Construct the functor (its member starts at 0, its supernode list is
    read once) and run it over every peer; the value is the functor's
    [lastReceiveFromSupernode] afterwards. *)
Definition _PingPeersThatNeedPing (now : Z) : M Z :=
  do s <- get;
  eachPeer (topology_supernodeAddresses C (ext s)) now
    (topology_activePeers C (ext s)) 0.

(** The entries of [_networks] in the order a [std::map] is walked:
    by increasing key. *)
Definition key_le (a b : Z * option (Network C)) : Prop := a.1 <= b.1.

#[global] Instance key_le_dec : RelDecision key_le.
Proof. intros a b. unfold key_le. apply _. Defined.

Definition networks_in_order (m : gmap Z (option (Network C)))
    : list (Z * option (Network C)) :=
  merge_sort key_le (map_to_list m).

(** The loop over [_networks] that asks for configuration. *)
Fixpoint requestConfigurations (now : Z) (l : list (Z * option (Network C)))
    : M unit :=
  match l with
  | [] => ret tt
  | (_, None) :: _ => undefined
  | (_, Some nw) :: l' =>
      do s <- get;
      (if ZT_NETWORK_AUTOCONF_DELAY K <=? u64 (now - network_lastConfigUpdate C nw (ext s))
       then call (CallNetworkRequestConfiguration nw) (network_requestConfiguration C nw)
       else ret tt);;;
      requestConfigurations now l'
  end.

(** [try { body } catch ( ... ) { return ZT1_RESULT_FATAL_ERROR_INTERNAL; }]:
    [Some rc] is a [return rc] out of the enclosing function, [None]
    falls through to the statement that follows. *)
Definition try_or_return_internal (body : M unit) : M (option ZT1_ResultCode) :=
  try_catch_all (body;;; ret None) (ret (Some ZT1_RESULT_FATAL_ERROR_INTERNAL)).

(** Run [k] unless [m] has already returned out of the function. *)
Definition unless_returned (m k : M (option ZT1_ResultCode))
    : M (option ZT1_ResultCode) :=
  do r <- m;
  match r with
  | Some rc => ret (Some rc)
  | None => k
  end.

(** The body of [if ((now - _lastPingCheck) >= ZT_PING_CHECK_INVERVAL)]. *)
Definition pingCheck (now : Z) : M (option ZT1_ResultCode) :=
  modify (set_lastPingCheck now);;;
  do s <- get;
  (if ZT_PING_CHECK_INVERVAL K * 3 <? u64 (now - _startTimeAfterInactivity s)
   then modify (set_startTimeAfterInactivity now)
   else ret tt);;;
  unless_returned
    (try_or_return_internal
       (do lastReceiveFromSupernode <- _PingPeersThatNeedPing now;
        do s <- get;
        modify (set_coreDesperation
          (u32 (u64 (now - Z.max (_startTimeAfterInactivity s) lastReceiveFromSupernode)
                / (ZT_PING_CHECK_INVERVAL K * ZT_CORE_DESPERATION_INCREMENT K))))))
    (try_or_return_internal
       (do s <- get;
        requestConfigurations now (networks_in_order (_networks s)))).

(** The body of [if ((now - _lastHousekeepingRun) >= ZT_HOUSEKEEPING_PERIOD)]. *)
Definition housekeeping (now : Z) : M (option ZT1_ResultCode) :=
  modify (set_lastHousekeepingRun now);;;
  unless_returned
    (try_or_return_internal
       (call (CallTopologyClean now) (topology_clean C now)))
    (try_or_return_internal
       (call (CallMulticasterClean now) (mc_clean C now))).

(** The last [try] block: ask the switch, clamp, store the deadline. *)
Definition computeDeadline (now : Z) : M (option ZT1_ResultCode) :=
  try_or_return_internal
    (do interval <- call_r (CallDoTimerTasks now) (sw_doTimerTasks C now);
     modify (set_nextBackgroundTaskDeadline
       (u64 (now + Z.max (Z.min (ZT_PING_CHECK_INVERVAL K) interval)
                         (ZT_CORE_TIMER_TASK_GRANULARITY K))))).

Definition pingCheckIfDue (now : Z) : M (option ZT1_ResultCode) :=
  do s <- get;
  if ZT_PING_CHECK_INVERVAL K <=? u64 (now - _lastPingCheck s)
  then pingCheck now else ret None.

Definition housekeepingIfDue (now : Z) : M (option ZT1_ResultCode) :=
  do s <- get;
  if ZT_HOUSEKEEPING_PERIOD K <=? u64 (now - _lastHousekeepingRun s)
  then housekeeping now else ret None.

Definition processBackgroundTasks (now : Z) : M ZT1_ResultCode :=
  modify (set_now now);;;
  do r <-
    unless_returned (pingCheckIfDue now)
      (unless_returned (housekeepingIfDue now) (computeDeadline now));
  match r with
  | Some rc => ret rc
  | None => ret ZT1_RESULT_OK
  end.

(** ** Public Node interface *)

(** Member initialisers of [Node::Node].  [_newestVersionSeen] has none;
    the first statements of the body assign it. *)
Definition initial_state (e0 : Ext C) (deadline0 : Z) (now : Z) : State :=
  mkState e0 deadline0 (identity_default C) ∅ now 0 0 0 0 (0, 0, 0).

(** Lines 81-94: load the identity or make and store a new one. *)
Definition loadOrGenerateIdentity (fuel : nat) : M unit :=
  do idtmp <- dataStoreGet fuel "identity.secret";
  do regenerate <-
    (if bool_decide (length idtmp = 0%nat) then ret true
     else match identity_fromString C idtmp with
          | None => ret true
          | Some id =>
              modify (set_identity id);;;
              ret (negb (identity_hasPrivate C id))
          end);
  if regenerate : bool then
    do id <- call_total CallIdentityGenerate (identity_generate C);
    modify (set_identity id);;;
    do ok <- dataStorePut "identity.secret" (identity_toString C id true) true;
    if negb ok then throw (runtime_error "unable to write identity.secret")
    else
      do ok <- dataStorePut "identity.public" (identity_toString C id false) false;
      if negb ok then throw (runtime_error "unable to write identity.public")
      else ret tt
  else ret tt.

(** Lines 115-127: the dictionary the supernodes are read from. *)
Definition rootTopology (fuel : nat) (overrideRootTopology : option bytes)
    : M (Dictionary C) :=
  match overrideRootTopology with
  | Some o => ret (dictionary_fromString C o)
  | None =>
      do rttmp <- dataStoreGet fuel "root-topology";
      let rt :=
        if bool_decide (0 < length rttmp)%nat then
          let d := dictionary_fromString C rttmp in
          if topology_authenticateRootTopology C d then d else dictionary_empty C
        else dictionary_empty C in
      ret (if bool_decide (dictionary_size C rt = 0%nat)
           then dictionary_fromString C (ZT_DEFAULTS_defaultRootTopology C)
           else rt)
  end.

(** The body of [Node::Node].  The [catch ( ... )] around the subsystems
    frees what was built and throws the same exception again. *)
Definition Node_ctor (fuel : nat) (overrideRootTopology : option bytes) : M unit :=
  modify (set_newestVersionSeen
    (ZEROTIER_ONE_VERSION_MAJOR K, ZEROTIER_ONE_VERSION_MINOR K,
     ZEROTIER_ONE_VERSION_REVISION K));;;
  loadOrGenerateIdentity fuel;;;
  call CallSubsystemsNew (subsystems_new C);;;
  do rt <- rootTopology fuel overrideRootTopology;
  (let supernodes := dictionary_fromString C (dictionary_get C rt "supernodes" []) in
   call (CallSetSupernodes supernodes) (topology_setSupernodes C supernodes));;;
  postEvent ZT1_EVENT_UP.

(** The preamble shared by the two ingress paths: run the background
    tasks when they are due, and leave with their result if it is not OK;
    otherwise only advance the clock. *)
Definition backgroundTasksIfDue (now : Z) : M (option ZT1_ResultCode) :=
  do s <- get;
  if nextBackgroundTaskDeadline s <=? now then
    do rc <- processBackgroundTasks now;
    ret (if bool_decide (rc = ZT1_RESULT_OK) then None else Some rc)
  else
    modify (set_now now);;;
    ret None.

Definition processWirePacket (now : Z) (remoteAddress : bytes)
    (linkDesperation : Z) (packetData : bytes) : M ZT1_ResultCode :=
  do early <- backgroundTasksIfDue now;
  match early with
  | Some rc => ret rc
  | None =>
      call (CallOnRemotePacket remoteAddress linkDesperation packetData)
        (sw_onRemotePacket C remoteAddress linkDesperation packetData);;;
      ret ZT1_RESULT_OK
  end.

Definition processVirtualNetworkFrame (now nwid sourceMac destMac etherType vlanId : Z)
    (frameData : bytes) : M ZT1_ResultCode :=
  do early <- backgroundTasksIfDue now;
  match early with
  | Some rc => ret rc
  | None =>
      do r <-
        try_catch_all
          (do nw <- network nwid;
           match nw with
           | Some nw =>
               call (CallOnLocalEthernet nw sourceMac destMac etherType vlanId frameData)
                 (sw_onLocalEthernet C nw sourceMac destMac etherType vlanId frameData);;;
               ret None
           | None => ret (Some ZT1_RESULT_ERROR_NETWORK_NOT_FOUND)
           end)
          (ret (Some ZT1_RESULT_FATAL_ERROR_INTERNAL));
      match r with
      | Some rc => ret rc
      | None => ret ZT1_RESULT_OK
      end
  end.

(** [_networks[nwid]] makes a null entry when there is none; the entry is
    then filled unless it already points to a network. *)
Definition join (nwid : Z) : M ZT1_ResultCode :=
  do s <- get;
  (match _networks s !! nwid with
   | None => modify (set_networks (<[nwid := None]> (_networks s)))
   | Some _ => ret tt
   end);;;
  do s <- get;
  (match _networks s !! nwid with
   | Some (Some _) => ret tt
   | _ =>
       do nw <- call (CallNetworkNew nwid) (network_new C nwid);
       modify (fun s => set_networks (<[nwid := Some nw]> (_networks s)) s)
   end);;;
  ret ZT1_RESULT_OK.

(** [leave], [multicastSubscribe] and [multicastUnsubscribe] are declared
    to return a [ZT1_ResultCode] and have no [return] statement.  In C++
    flowing off the end of such a function is undefined behaviour: the
    outcome [Returned None] records that control has reached the closing
    brace, and [final] the state the statements before it have produced.
    It is no return value, and nothing about what the caller receives or
    does next follows from it. *)
Definition leave (nwid : Z) : M (option ZT1_ResultCode) :=
  do s <- get;
  (match _networks s !! nwid with
   | Some (Some nw) =>
       call (CallNetworkDestroy nw) (network_destroy C nw);;;
       modify (fun s => set_networks (delete nwid (_networks s)) s)
   | Some None => undefined
   | None => ret tt
   end);;;
  ret None.

Definition multicastSubscribe (nwid multicastGroup multicastAdi : Z)
    : M (option ZT1_ResultCode) :=
  do s <- get;
  (match _networks s !! nwid with
   | Some (Some nw) =>
       let adi := u32 (Z.land multicastAdi 4294967295) in
       call (CallNetworkMulticastSubscribe nw multicastGroup adi)
         (network_multicastSubscribe C nw multicastGroup adi)
   | Some None => undefined
   | None => ret tt
   end);;;
  ret None.

Definition multicastUnsubscribe (nwid multicastGroup multicastAdi : Z)
    : M (option ZT1_ResultCode) :=
  do s <- get;
  (match _networks s !! nwid with
   | Some (Some nw) =>
       let adi := u32 (Z.land multicastAdi 4294967295) in
       call (CallNetworkMulticastUnsubscribe nw multicastGroup adi)
         (network_multicastUnsubscribe C nw multicastGroup adi)
   | Some None => undefined
   | None => ret tt
   end);;;
  ret None.

(** [None] is the null pointer, [Some cfg] the snapshot that the
    network's [externalConfig] has written into the block [::malloc]
    returned.  The result of [::malloc] is not checked: when it is null,
    [externalConfig] is handed the null pointer to fill in.  An entry that
    is found is dereferenced, null or not. *)
Definition networkConfig (nwid : Z) : M (option (ZT1_VirtualNetworkConfig C)) :=
  do s <- get;
  match _networks s !! nwid with
  | Some entry =>
      do nc <- call_total CallMalloc (malloc C);
      match entry with
      | Some nw =>
          if nc : bool then
            do cfg <- call (CallNetworkExternalConfig nw) (network_externalConfig C nw);
            ret (Some cfg)
          else undefined
      | None => undefined
      end
  | None => ret None
  end.

(** ** CAPI bindings *)

(** [*node] stays null unless the constructor returns. *)
Definition ZT1_Node_new (fuel : nat) (now : Z) (overrideRootTopology : option bytes)
    (e0 : Ext C) (deadline0 : Z) : Result ZT1_ResultCode :=
  let r := Node_ctor fuel overrideRootTopology (initial_state e0 deadline0 now) in
  mkResult
    (match outcome r with
     | Returned _ => Returned ZT1_RESULT_OK
     | Threw bad_alloc => Returned ZT1_RESULT_FATAL_ERROR_OUT_OF_MEMORY
     | Threw (runtime_error _) => Returned ZT1_RESULT_FATAL_ERROR_DATA_STORE_FAILED
     | Threw other_exception => Returned ZT1_RESULT_FATAL_ERROR_INTERNAL
     | Undefined => Undefined
     | OutOfFuel => OutOfFuel
     end)
    (final r) (emitted r).

Definition ZT1_Node_processWirePacket (now : Z) (remoteAddress : bytes)
    (linkDesperation : Z) (packetData : bytes) : M ZT1_ResultCode :=
  try_catch_bad_alloc
    (processWirePacket now remoteAddress linkDesperation packetData)
    (ret ZT1_RESULT_FATAL_ERROR_OUT_OF_MEMORY)
    (ret ZT1_RESULT_ERROR_PACKET_INVALID).

Definition ZT1_Node_processVirtualNetworkFrame
    (now nwid sourceMac destMac etherType vlanId : Z) (frameData : bytes)
    : M ZT1_ResultCode :=
  try_catch_bad_alloc
    (processVirtualNetworkFrame now nwid sourceMac destMac etherType vlanId frameData)
    (ret ZT1_RESULT_FATAL_ERROR_OUT_OF_MEMORY)
    (ret ZT1_RESULT_FATAL_ERROR_INTERNAL).

Definition ZT1_Node_processBackgroundTasks (now : Z) : M ZT1_ResultCode :=
  try_catch_bad_alloc (processBackgroundTasks now)
    (ret ZT1_RESULT_FATAL_ERROR_OUT_OF_MEMORY)
    (ret ZT1_RESULT_FATAL_ERROR_INTERNAL).

Definition ZT1_Node_join (nwid : Z) : M ZT1_ResultCode :=
  try_catch_bad_alloc (join nwid)
    (ret ZT1_RESULT_FATAL_ERROR_OUT_OF_MEMORY)
    (ret ZT1_RESULT_FATAL_ERROR_INTERNAL).

Definition ZT1_Node_leave (nwid : Z) : M (option ZT1_ResultCode) :=
  try_catch_bad_alloc (leave nwid)
    (ret (Some ZT1_RESULT_FATAL_ERROR_OUT_OF_MEMORY))
    (ret (Some ZT1_RESULT_FATAL_ERROR_INTERNAL)).

Definition ZT1_Node_multicastSubscribe (nwid multicastGroup multicastAdi : Z)
    : M (option ZT1_ResultCode) :=
  try_catch_bad_alloc (multicastSubscribe nwid multicastGroup multicastAdi)
    (ret (Some ZT1_RESULT_FATAL_ERROR_OUT_OF_MEMORY))
    (ret (Some ZT1_RESULT_FATAL_ERROR_INTERNAL)).

Definition ZT1_Node_multicastUnsubscribe (nwid multicastGroup multicastAdi : Z)
    : M (option ZT1_ResultCode) :=
  try_catch_bad_alloc (multicastUnsubscribe nwid multicastGroup multicastAdi)
    (ret (Some ZT1_RESULT_FATAL_ERROR_OUT_OF_MEMORY))
    (ret (Some ZT1_RESULT_FATAL_ERROR_INTERNAL)).

Definition ZT1_Node_networkConfig (nwid : Z)
    : M (option (ZT1_VirtualNetworkConfig C)) :=
  try_catch_all (networkConfig nwid) (ret None).

(** ** Sequences of calls *)

(** What can happen to a constructed node: the embedder calls a binding
    or writes its deadline variable, and packet processing reports a
    peer's version. *)
Inductive Op : Type :=
| OpProcessWirePacket (now : Z) (remoteAddress : bytes) (linkDesperation : Z)
    (packetData : bytes)
| OpProcessVirtualNetworkFrame (now nwid sourceMac destMac etherType vlanId : Z)
    (frameData : bytes)
| OpProcessBackgroundTasks (now : Z)
| OpJoin (nwid : Z)
| OpLeave (nwid : Z)
| OpMulticastSubscribe (nwid multicastGroup multicastAdi : Z)
| OpMulticastUnsubscribe (nwid multicastGroup multicastAdi : Z)
| OpNetworkConfig (nwid : Z)
| OpPostNewerVersionIfNewer (major minor rev : Z)
| OpSetDeadline (deadline : Z).

Definition exec (op : Op) : M unit :=
  match op with
  | OpProcessWirePacket now a d p => ZT1_Node_processWirePacket now a d p;;; ret tt
  | OpProcessVirtualNetworkFrame now nwid sm dm et vl fd =>
      ZT1_Node_processVirtualNetworkFrame now nwid sm dm et vl fd;;; ret tt
  | OpProcessBackgroundTasks now => ZT1_Node_processBackgroundTasks now;;; ret tt
  | OpJoin nwid => ZT1_Node_join nwid;;; ret tt
  | OpLeave nwid => ZT1_Node_leave nwid;;; ret tt
  | OpMulticastSubscribe nwid g a => ZT1_Node_multicastSubscribe nwid g a;;; ret tt
  | OpMulticastUnsubscribe nwid g a => ZT1_Node_multicastUnsubscribe nwid g a;;; ret tt
  | OpNetworkConfig nwid => ZT1_Node_networkConfig nwid;;; ret tt
  | OpPostNewerVersionIfNewer major minor rev => postNewerVersionIfNewer major minor rev
  | OpSetDeadline d => modify (set_nextBackgroundTaskDeadline d)
  end.

(** The state after a sequence of calls, as long as each of them ends
    (returns or is caught by its binding).  A call of [leave] or of a
    multicast method that has reached its closing brace is carried on
    from the state it has produced. *)
Fixpoint run (ops : list Op) (s : State) : option State :=
  match ops with
  | [] => Some s
  | op :: ops' =>
      let r := exec op s in
      match outcome r with
      | Returned _ | Threw _ => run ops' (final r)
      | Undefined | OutOfFuel => None
      end
  end.

End NodeModel.

Arguments CallOnRemotePacket {C}.
Arguments CallOnLocalEthernet {C}.
Arguments CallDoTimerTasks {C}.
Arguments CallDoPingAndKeepalive {C}.
Arguments CallTopologyClean {C}.
Arguments CallMulticasterClean {C}.
Arguments CallSetSupernodes {C}.
Arguments CallNetworkNew {C}.
Arguments CallNetworkDestroy {C}.
Arguments CallNetworkMulticastSubscribe {C}.
Arguments CallNetworkMulticastUnsubscribe {C}.
Arguments CallNetworkRequestConfiguration {C}.
Arguments CallNetworkExternalConfig {C}.
Arguments CallMalloc {C}.
Arguments CallIdentityGenerate {C}.
Arguments CallSubsystemsNew {C}.
Arguments CallDataStoreGet {C}.
Arguments CallDataStorePut {C}.
Arguments CallStatus {C}.
Arguments ext {C} s.
Arguments nextBackgroundTaskDeadline {C} s.
Arguments RR_identity {C} s.
Arguments _networks {C} s.
Arguments _now {C} s.
Arguments _startTimeAfterInactivity {C} s.
Arguments _lastPingCheck {C} s.
Arguments _lastHousekeepingRun {C} s.
Arguments _coreDesperation {C} s.
Arguments _newestVersionSeen {C} s.
Arguments mkState {C} _ _ _ _ _ _ _ _ _ _.
Arguments set_ext {C} v s.
Arguments set_nextBackgroundTaskDeadline {C} v s.
Arguments set_identity {C} v s.
Arguments set_networks {C} v s.
Arguments set_now {C} v s.
Arguments set_startTimeAfterInactivity {C} v s.
Arguments set_lastPingCheck {C} v s.
Arguments set_lastHousekeepingRun {C} v s.
Arguments set_coreDesperation {C} v s.
Arguments set_newestVersionSeen {C} v s.
Arguments mkResult {C A} _ _ _.
Arguments outcome {C A} _.
Arguments final {C A} _.
Arguments emitted {C A} _.
Arguments ret {C A} a.
Arguments bind {C A B} m k.
Arguments throw {C A} e.
Arguments undefined {C A}.
Arguments out_of_fuel {C A}.
Arguments get {C}.
Arguments modify {C} f.
Arguments try_catch_all {C A} m h.
Arguments try_catch_bad_alloc {C A} m h1 h2.
Arguments call_r {C A} c f.
Arguments call {C A} c f.
Arguments call_total {C A} c f.
Arguments postEvent {C} ev.
Arguments dataStorePut {C} name data secure.
Arguments dataStoreGet_loop {C} fuel name r.
Arguments dataStoreGet {C} fuel name.
Arguments postNewerVersionIfNewer {C} major minor rev.
Arguments network {C} nwid.
Arguments _PingPeersThatNeedPing_call {C} _supernodes now p lastReceiveFromSupernode.
Arguments eachPeer {C} _supernodes now peers lastReceiveFromSupernode.
Arguments _PingPeersThatNeedPing {C} now.
Arguments key_le {C} a b.
Arguments networks_in_order {C} m.
Arguments requestConfigurations K {C} now l.
Arguments try_or_return_internal {C} body.
Arguments unless_returned {C} m k.
Arguments pingCheck K {C} now.
Arguments housekeeping {C} now.
Arguments computeDeadline K {C} now.
Arguments pingCheckIfDue K {C} now.
Arguments housekeepingIfDue K {C} now.
Arguments processBackgroundTasks K {C} now.
Arguments initial_state {C} e0 deadline0 now.
Arguments loadOrGenerateIdentity {C} fuel.
Arguments rootTopology {C} fuel overrideRootTopology.
Arguments Node_ctor K {C} fuel overrideRootTopology.
Arguments backgroundTasksIfDue K {C} now.
Arguments processWirePacket K {C} now remoteAddress linkDesperation packetData.
Arguments processVirtualNetworkFrame K {C} now nwid sourceMac destMac etherType vlanId frameData.
Arguments join {C} nwid.
Arguments leave {C} nwid.
Arguments multicastSubscribe {C} nwid multicastGroup multicastAdi.
Arguments multicastUnsubscribe {C} nwid multicastGroup multicastAdi.
Arguments networkConfig {C} nwid.
Arguments ZT1_Node_new K {C} fuel now overrideRootTopology e0 deadline0.
Arguments ZT1_Node_processWirePacket K {C} now remoteAddress linkDesperation packetData.
Arguments ZT1_Node_processVirtualNetworkFrame K {C} now nwid sourceMac destMac etherType vlanId frameData.
Arguments ZT1_Node_processBackgroundTasks K {C} now.
Arguments ZT1_Node_join {C} nwid.
Arguments ZT1_Node_leave {C} nwid.
Arguments ZT1_Node_multicastSubscribe {C} nwid multicastGroup multicastAdi.
Arguments ZT1_Node_multicastUnsubscribe {C} nwid multicastGroup multicastAdi.
Arguments ZT1_Node_networkConfig {C} nwid.
Arguments exec K {C} op.
Arguments run K {C} ops s.

Notation "'do' x <- m ; k" := (bind m (fun x => k))
  (at level 10, x name, m at level 100, k at level 200, only parsing).
Notation "m ;;; k" := (bind m (fun _ => k))
  (at level 100, k at level 200, right associativity, only parsing).

(** ** A concrete instance *)

(** Constants of the magnitude [Constants.hpp] uses (milliseconds), and a
    small world in which the model runs: a store, a list of peers given
    by address and time of last receipt, and switches that make a
    collaborator throw. *)
Definition sample_constants : Constants :=
  mkConstants 6250 2 60000 120000 1000 1 0 1.

Record SampleExt : Type := mkSampleExt {
  sx_store : gmap string bytes;
  sx_put_ok : bool;
  sx_peers : list (Z * Z);
  sx_supernodes : list Z;
  sx_interval : Z;
  sx_timer_throws : option exception;
  sx_ping_throws : option exception;
  sx_clean_throws : option exception;
  sx_switch_throws : option exception;
  sx_network_new_throws : option exception;
  sx_events : list ZT1_Event
}.

Definition sample_throw {A} (t : option exception) (a : A) (e : SampleExt)
    : (exception + A) * SampleExt :=
  match t with
  | Some x => (inl x, e)
  | None => (inr a, e)
  end.

Definition sample_get (name : string) (bufLen readIndex : Z) (e : SampleExt)
    : (Z * bytes * Z) * SampleExt :=
  match sx_store e !! name with
  | None => ((-1, [], 0), e)
  | Some data =>
      let chunk := take (Z.to_nat bufLen) (drop (Z.to_nat readIndex) data) in
      ((Z.of_nat (length chunk), chunk, Z.of_nat (length data)), e)
  end.

Definition sample_put (name : string) (data : bytes) (secure : bool) (e : SampleExt)
    : bool * SampleExt :=
  if sx_put_ok e then
    (true,
     mkSampleExt (<[name := data]> (sx_store e)) (sx_put_ok e) (sx_peers e)
       (sx_supernodes e) (sx_interval e) (sx_timer_throws e) (sx_ping_throws e)
       (sx_clean_throws e) (sx_switch_throws e) (sx_network_new_throws e)
       (sx_events e))
  else (false, e).

Definition sample_status (ev : ZT1_Event) (e : SampleExt) : SampleExt :=
  mkSampleExt (sx_store e) (sx_put_ok e) (sx_peers e)
    (sx_supernodes e) (sx_interval e) (sx_timer_throws e) (sx_ping_throws e)
    (sx_clean_throws e) (sx_switch_throws e) (sx_network_new_throws e)
    (sx_events e ++ [ev]).

(** A sample identity is a key byte and whether the private half is
    there; its text is a tag byte followed by the key. *)
Definition sample_identity_fromString (b : bytes) : option (Byte.byte * bool) :=
  match b with
  | [tag; k] => Some (k, Byte.eqb tag Byte.x01)
  | _ => None
  end.

Definition sample_identity_toString (id : Byte.byte * bool) (includePrivate : bool)
    : bytes :=
  [if includePrivate then Byte.x01 else Byte.x00; id.1].

Definition sample_collaborators : Collaborators :=
  {| Ext := SampleExt;
     Network := Z;
     Peer := Z * Z;
     Identity := Byte.byte * bool;
     Dictionary := bytes;
     ZT1_VirtualNetworkConfig := Z;
     sw_onRemotePacket := fun _ _ _ e => sample_throw (sx_switch_throws e) tt e;
     sw_onLocalEthernet := fun _ _ _ _ _ _ e => sample_throw (sx_switch_throws e) tt e;
     sw_doTimerTasks := fun _ e => sample_throw (sx_timer_throws e) (sx_interval e) e;
     topology_supernodeAddresses := sx_supernodes;
     topology_activePeers := sx_peers;
     topology_clean := fun _ e => sample_throw (sx_clean_throws e) tt e;
     topology_setSupernodes := fun _ e => (inr tt, e);
     topology_authenticateRootTopology := fun _ => true;
     peer_address := fst;
     peer_lastReceive := fun p _ => p.2;
     peer_alive := fun _ _ _ => true;
     peer_doPingAndKeepalive := fun _ _ e => sample_throw (sx_ping_throws e) tt e;
     mc_clean := fun _ e => (inr tt, e);
     network_new := fun nwid e => sample_throw (sx_network_new_throws e) nwid e;
     network_destroy := fun _ e => (inr tt, e);
     network_multicastSubscribe := fun _ _ _ e => (inr tt, e);
     network_multicastUnsubscribe := fun _ _ _ e => (inr tt, e);
     network_requestConfiguration := fun _ e => (inr tt, e);
     network_lastConfigUpdate := fun _ _ => 0;
     network_externalConfig := fun nw e => (inr nw, e);
     identity_default := (Byte.x00, false);
     identity_fromString := sample_identity_fromString;
     identity_hasPrivate := snd;
     identity_generate := fun e => ((Byte.x2a, true), e);
     identity_toString := sample_identity_toString;
     dictionary_fromString := fun b => b;
     dictionary_empty := [];
     dictionary_size := fun d => length d;
     dictionary_get := fun _ _ dflt => dflt;
     ZT_DEFAULTS_defaultRootTopology := [Byte.x01];
     subsystems_new := fun e => (inr tt, e);
     malloc := fun e => (true, e);
     dataStoreGetFunction := sample_get;
     dataStorePutFunction := sample_put;
     statusCallback := sample_status |}.

(** A world with one supernode, address 1, last heard from at time
    [lastReceive]. *)
Definition sample_ext_supernode (lastReceive : Z) : SampleExt :=
  mkSampleExt ∅ true [(1, lastReceive)] [1] 300 None None None None None [].

(** A world in which constructing a network runs out of memory. *)
Definition sample_ext_no_memory : SampleExt :=
  mkSampleExt ∅ true [] [] 300 None None None None (Some bad_alloc) [].

(** A world whose switch throws from [doTimerTasks]. *)
Definition sample_ext_timer_throws : SampleExt :=
  mkSampleExt ∅ true [] [] 300 (Some other_exception) None None None None [].

(** A world whose switch throws when handed a packet or a frame. *)
Definition sample_ext_switch_throws (x : exception) : SampleExt :=
  mkSampleExt ∅ true [] [] 300 None None None (Some x) None [].

(** A world whose topology throws from [clean], and one in which the
    ping of the supernode throws. *)
Definition sample_ext_clean_throws : SampleExt :=
  mkSampleExt ∅ true [] [] 300 None None (Some other_exception) None None [].

Definition sample_ext_ping_throws : SampleExt :=
  mkSampleExt ∅ true [(1, 0)] [1] 300 None (Some other_exception) None None None [].

(** An empty store that refuses writes, and a store that already holds
    an identity with its private half. *)
Definition sample_ext_store_refuses : SampleExt :=
  mkSampleExt ∅ false [] [] 300 None None None None None [].

Definition sample_ext_with_identity : SampleExt :=
  mkSampleExt {[ "identity.secret"%string := [Byte.x01; Byte.x07] ]} true
    [] [] 300 None None None None None [].

(** Worlds in which a collaborator runs out of memory: the switch in
    [doTimerTasks], the topology in [clean]. *)
Definition sample_ext_timer_no_memory : SampleExt :=
  mkSampleExt ∅ true [] [] 300 (Some bad_alloc) None None None None [].

Definition sample_ext_clean_no_memory : SampleExt :=
  mkSampleExt ∅ true [] [] 300 None None (Some bad_alloc) None None [].

(** A world with a supernode (address 1) and a peer that is no supernode
    (address 2); and a world whose store holds [data] under [name]. *)
Definition sample_ext_two_peers : SampleExt :=
  mkSampleExt ∅ true [(1, 100); (2, 5000)] [1] 300 None None None None None [].

Definition sample_ext_holding (name : string) (data : bytes) : SampleExt :=
  mkSampleExt {[ name := data ]} true [] [] 300 None None None None None [].

(** A quiet world: empty store that accepts writes, no peers, nothing
    throws, the switch asks to be called again in [interval] ms. *)
Definition sample_ext (interval : Z) : SampleExt :=
  mkSampleExt ∅ true [] [] interval None None None None None [].

(** A node constructed at time 0 in the quiet world, its embedder's
    deadline variable still 0. *)
Definition sample_node (interval : Z) : State sample_collaborators :=
  initial_state (C := sample_collaborators) (sample_ext interval) 0 0.

(** A root topology counts as authentic in the second instance below
    only when its text begins with the byte 01. *)
Definition sample_authentic (d : bytes) : bool :=
  match d with
  | b :: _ => Byte.eqb b Byte.x01
  | [] => false
  end.

(** In the second instance [::malloc] fails in the worlds in which the
    networks run out of memory. *)
Definition sample_memory_left (e : SampleExt) : bool :=
  match sx_network_new_throws e with
  | Some bad_alloc => false
  | _ => true
  end.

(** A world in which the networks throw something other than
    [std::bad_alloc]. *)
Definition sample_ext_network_throws : SampleExt :=
  mkSampleExt ∅ true [] [] 300 None None None None (Some other_exception) [].

(** A second, less forgiving instance over the same worlds: constructing
    a network always succeeds, and the methods of a network ([destroy],
    the two multicast methods, [requestConfiguration], [externalConfig])
    throw what [sx_network_new_throws] says; constructing the subsystems
    throws what [sx_switch_throws] says; a root topology has to be
    authentic. *)
Definition sample_collaborators_strict : Collaborators :=
  {| Ext := SampleExt;
     Network := Z;
     Peer := Z * Z;
     Identity := Byte.byte * bool;
     Dictionary := bytes;
     ZT1_VirtualNetworkConfig := Z;
     sw_onRemotePacket := fun _ _ _ e => sample_throw (sx_switch_throws e) tt e;
     sw_onLocalEthernet := fun _ _ _ _ _ _ e => sample_throw (sx_switch_throws e) tt e;
     sw_doTimerTasks := fun _ e => sample_throw (sx_timer_throws e) (sx_interval e) e;
     topology_supernodeAddresses := sx_supernodes;
     topology_activePeers := sx_peers;
     topology_clean := fun _ e => sample_throw (sx_clean_throws e) tt e;
     topology_setSupernodes := fun _ e => (inr tt, e);
     topology_authenticateRootTopology := sample_authentic;
     peer_address := fst;
     peer_lastReceive := fun p _ => p.2;
     peer_alive := fun _ _ _ => true;
     peer_doPingAndKeepalive := fun _ _ e => sample_throw (sx_ping_throws e) tt e;
     mc_clean := fun _ e => (inr tt, e);
     network_new := fun nwid e => (inr nwid, e);
     network_destroy := fun _ e => sample_throw (sx_network_new_throws e) tt e;
     network_multicastSubscribe :=
       fun _ _ _ e => sample_throw (sx_network_new_throws e) tt e;
     network_multicastUnsubscribe :=
       fun _ _ _ e => sample_throw (sx_network_new_throws e) tt e;
     network_requestConfiguration :=
       fun _ e => sample_throw (sx_network_new_throws e) tt e;
     network_lastConfigUpdate := fun _ _ => 0;
     network_externalConfig :=
       fun nw e => sample_throw (sx_network_new_throws e) nw e;
     identity_default := (Byte.x00, false);
     identity_fromString := sample_identity_fromString;
     identity_hasPrivate := snd;
     identity_generate := fun e => ((Byte.x2a, true), e);
     identity_toString := sample_identity_toString;
     dictionary_fromString := fun b => b;
     dictionary_empty := [];
     dictionary_size := fun d => length d;
     dictionary_get := fun _ _ dflt => dflt;
     ZT_DEFAULTS_defaultRootTopology := [Byte.x01];
     subsystems_new := fun e => sample_throw (sx_switch_throws e) tt e;
     malloc := fun e => (sample_memory_left e, e);
     dataStoreGetFunction := sample_get;
     dataStorePutFunction := sample_put;
     statusCallback := sample_status |}.

(** * Vocabulary of the properties *)

Section Vocabulary.

Context {C : Collaborators}.

(** [clamp x lo hi] as the specification uses it: [x] brought into
    [lo .. hi]. *)
Definition clamp (x lo hi : Z) : Z :=
  if x <? lo then lo else if hi <? x then hi else x.

(** Computations whose only early return is the internal error. *)
Definition only_internal (m : M C (option ZT1_ResultCode)) : Prop :=
  forall s rc, outcome (m s) = Returned (Some rc) ->
    rc = ZT1_RESULT_FATAL_ERROR_INTERNAL.

Definition never_throws {A} (m : M C A) : Prop :=
  forall s e, outcome (m s) <> Threw e.

(** [obeys R P m]: whatever the state, running [m] moves it along [R]
    and makes only outside calls that satisfy [P]. *)
Definition obeys {A} (R : State C -> State C -> Prop) (P : Call C -> Prop)
    (m : M C A) : Prop :=
  forall s, R s (final (m s)) /\ Forall P (emitted (m s)).

(** The relations used for [R]: reflexive, transitive, and blind to the
    collaborators' state. *)
Class Frame (R : State C -> State C -> Prop) : Prop := {
  frame_refl : forall s, R s s;
  frame_trans : forall s1 s2 s3, R s1 s2 -> R s2 s3 -> R s1 s3;
  frame_ext : forall e s, R s (set_ext e s)
}.

(** [R] lets the field written by [g] change. *)
Class Tolerates {X} (R : State C -> State C -> Prop)
    (g : X -> State C -> State C) : Prop :=
  tolerates : forall v s, R s (g v s).

(** [keeps f]: the part [f] of the state is the same afterwards. *)
Definition keeps {X} (f : State C -> X) : State C -> State C -> Prop :=
  fun s s' => f s' = f s.

Definition any_call : Call C -> Prop := fun _ => True.

(** What [processBackgroundTasks] does after it has advanced the clock:
    the two gated subroutines and the deadline, each skipped once an
    earlier one has returned. *)
Definition tick_stages (K : Constants) (now : Z) : M C (option ZT1_ResultCode) :=
  unless_returned (pingCheckIfDue K now)
    (unless_returned (housekeepingIfDue K now) (computeDeadline K now)).

(** The calls by which the switch is handed a packet or a frame. *)
Definition is_onRemotePacket (c : Call C) : bool :=
  match c with CallOnRemotePacket _ _ _ => true | _ => false end.

Definition is_onLocalEthernet (c : Call C) : bool :=
  match c with CallOnLocalEthernet _ _ _ _ _ _ => true | _ => false end.

(** The outside calls of the peer-liveness subroutine and of
    housekeeping. *)
Definition is_pingCheck_call (c : Call C) : bool :=
  match c with
  | CallDoPingAndKeepalive _ _ | CallNetworkRequestConfiguration _ => true
  | _ => false
  end.

Definition is_housekeeping_call (c : Call C) : bool :=
  match c with
  | CallTopologyClean _ | CallMulticasterClean _ => true
  | _ => false
  end.

Definition is_doTimerTasks (c : Call C) : bool :=
  match c with CallDoTimerTasks _ _ => true | _ => false end.

(** Every outside call a tick can make. *)
Definition is_tick_call (c : Call C) : bool :=
  is_pingCheck_call c || is_housekeeping_call c || is_doTimerTasks c.

(** The start-of-activity timestamp after the test at the head of the
    peer-liveness subroutine. *)
Definition advanced_start (K : Constants) (now : Z) (s : State C) : Z :=
  if ZT_PING_CHECK_INVERVAL K * 3 <? u64 (now - _startTimeAfterInactivity s)
  then now else _startTimeAfterInactivity s.

(** The state in which the peers are visited: clock, gate and
    start-of-activity already written. *)
Definition before_peers (K : Constants) (now : Z) (s : State C) : State C :=
  set_startTimeAfterInactivity (advanced_start K now s)
    (set_lastPingCheck now (set_now now s)).

(** The greatest time of last receipt among the peers that are
    supernodes, 0 when there is none: what the functor's member holds
    after the iteration, read off the state before it. *)
Definition maxSupernodeLastReceive (s : State C) : Z :=
  fold_left Z.max
    (map (fun p => peer_lastReceive C p (ext s))
       (filter (fun p => peer_address C p ∈ topology_supernodeAddresses C (ext s))
          (topology_activePeers C (ext s))))
    0.

(** Sending a ping does not change when a peer was last heard from. *)
Definition pings_keep_lastReceive : Prop :=
  forall (p q : Peer C) (now : Z) (e : Ext C),
    peer_lastReceive C q (peer_doPingAndKeepalive C p now e).2
    = peer_lastReceive C q e.

(** The reading of "no contact" in the specification's sentence on the
    start-of-activity timestamp: no supernode has been heard from since
    that timestamp. *)
Definition no_contact_since_start (s : State C) (lastReceiveFromSupernode : Z)
    : Prop :=
  lastReceiveFromSupernode <= _startTimeAfterInactivity s.

(** Membership of [nwid] as [networkConfig] sees it, carried from one
    state to a later one: a network that is there stays, an absent one
    stays absent. *)
Definition joined_stays (nwid : Z) : State C -> State C -> Prop :=
  fun s s' => forall nw,
    _networks s !! nwid = Some (Some nw) -> _networks s' !! nwid = Some (Some nw).

Definition absent_stays (nwid : Z) : State C -> State C -> Prop :=
  fun s s' => _networks s !! nwid = None -> _networks s' !! nwid = None.

(** The code [ZT1_Node_processWirePacket] returns once the packet has
    been handed to the switch, from how the switch ended. *)
Definition wire_packet_result (r : exception + unit) : ZT1_ResultCode :=
  match r with
  | inr _ => ZT1_RESULT_OK
  | inl bad_alloc => ZT1_RESULT_FATAL_ERROR_OUT_OF_MEMORY
  | inl _ => ZT1_RESULT_ERROR_PACKET_INVALID
  end.

(** The preamble of an ingress call has let the call go on, in state
    [s1] and after the outside calls [pre]: either the tick was due and
    returned OK, or it was not due and only the clock moved. *)
Definition preamble_passes (K : Constants) (now : Z) (s s1 : State C)
    (pre : list (Call C)) : Prop :=
  (nextBackgroundTaskDeadline s <= now /\
   outcome (processBackgroundTasks K now s) = Returned ZT1_RESULT_OK /\
   s1 = final (processBackgroundTasks K now s) /\
   pre = emitted (processBackgroundTasks K now s)) \/
  (now < nextBackgroundTaskDeadline s /\ s1 = set_now now s /\ pre = []).

(** [a] strictly exceeds [b] in the lexicographic order on
    (major, minor, revision). *)
Definition version_exceeds (a b : Z * Z * Z) : Prop :=
  let '(a1, a2, a3) := a in
  let '(b1, b2, b3) := b in
  b1 < a1 \/ (a1 = b1 /\ (b2 < a2 \/ (a2 = b2 /\ b3 < a3))).

(** The node's own version. *)
Definition compiled_version (K : Constants) : Z * Z * Z :=
  (ZEROTIER_ONE_VERSION_MAJOR K, ZEROTIER_ONE_VERSION_MINOR K,
   ZEROTIER_ONE_VERSION_REVISION K).

(** The stored version is at least the node's own, and stays so. *)
Definition version_floor (K : Constants) : State C -> State C -> Prop :=
  fun s s' =>
    ~ version_exceeds (compiled_version K) (_newestVersionSeen s) ->
    ~ version_exceeds (compiled_version K) (_newestVersionSeen s').

(** The identity the constructor keeps from the text it read under
    [identity.secret]: none when the text is empty, does not parse, or
    parses to an identity without its private half. *)
Definition loaded_identity (idtmp : bytes) : option (Identity C) :=
  if bool_decide (length idtmp = 0%nat) then None
  else match identity_fromString C idtmp with
       | Some id => if identity_hasPrivate C id then Some id else None
       | None => None
       end.

(** The node under construction when the identity is loaded. *)
Definition constructing (K : Constants) (e0 : Ext C) (deadline0 now : Z) : State C :=
  set_newestVersionSeen (compiled_version K) (initial_state e0 deadline0 now).

Definition is_identityGenerate (c : Call C) : bool :=
  match c with CallIdentityGenerate => true | _ => false end.

Definition is_dataStorePut (c : Call C) : bool :=
  match c with CallDataStorePut _ _ _ _ => true | _ => false end.

(** Sending a ping does not change which peers count as alive, and
    asking for a configuration does not change when a network was last
    configured. *)
Definition pings_keep_alive : Prop :=
  forall (p q : Peer C) (now t : Z) (e : Ext C),
    peer_alive C q t (peer_doPingAndKeepalive C p now e).2 = peer_alive C q t e.

Definition requests_keep_lastConfigUpdate : Prop :=
  forall (nw nw' : Network C) (e : Ext C),
    network_lastConfigUpdate C nw' (network_requestConfiguration C nw e).2
    = network_lastConfigUpdate C nw' e.

(** The peers a ping check at time [now] is to reach: the supernodes,
    and the others that are alive. *)
Definition needs_ping (sn : list Z) (now : Z) (e : Ext C) (p : Peer C) : bool :=
  bool_decide (peer_address C p ∈ sn) || peer_alive C p now e.

(** The networks a tick at time [now] asks a configuration for. *)
Definition needs_configuration (K : Constants) (now : Z) (e : Ext C)
    (nw : Network C) : bool :=
  ZT_NETWORK_AUTOCONF_DELAY K <=? u64 (now - network_lastConfigUpdate C nw e).

(** The networks of a list of registry entries, null entries left out. *)
Definition present_networks (l : list (Z * option (Network C)))
    : list (Network C) :=
  omap snd l.

(** Nothing of the node changed but the collaborators' state. *)
Definition only_ext : State C -> State C -> Prop :=
  fun s s' => s' = set_ext (ext s') s.

(** The embedder's store holds [data] under [name] and serves it as the
    read callback is documented to: in every state of the collaborators
    that satisfies [Inv], a read at an offset inside the object fills the
    buffer with as much of the object as fits, reports that count and the
    object's length, and leaves [Inv] true; a read of an empty object
    reports nothing read. *)
Definition store_serves (Inv : Ext C -> Prop) (name : string) (data : bytes)
    : Prop :=
  forall (e : Ext C) (i : nat),
    Inv e -> (i < length data \/ data = [])%nat ->
    let '(n, buf, olen, e') :=
      dataStoreGetFunction C name 16384 (Z.of_nat i) e in
    Inv e' /\
    n = Z.of_nat (length (take (Z.to_nat 16384) (drop i data))) /\
    take (Z.to_nat n) buf = take (Z.to_nat 16384) (drop i data) /\
    olen = Z.of_nat (length data).

Definition is_statusCall (c : Call C) : bool :=
  match c with CallStatus _ => true | _ => false end.

Definition is_dataStoreGet (name : string) (c : Call C) : bool :=
  match c with CallDataStoreGet name' _ => bool_decide (name' = name) | _ => false end.

(** The code [ZT1_Node_new] returns when the constructor throws. *)
Definition construction_failure (x : exception) : ZT1_ResultCode :=
  match x with
  | bad_alloc => ZT1_RESULT_FATAL_ERROR_OUT_OF_MEMORY
  | runtime_error _ => ZT1_RESULT_FATAL_ERROR_DATA_STORE_FAILED
  | other_exception => ZT1_RESULT_FATAL_ERROR_INTERNAL
  end.

(** The code a binding with the two usual [catch] clauses returns when
    the method throws. *)
Definition binding_failure (x : exception) : ZT1_ResultCode :=
  match x with
  | bad_alloc => ZT1_RESULT_FATAL_ERROR_OUT_OF_MEMORY
  | _ => ZT1_RESULT_FATAL_ERROR_INTERNAL
  end.

(** What [ZT1_Node_networkConfig] hands back for a network that is in
    the registry, from how [::malloc] and the network's [externalConfig]
    end in the collaborators' state [e]: a snapshot; the null pointer
    when [externalConfig] throws; nothing defined when the allocation
    fails. *)
Definition snapshot_outcome (nw : Network C) (e : Ext C)
    : Outcome (option (ZT1_VirtualNetworkConfig C)) :=
  let '(nc, e1) := malloc C e in
  if nc : bool then
    match (network_externalConfig C nw e1).1 with
    | inr cfg => Returned (Some cfg)
    | inl _ => Returned None
    end
  else Undefined.

(** The calls whose method ends every path in a [return] statement:
    all but [leave] and the two multicast methods. *)
Definition ends_in_return (op : Op) : bool :=
  match op with
  | OpLeave _ | OpMulticastSubscribe _ _ _ | OpMulticastUnsubscribe _ _ _ => false
  | _ => true
  end.

(** No entry of the registry is a null pointer. *)
Definition no_null_entry (s : State C) : Prop :=
  forall nwid, _networks s !! nwid <> Some None.

(** The computation comes to an end in [s]: it returns or throws. *)
Definition ends {A} (m : M C A) (s : State C) : Prop :=
  match outcome (m s) with
  | Returned _ | Threw _ => True
  | Undefined | OutOfFuel => False
  end.

(** The computation returns in [s]. *)
Definition returns {A} (m : M C A) (s : State C) : Prop :=
  exists a, outcome (m s) = Returned a.

(** The event UP is the last outside call of a construction that
    returns, and no event at all is posted by one that does not. *)
Definition up_is_last {A} (r : Result C A) : Prop :=
  match outcome r with
  | Returned _ =>
      exists l, emitted r = l ++ [CallStatus ZT1_EVENT_UP] /\
                Forall (fun c => is_statusCall c = false) l
  | _ => Forall (fun c => is_statusCall c = false) (emitted r)
  end.

End Vocabulary.

Arguments pings_keep_alive C : clear implicits.
Arguments requests_keep_lastConfigUpdate C : clear implicits.

Arguments pings_keep_lastReceive C : clear implicits.

(** * Properties *)

(** ** How computations compose *)

Section MonadFacts.

Context {C : Collaborators}.

Lemma bind_Returned {A B} (m : M C A) (k : A -> M C B) (s : State C) (b : B) :
  outcome (bind m k s) = Returned b ->
  exists a,
    outcome (m s) = Returned a /\
    outcome (k a (final (m s))) = Returned b /\
    final (bind m k s) = final (k a (final (m s))) /\
    emitted (bind m k s) = emitted (m s) ++ emitted (k a (final (m s))).
Proof.
  unfold bind. destruct (outcome (m s)) as [a| | |] eqn:Hm; simpl; try discriminate.
  intros Hk. exists a. auto.
Qed.

Lemma bind_step {A B} (m : M C A) (k : A -> M C B) (s : State C) (a : A) :
  outcome (m s) = Returned a ->
  outcome (bind m k s) = outcome (k a (final (m s))) /\
  final (bind m k s) = final (k a (final (m s))) /\
  emitted (bind m k s) = emitted (m s) ++ emitted (k a (final (m s))).
Proof. unfold bind. intros ->. simpl. auto. Qed.

Lemma bind_stop {A B} (m : M C A) (k : A -> M C B) (s : State C) :
  (forall a, outcome (m s) <> Returned a) ->
  final (bind m k s) = final (m s) /\ emitted (bind m k s) = emitted (m s).
Proof.
  unfold bind. destruct (outcome (m s)) as [a| | |]; simpl; auto.
  intros H. destruct (H a eq_refl).
Qed.

Lemma unless_returned_None (m k : M C (option ZT1_ResultCode)) (s : State C) :
  outcome (unless_returned m k s) = Returned None ->
  outcome (m s) = Returned None /\
  outcome (k (final (m s))) = Returned None /\
  final (unless_returned m k s) = final (k (final (m s))) /\
  emitted (unless_returned m k s) = emitted (m s) ++ emitted (k (final (m s))).
Proof.
  unfold unless_returned. intros H.
  destruct (bind_Returned _ _ _ _ H) as ([rc|] & Hm & Hk & Hf & He).
  - discriminate Hk.
  - auto.
Qed.

Lemma unless_returned_continue (m k : M C (option ZT1_ResultCode)) (s : State C) :
  outcome (m s) = Returned None ->
  outcome (unless_returned m k s) = outcome (k (final (m s))) /\
  final (unless_returned m k s) = final (k (final (m s))) /\
  emitted (unless_returned m k s) = emitted (m s) ++ emitted (k (final (m s))).
Proof.
  intros H. unfold unless_returned.
  exact (bind_step m
    (fun r => match r with Some rc => ret (Some rc) | None => k end) s None H).
Qed.

Lemma unless_returned_stop (m k : M C (option ZT1_ResultCode)) (s : State C) :
  outcome (m s) <> Returned None ->
  outcome (unless_returned m k s) = outcome (m s) /\
  final (unless_returned m k s) = final (m s) /\
  emitted (unless_returned m k s) = emitted (m s).
Proof.
  unfold unless_returned, bind. destruct (outcome (m s)) as [[rc|]| | |]; simpl;
    rewrite ?app_nil_r; auto.
  intros H. destruct (H eq_refl).
Qed.

(** A [try] block that returns on any exception does not throw, and the
    only code it returns is the internal error. *)
Lemma try_or_return_internal_outcome (body : M C unit) (s : State C) :
  match outcome (body s) with
  | Returned _ => outcome (try_or_return_internal body s) = Returned None
  | Threw _ =>
      outcome (try_or_return_internal body s)
      = Returned (Some ZT1_RESULT_FATAL_ERROR_INTERNAL)
  | Undefined => outcome (try_or_return_internal body s) = Undefined
  | OutOfFuel => outcome (try_or_return_internal body s) = OutOfFuel
  end /\
  final (try_or_return_internal body s) = final (body s) /\
  emitted (try_or_return_internal body s) = emitted (body s).
Proof.
  unfold try_or_return_internal, try_catch_all, bind, ret.
  destruct (outcome (body s)); simpl; rewrite ?app_nil_r; auto.
Qed.

Lemma only_internal_try (body : M C unit) :
  only_internal (try_or_return_internal body).
Proof.
  intros s rc H.
  destruct (try_or_return_internal_outcome body s) as (Ho & _).
  destruct (outcome (body s)); rewrite Ho in H; congruence.
Qed.

Lemma never_throws_try (body : M C unit) :
  never_throws (try_or_return_internal body).
Proof.
  intros s e H.
  destruct (try_or_return_internal_outcome body s) as (Ho & _).
  destruct (outcome (body s)); rewrite Ho in H; congruence.
Qed.

Lemma only_internal_unless (m k : M C (option ZT1_ResultCode)) :
  only_internal m -> only_internal k -> only_internal (unless_returned m k).
Proof.
  intros Hm Hk s rc H. unfold unless_returned in H.
  destruct (bind_Returned _ _ _ _ H) as ([rc'|] & H1 & H2 & _).
  - unfold ret in H2. simpl in H2. injection H2 as <-. eauto.
  - eauto.
Qed.

Lemma never_throws_unless (m k : M C (option ZT1_ResultCode)) :
  never_throws m -> never_throws k -> never_throws (unless_returned m k).
Proof.
  intros Hm Hk s e. unfold unless_returned, bind.
  destruct (outcome (m s)) as [[rc|]| | |] eqn:H1; simpl; try congruence.
  - apply Hk.
  - intros H. apply (Hm s e). congruence.
Qed.

End MonadFacts.

(** ** What a computation leaves alone *)

Section Frames.

Context {C : Collaborators}.
Context (R : State C -> State C -> Prop) `{!Frame R} (P : Call C -> Prop).

Lemma obeys_ret {A} (a : A) : obeys R P (ret a).
Proof. intros s. split; [apply frame_refl | constructor]. Qed.

Lemma obeys_get : obeys R P get.
Proof. intros s. split; [apply frame_refl | constructor]. Qed.

Lemma obeys_throw {A} (e : exception) : obeys R P (throw (A := A) e).
Proof. intros s. split; [apply frame_refl | constructor]. Qed.

Lemma obeys_undefined {A} : obeys R P (undefined (A := A)).
Proof. intros s. split; [apply frame_refl | constructor]. Qed.

Lemma obeys_out_of_fuel {A} : obeys R P (out_of_fuel (A := A)).
Proof. intros s. split; [apply frame_refl | constructor]. Qed.

Lemma obeys_modify (f : State C -> State C) :
  (forall s, R s (f s)) -> obeys R P (modify f).
Proof. intros H s. split; [apply H | constructor]. Qed.

Lemma obeys_call_r {A} (c : exception + A -> Call C)
    (f : Ext C -> (exception + A) * Ext C) :
  (forall r, P (c r)) -> obeys R P (call_r c f).
Proof.
  intros H s. unfold call_r. destruct (f (ext s)) as [r e']. simpl.
  split; [apply frame_ext | repeat constructor; apply H].
Qed.

Lemma obeys_call {A} (c : Call C) (f : Ext C -> (exception + A) * Ext C) :
  P c -> obeys R P (call c f).
Proof. intros H. apply obeys_call_r. intros _. exact H. Qed.

Lemma obeys_call_total {A} (c : Call C) (f : Ext C -> A * Ext C) :
  P c -> obeys R P (call_total c f).
Proof.
  intros H s. unfold call_total. destruct (f (ext s)) as [r e']. simpl.
  split; [apply frame_ext | repeat constructor; exact H].
Qed.

Lemma obeys_bind {A B} (m : M C A) (k : A -> M C B) :
  obeys R P m -> (forall a, obeys R P (k a)) -> obeys R P (bind m k).
Proof.
  intros Hm Hk s. destruct (Hm s) as [Hr He]. unfold bind.
  destruct (outcome (m s)) as [a| | |]; simpl; auto.
  destruct (Hk a (final (m s))) as [Hr' He']. split.
  - eapply frame_trans; eassumption.
  - apply Forall_app; auto.
Qed.

Lemma obeys_try_catch_all {A} (m h : M C A) :
  obeys R P m -> obeys R P h -> obeys R P (try_catch_all m h).
Proof.
  intros Hm Hh s. destruct (Hm s) as [Hr He]. unfold try_catch_all.
  destruct (outcome (m s)) as [a|e| |]; simpl; auto.
  destruct (Hh (final (m s))) as [Hr' He']. split.
  - eapply frame_trans; eassumption.
  - apply Forall_app; auto.
Qed.

Lemma obeys_try_catch_bad_alloc {A} (m h1 h2 : M C A) :
  obeys R P m -> obeys R P h1 -> obeys R P h2 ->
  obeys R P (try_catch_bad_alloc m h1 h2).
Proof.
  intros Hm H1 H2 s. destruct (Hm s) as [Hr He]. unfold try_catch_bad_alloc.
  destruct (outcome (m s)) as [a|e| |]; simpl; auto.
  assert (Hh : obeys R P (match e with bad_alloc => h1 | _ => h2 end))
    by (destruct e; assumption).
  destruct (Hh (final (m s))) as [Hr' He']. split.
  - eapply frame_trans; eassumption.
  - apply Forall_app; auto.
Qed.

Lemma obeys_try_or_return_internal (body : M C unit) :
  obeys R P body -> obeys R P (try_or_return_internal body).
Proof.
  intros H. unfold try_or_return_internal.
  apply obeys_try_catch_all; [apply obeys_bind; [exact H | intros _] |];
    apply obeys_ret.
Qed.

Lemma obeys_unless_returned (m k : M C (option ZT1_ResultCode)) :
  obeys R P m -> obeys R P k -> obeys R P (unless_returned m k).
Proof.
  intros Hm Hk. unfold unless_returned. apply obeys_bind; [exact Hm |].
  intros [rc|]; [apply obeys_ret | exact Hk].
Qed.

End Frames.

(** [apply], then the premises that are class instances. *)
Tactic Notation "fapply" uconstr(l) := (apply l; try exact _).

(** Goals [obeys R P m] by following the shape of [m]. *)
Ltac obeys_step :=
  match goal with
  | |- obeys _ _ (ret _) => fapply obeys_ret
  | |- obeys _ _ get => fapply obeys_get
  | |- obeys _ _ (throw _) => fapply obeys_throw
  | |- obeys _ _ undefined => fapply obeys_undefined
  | |- obeys _ _ out_of_fuel => fapply obeys_out_of_fuel
  | |- obeys _ _ (bind _ _) => fapply obeys_bind; [| intros ?]
  | |- obeys _ _ (try_or_return_internal _) => fapply obeys_try_or_return_internal
  | |- obeys _ _ (unless_returned _ _) => fapply obeys_unless_returned
  | |- obeys _ _ (try_catch_all _ _) => fapply obeys_try_catch_all
  | |- obeys _ _ (try_catch_bad_alloc _ _ _) => fapply obeys_try_catch_bad_alloc
  | |- obeys _ _ (call _ _) => fapply obeys_call
  | |- obeys _ _ (call_r _ _) => fapply obeys_call_r; intros ?
  | |- obeys _ _ (call_total _ _) => fapply obeys_call_total
  | |- obeys _ _ (modify _) => fapply obeys_modify
  | |- obeys _ _ (if ?b then _ else _) => destruct b
  | |- obeys _ _ (match ?x with _ => _ end) => destruct x
  | |- obeys _ _ (let _ := _ in _) => cbv zeta
  end.

Ltac obeys_auto := repeat obeys_step.

Section FrameInstances.

Context {C : Collaborators}.

Lemma keeps_frame {X} (f : State C -> X) :
  (forall e s, f (set_ext e s) = f s) -> Frame (keeps f).
Proof.
  intros H. split; unfold keeps.
  - reflexivity.
  - intros s1 s2 s3 H12 H23. congruence.
  - exact H.
Qed.

#[global] Instance keeps_networks : Frame (keeps (@_networks C)).
Proof. apply keeps_frame. reflexivity. Qed.

#[global] Instance keeps_newestVersionSeen : Frame (keeps (@_newestVersionSeen C)).
Proof. apply keeps_frame. reflexivity. Qed.

#[global] Instance keeps_startTimeAfterInactivity :
  Frame (keeps (@_startTimeAfterInactivity C)).
Proof. apply keeps_frame. reflexivity. Qed.

#[global] Instance keeps_coreDesperation : Frame (keeps (@_coreDesperation C)).
Proof. apply keeps_frame. reflexivity. Qed.

#[global] Instance keeps_lastPingCheck : Frame (keeps (@_lastPingCheck C)).
Proof. apply keeps_frame. reflexivity. Qed.

#[global] Instance keeps_lastHousekeepingRun :
  Frame (keeps (@_lastHousekeepingRun C)).
Proof. apply keeps_frame. reflexivity. Qed.

#[global] Instance keeps_identity : Frame (keeps (@RR_identity C)).
Proof. apply keeps_frame. reflexivity. Qed.

Lemma only_internal_ret_None : only_internal (C := C) (ret None).
Proof. intros s rc H. discriminate H. Qed.

Lemma only_internal_bind {A} (m : M C A) (k : A -> M C (option ZT1_ResultCode)) :
  (forall a, only_internal (k a)) -> only_internal (bind m k).
Proof.
  intros Hk s rc H. destruct (bind_Returned _ _ _ _ H) as (a & _ & H2 & _).
  exact (Hk a _ _ H2).
Qed.

Lemma never_throws_bind {A B} (m : M C A) (k : A -> M C B) :
  never_throws m -> (forall a, never_throws (k a)) -> never_throws (bind m k).
Proof.
  intros Hm Hk s e. unfold bind.
  destruct (outcome (m s)) as [a|e'| |] eqn:H1; simpl; try congruence.
  - apply Hk.
  - intros _. exact (Hm s e' H1).
Qed.

Lemma never_throws_ret {A} (a : A) : never_throws (C := C) (ret a).
Proof. intros s e H. discriminate H. Qed.

Lemma never_throws_get : never_throws (C := C) get.
Proof. intros s e H. discriminate H. Qed.

Lemma never_throws_modify (f : State C -> State C) : never_throws (modify f).
Proof. intros s e H. discriminate H. Qed.

End FrameInstances.

(** ** The background-task engine *)

Section BackgroundTasks.

Context (K : Constants) {C : Collaborators}.

Lemma pingCheck_only_internal now : only_internal (pingCheck K (C := C) now).
Proof.
  unfold pingCheck. do 3 (apply only_internal_bind; intros ?).
  apply only_internal_unless; apply only_internal_try.
Qed.

Lemma pingCheck_never_throws now : never_throws (pingCheck K (C := C) now).
Proof.
  unfold pingCheck.
  apply never_throws_bind; [apply never_throws_modify | intros _].
  apply never_throws_bind; [apply never_throws_get | intros s].
  apply never_throws_bind.
  - destruct (_ <? _); [apply never_throws_modify | apply never_throws_ret].
  - intros _. apply never_throws_unless; apply never_throws_try.
Qed.

Lemma pingCheckIfDue_only_internal now :
  only_internal (pingCheckIfDue K (C := C) now).
Proof.
  unfold pingCheckIfDue. apply only_internal_bind. intros s.
  destruct (_ <=? _); [apply pingCheck_only_internal | apply only_internal_ret_None].
Qed.

Lemma pingCheckIfDue_never_throws now :
  never_throws (pingCheckIfDue K (C := C) now).
Proof.
  unfold pingCheckIfDue. apply never_throws_bind; [apply never_throws_get |].
  intros s. destruct (_ <=? _); [apply pingCheck_never_throws | apply never_throws_ret].
Qed.

Lemma housekeeping_only_internal now : only_internal (housekeeping (C := C) now).
Proof.
  unfold housekeeping. apply only_internal_bind. intros _.
  apply only_internal_unless; apply only_internal_try.
Qed.

Lemma housekeeping_never_throws now : never_throws (housekeeping (C := C) now).
Proof.
  unfold housekeeping.
  apply never_throws_bind; [apply never_throws_modify | intros _].
  apply never_throws_unless; apply never_throws_try.
Qed.

Lemma housekeepingIfDue_only_internal now :
  only_internal (housekeepingIfDue K (C := C) now).
Proof.
  unfold housekeepingIfDue. apply only_internal_bind. intros s.
  destruct (_ <=? _); [apply housekeeping_only_internal | apply only_internal_ret_None].
Qed.

Lemma housekeepingIfDue_never_throws now :
  never_throws (housekeepingIfDue K (C := C) now).
Proof.
  unfold housekeepingIfDue. apply never_throws_bind; [apply never_throws_get |].
  intros s. destruct (_ <=? _); [apply housekeeping_never_throws | apply never_throws_ret].
Qed.

(** The three stages of a tick, after the clock has been advanced. *)
Lemma stages_only_internal now : only_internal (tick_stages (C := C) K now).
Proof.
  apply only_internal_unless; [apply pingCheckIfDue_only_internal |].
  apply only_internal_unless; [apply housekeepingIfDue_only_internal |].
  apply only_internal_try.
Qed.

Lemma stages_never_throw now : never_throws (tick_stages (C := C) K now).
Proof.
  apply never_throws_unless; [apply pingCheckIfDue_never_throws |].
  apply never_throws_unless; [apply housekeepingIfDue_never_throws |].
  apply never_throws_try.
Qed.

Lemma processBackgroundTasks_unfold now (s : State C) :
  outcome (processBackgroundTasks K now s)
  = match outcome (tick_stages K now (set_now now s)) with
    | Returned (Some rc) => Returned rc
    | Returned None => Returned ZT1_RESULT_OK
    | Threw e => Threw e
    | Undefined => Undefined
    | OutOfFuel => OutOfFuel
    end /\
  final (processBackgroundTasks K now s) = final (tick_stages K now (set_now now s)) /\
  emitted (processBackgroundTasks K now s)
  = emitted (tick_stages K now (set_now now s)).
Proof.
  unfold processBackgroundTasks. fold (tick_stages (C := C) K now).
  unfold bind, modify. cbn [outcome final emitted app].
  destruct (outcome (tick_stages K now (set_now now s))) as [[rc|]| | |];
    cbn [ret outcome final emitted]; rewrite ?app_nil_r; auto.
Qed.

(** A tick returns OK or the internal error, when it returns. *)
Lemma processBackgroundTasks_codes now (s : State C) rc :
  outcome (processBackgroundTasks K now s) = Returned rc ->
  rc = ZT1_RESULT_OK \/ rc = ZT1_RESULT_FATAL_ERROR_INTERNAL.
Proof.
  destruct (processBackgroundTasks_unfold now s) as (Ho & _). rewrite Ho.
  destruct (outcome (tick_stages _ _ _)) as [[rc'|]| | |] eqn:Hs; intros H;
    try discriminate.
  - right. injection H as <-. exact (stages_only_internal now _ _ Hs).
  - left. congruence.
Qed.

Lemma processBackgroundTasks_never_throws now :
  never_throws (processBackgroundTasks K (C := C) now).
Proof.
  intros s e. destruct (processBackgroundTasks_unfold now s) as (Ho & _).
  rewrite Ho.
  destruct (outcome (tick_stages _ _ _)) as [[rc'|]| | |] eqn:Hs; try discriminate.
  intros _. exact (stages_never_throw now _ _ Hs).
Qed.

(** When a tick returns OK every stage fell through, the last one
    included. *)
Lemma processBackgroundTasks_OK now (s : State C) :
  outcome (processBackgroundTasks K now s) = Returned ZT1_RESULT_OK ->
  exists s1 s2,
    let r1 := pingCheckIfDue K now (set_now now s) in
    let r2 := housekeepingIfDue K now s1 in
    let r3 := computeDeadline K now s2 in
    outcome r1 = Returned None /\ s1 = final r1 /\
    outcome r2 = Returned None /\ s2 = final r2 /\
    outcome r3 = Returned None /\
    final (processBackgroundTasks K now s) = final r3 /\
    emitted (processBackgroundTasks K now s)
    = emitted r1 ++ emitted r2 ++ emitted r3.
Proof.
  destruct (processBackgroundTasks_unfold now s) as (Ho & Hf & He).
  rewrite Ho, Hf, He.
  destruct (outcome (tick_stages _ _ _)) as [[rc'|]| | |] eqn:Hs; intros H;
    try discriminate.
  - injection H as ->. pose proof (stages_only_internal now _ _ Hs). discriminate.
  - unfold tick_stages in *.
    destruct (unless_returned_None _ _ _ Hs) as (H1 & H23 & Hf1 & He1).
    destruct (unless_returned_None _ _ _ H23) as (H2 & H3 & Hf2 & He2).
    eexists _, _. cbv zeta.
    repeat split; try reflexivity; try eassumption.
    + rewrite Hf1, Hf2. reflexivity.
    + rewrite He1, He2. reflexivity.
Qed.

Lemma computeDeadline_None now (s : State C) :
  outcome (computeDeadline K now s) = Returned None ->
  exists interval e',
    sw_doTimerTasks C now (ext s) = (inr interval, e') /\
    final (computeDeadline K now s)
    = set_nextBackgroundTaskDeadline
        (u64 (now + Z.max (Z.min (ZT_PING_CHECK_INVERVAL K) interval)
                          (ZT_CORE_TIMER_TASK_GRANULARITY K)))
        (set_ext e' s) /\
    emitted (computeDeadline K now s) = [CallDoTimerTasks now (inr interval)].
Proof.
  unfold computeDeadline, try_or_return_internal, try_catch_all, bind, call_r.
  destruct (sw_doTimerTasks C now (ext s)) as [[x|interval] e']; simpl.
  - discriminate.
  - intros _. eauto.
Qed.

Lemma clamp_max_min x lo hi :
  lo <= hi -> Z.max (Z.min hi x) lo = clamp x lo hi.
Proof. intros H. unfold clamp. repeat case_match; lia. Qed.

Lemma clamp_bounds x lo hi : lo <= hi -> lo <= clamp x lo hi <= hi.
Proof. intros H. unfold clamp. repeat case_match; lia. Qed.


End BackgroundTasks.


#[global] Hint Extern 1 (Tolerates (keeps _) _) =>
  (intros ? ?; reflexivity) : typeclass_instances.

(** ** What the stages of a tick leave alone *)

Section TickFrames.

Context (K : Constants) {C : Collaborators}.
Context (R : State C -> State C -> Prop) `{!Frame R} (P : Call C -> Prop).

Lemma eachPeer_obeys sn now peers lr :
  (forall c, is_pingCheck_call c = true -> P c) ->
  obeys R P (eachPeer sn now peers lr).
Proof.
  intros HP. revert lr. induction peers as [|p peers IH]; intros lr; simpl.
  - fapply obeys_ret.
  - fapply obeys_bind; [| intros ?; apply IH].
    unfold _PingPeersThatNeedPing_call. obeys_auto; apply HP; reflexivity.
Qed.

Lemma _PingPeersThatNeedPing_obeys now :
  (forall c, is_pingCheck_call c = true -> P c) ->
  obeys R P (_PingPeersThatNeedPing now).
Proof.
  intros HP. unfold _PingPeersThatNeedPing.
  fapply obeys_bind; [fapply obeys_get | intros s]. fapply eachPeer_obeys; apply HP.
Qed.

Lemma requestConfigurations_obeys now l :
  (forall c, is_pingCheck_call c = true -> P c) ->
  obeys R P (requestConfigurations K now l).
Proof.
  intros HP. induction l as [|[nwid [nw|]] l IH]; simpl.
  - fapply obeys_ret.
  - obeys_auto; try apply IH. apply HP; reflexivity.
  - fapply obeys_undefined.
Qed.

Lemma pingCheck_obeys now :
  Tolerates R set_lastPingCheck ->
  Tolerates R set_startTimeAfterInactivity ->
  Tolerates R set_coreDesperation ->
  (forall c, is_pingCheck_call c = true -> P c) ->
  obeys R P (pingCheck K now).
Proof.
  intros T1 T2 T3 HP. unfold pingCheck.
  fapply obeys_bind; [fapply obeys_modify; apply T1 | intros _].
  fapply obeys_bind; [fapply obeys_get | intros s].
  fapply obeys_bind; [destruct (_ <? _); [fapply obeys_modify; apply T2 | fapply obeys_ret] |].
  intros _. fapply obeys_unless_returned; fapply obeys_try_or_return_internal.
  - fapply obeys_bind; [fapply _PingPeersThatNeedPing_obeys; apply HP | intros lr].
    fapply obeys_bind; [fapply obeys_get | intros s']. fapply obeys_modify; apply T3.
  - fapply obeys_bind; [fapply obeys_get | intros s'].
    fapply requestConfigurations_obeys; apply HP.
Qed.

Lemma pingCheckIfDue_obeys now :
  Tolerates R set_lastPingCheck ->
  Tolerates R set_startTimeAfterInactivity ->
  Tolerates R set_coreDesperation ->
  (forall c, is_pingCheck_call c = true -> P c) ->
  obeys R P (pingCheckIfDue K now).
Proof.
  intros T1 T2 T3 HP. unfold pingCheckIfDue.
  fapply obeys_bind; [fapply obeys_get | intros s].
  destruct (_ <=? _); [fapply pingCheck_obeys; assumption | fapply obeys_ret].
Qed.

Lemma housekeeping_obeys now :
  Tolerates R set_lastHousekeepingRun ->
  (forall c, is_housekeeping_call c = true -> P c) ->
  obeys R P (housekeeping now).
Proof.
  intros T HP. unfold housekeeping.
  fapply obeys_bind; [fapply obeys_modify; apply T | intros _].
  fapply obeys_unless_returned; fapply obeys_try_or_return_internal;
    fapply obeys_call; apply HP; reflexivity.
Qed.

Lemma housekeepingIfDue_obeys now :
  Tolerates R set_lastHousekeepingRun ->
  (forall c, is_housekeeping_call c = true -> P c) ->
  obeys R P (housekeepingIfDue K now).
Proof.
  intros T HP. unfold housekeepingIfDue.
  fapply obeys_bind; [fapply obeys_get | intros s].
  destruct (_ <=? _); [fapply housekeeping_obeys; assumption | fapply obeys_ret].
Qed.

Lemma computeDeadline_obeys now :
  Tolerates R set_nextBackgroundTaskDeadline ->
  (forall c, is_doTimerTasks c = true -> P c) ->
  obeys R P (computeDeadline K now).
Proof.
  intros T HP. unfold computeDeadline. fapply obeys_try_or_return_internal.
  fapply obeys_bind; [fapply obeys_call_r; intros r; apply HP; reflexivity |].
  intros interval. fapply obeys_modify; apply T.
Qed.

Lemma processBackgroundTasks_obeys now :
  Tolerates R set_now ->
  Tolerates R set_lastPingCheck ->
  Tolerates R set_startTimeAfterInactivity ->
  Tolerates R set_coreDesperation ->
  Tolerates R set_lastHousekeepingRun ->
  Tolerates R set_nextBackgroundTaskDeadline ->
  (forall c, is_tick_call c = true -> P c) ->
  obeys R P (processBackgroundTasks K now).
Proof.
  intros T0 T1 T2 T3 T4 T5 HP. unfold processBackgroundTasks.
  fapply obeys_bind; [fapply obeys_modify; apply T0 | intros _].
  fapply obeys_bind.
  - fapply obeys_unless_returned; [| fapply obeys_unless_returned].
    + fapply pingCheckIfDue_obeys; try assumption.
      intros c Hc. apply HP. unfold is_tick_call. rewrite Hc. reflexivity.
    + fapply housekeepingIfDue_obeys; try assumption.
      intros c Hc. apply HP. unfold is_tick_call. rewrite Hc.
      apply orb_true_iff. left. apply orb_true_r.
    + fapply computeDeadline_obeys; try assumption.
      intros c Hc. apply HP. unfold is_tick_call. rewrite Hc. apply orb_true_r.
  - intros [rc|]; fapply obeys_ret.
Qed.

End TickFrames.

(** ** Desperation *)

Section Desperation.

Context (K : Constants) {C : Collaborators}.

Lemma result_eta {A} (r : Result C A) :
  mkResult (outcome r) (final r) (emitted r) = r.
Proof. destruct r. reflexivity. Qed.

(** For a field that the rest of the function leaves alone, the value at
    the end is the value after the first part. *)
Lemma unless_returned_keeps {X} (f : State C -> X) (m k : M C (option ZT1_ResultCode))
    (s : State C) :
  obeys (keeps f) any_call k ->
  f (final (unless_returned m k s)) = f (final (m s)).
Proof.
  intros Hk. unfold unless_returned, bind.
  destruct (outcome (m s)) as [[rc|]| | |]; simpl; try reflexivity.
  apply (Hk (final (m s))).
Qed.

Lemma pingCheck_unfold now (s : State C) :
  pingCheck K now s
  = unless_returned
      (try_or_return_internal
         (do lastReceiveFromSupernode <- _PingPeersThatNeedPing now;
          do s <- get;
          modify (set_coreDesperation
            (u32 (u64 (now - Z.max (_startTimeAfterInactivity s)
                                   lastReceiveFromSupernode)
                  / (ZT_PING_CHECK_INVERVAL K * ZT_CORE_DESPERATION_INCREMENT K))))))
      (try_or_return_internal
         (do s <- get;
          requestConfigurations K now (networks_in_order (_networks s))))
      (set_startTimeAfterInactivity (advanced_start K now s)
         (set_lastPingCheck now s)).
Proof.
  unfold pingCheck. set (rest := unless_returned _ _).
  unfold bind, modify, get, advanced_start.
  cbn [outcome final emitted app _startTimeAfterInactivity set_lastPingCheck].
  destruct (_ <? _); cbn [outcome final emitted app ret].
  - apply result_eta.
  - destruct s; apply result_eta.
Qed.

(** The first [try] block of the subroutine when the iteration over the
    peers returns. *)
Lemma desperation_block now (s : State C) lr :
  outcome (_PingPeersThatNeedPing now s) = Returned lr ->
  let body :=
    (do lastReceiveFromSupernode <- _PingPeersThatNeedPing now;
     do s <- get;
     modify (set_coreDesperation
       (u32 (u64 (now - Z.max (_startTimeAfterInactivity s)
                              lastReceiveFromSupernode)
             / (ZT_PING_CHECK_INVERVAL K * ZT_CORE_DESPERATION_INCREMENT K))))) in
  outcome (try_or_return_internal body s) = Returned None /\
  _coreDesperation (final (try_or_return_internal body s))
  = u32 (u64 (now - Z.max (_startTimeAfterInactivity s) lr)
         / (ZT_PING_CHECK_INVERVAL K * ZT_CORE_DESPERATION_INCREMENT K)) /\
  _startTimeAfterInactivity (final (try_or_return_internal body s))
  = _startTimeAfterInactivity s.
Proof.
  intros Hp body.
  assert (Hk : _startTimeAfterInactivity (final (_PingPeersThatNeedPing now s))
               = _startTimeAfterInactivity s).
  { fapply (_PingPeersThatNeedPing_obeys (keeps _startTimeAfterInactivity) any_call).
    intros; exact I. }
  destruct (try_or_return_internal_outcome body s) as (Ho & Hf & _).
  rewrite Hf. subst body.
  destruct (bind_step _
    (fun lastReceiveFromSupernode =>
       do s <- get;
       modify (set_coreDesperation
         (u32 (u64 (now - Z.max (_startTimeAfterInactivity s)
                                lastReceiveFromSupernode)
               / (ZT_PING_CHECK_INVERVAL K * ZT_CORE_DESPERATION_INCREMENT K)))))
    s lr Hp) as (Ho' & Hf' & _).
  rewrite Ho' in Ho. rewrite Hf'. unfold bind, get, modify in Ho |- *.
  cbn [outcome final emitted _coreDesperation set_coreDesperation
       _startTimeAfterInactivity] in Ho |- *.
  rewrite Hk. auto.
Qed.

Lemma rest_of_tick_keeps {X} (f : State C -> X) now :
  Frame (keeps f) ->
  Tolerates (keeps f) set_lastHousekeepingRun ->
  Tolerates (keeps f) set_nextBackgroundTaskDeadline ->
  obeys (keeps f) any_call
    (unless_returned (housekeepingIfDue K now) (computeDeadline K now)).
Proof.
  intros HF T1 T2. fapply obeys_unless_returned.
  - fapply housekeepingIfDue_obeys. intros; exact I.
  - fapply computeDeadline_obeys. intros; exact I.
Qed.

Lemma pingCheckIfDue_due now (s : State C) :
  ZT_PING_CHECK_INVERVAL K <= u64 (now - _lastPingCheck s) ->
  final (pingCheckIfDue K now s) = final (pingCheck K now s) /\
  emitted (pingCheckIfDue K now s) = emitted (pingCheck K now s) /\
  outcome (pingCheckIfDue K now s) = outcome (pingCheck K now s).
Proof.
  intros Hgate. unfold pingCheckIfDue, bind, get. cbn [outcome final emitted app].
  apply Z.leb_le in Hgate. rewrite Hgate. auto.
Qed.

Lemma pingCheckIfDue_not_due now (s : State C) :
  u64 (now - _lastPingCheck s) < ZT_PING_CHECK_INVERVAL K ->
  final (pingCheckIfDue K now s) = s /\
  emitted (pingCheckIfDue K now s) = [] /\
  outcome (pingCheckIfDue K now s) = Returned None.
Proof.
  intros Hgate. unfold pingCheckIfDue, bind, get. cbn [outcome final emitted app].
  apply Z.leb_gt in Hgate. rewrite Hgate. auto.
Qed.

(** The fields written by the peer-liveness subroutine, at the end of a
    tick in which it ran, are those at the end of its first [try] block. *)
Lemma tick_pingCheck_field {X} (f : State C -> X) now (s : State C) :
  Frame (keeps f) ->
  Tolerates (keeps f) set_lastHousekeepingRun ->
  Tolerates (keeps f) set_nextBackgroundTaskDeadline ->
  ZT_PING_CHECK_INVERVAL K <= u64 (now - _lastPingCheck s) ->
  f (final (processBackgroundTasks K now s))
  = f (final
      (try_or_return_internal
         (do lastReceiveFromSupernode <- _PingPeersThatNeedPing now;
          do s <- get;
          modify (set_coreDesperation
            (u32 (u64 (now - Z.max (_startTimeAfterInactivity s)
                                   lastReceiveFromSupernode)
                  / (ZT_PING_CHECK_INVERVAL K * ZT_CORE_DESPERATION_INCREMENT K)))))
         (before_peers K now s))).
Proof.
  intros HF T1 T2 Hgate.
  destruct (processBackgroundTasks_unfold K now s) as (_ & -> & _).
  unfold tick_stages.
  rewrite (unless_returned_keeps f) by (apply rest_of_tick_keeps; assumption).
  destruct (pingCheckIfDue_due now (set_now now s) Hgate) as (-> & _).
  rewrite pingCheck_unfold.
  rewrite (unless_returned_keeps f).
  - reflexivity.
  - fapply obeys_try_or_return_internal.
    fapply obeys_bind; [fapply obeys_get | intros s'].
    fapply requestConfigurations_obeys. intros; exact I.
Qed.

Lemma call_outcome {A} (c : Call C) (f : Ext C -> (exception + A) * Ext C)
    (s : State C) :
  outcome (call c f s)
  = match (f (ext s)).1 with inl x => Threw x | inr a => Returned a end.
Proof. unfold call, call_r. destruct (f (ext s)). reflexivity. Qed.

Lemma call_final {A} (c : Call C) (f : Ext C -> (exception + A) * Ext C)
    (s : State C) :
  final (call c f s) = set_ext (f (ext s)).2 s.
Proof. unfold call, call_r. destruct (f (ext s)). reflexivity. Qed.

Lemma call_emitted {A} (c : Call C) (f : Ext C -> (exception + A) * Ext C)
    (s : State C) :
  emitted (call c f s) = [c].
Proof. unfold call, call_r. destruct (f (ext s)). reflexivity. Qed.

(** One visit of the functor: the collaborators' state afterwards, and
    the member when the visit returns. *)
Lemma _PingPeersThatNeedPing_call_spec sn now (p : Peer C) lr0 (s : State C) :
  let e' := (peer_doPingAndKeepalive C p now (ext s)).2 in
  (ext (final (_PingPeersThatNeedPing_call sn now p lr0 s)) = ext s \/
   ext (final (_PingPeersThatNeedPing_call sn now p lr0 s)) = e') /\
  forall lr1,
    outcome (_PingPeersThatNeedPing_call sn now p lr0 s) = Returned lr1 ->
    lr1 = if bool_decide (peer_address C p ∈ sn)
          then Z.max lr0 (peer_lastReceive C p e') else lr0.
Proof.
  unfold _PingPeersThatNeedPing_call.
  destruct (bool_decide (peer_address C p ∈ sn)).
  - unfold bind. rewrite call_outcome, call_final.
    destruct (peer_doPingAndKeepalive C p now (ext s)) as [[x|[]] e']; cbn.
    + split; [auto | discriminate].
    + split; [auto |]. intros lr1 H. simplify_eq.
      destruct (lr0 <? _) eqn:Hlt; [apply Z.ltb_lt in Hlt | apply Z.ltb_ge in Hlt]; lia.
  - unfold bind, get. cbn [outcome final emitted].
    destruct (peer_alive C p now (ext s)).
    + rewrite call_outcome, call_final.
      destruct (peer_doPingAndKeepalive C p now (ext s)) as [[x|[]] e']; cbn.
      * split; [auto | discriminate].
      * split; [auto |]. intros lr1 H. congruence.
    + cbn. split; [auto |]. intros lr1 H. congruence.
Qed.

Lemma eachPeer_max sn now (g : Peer C -> Z) :
  pings_keep_lastReceive C ->
  forall peers lr0 (s : State C) lr,
    (forall q, peer_lastReceive C q (ext s) = g q) ->
    outcome (eachPeer sn now peers lr0 s) = Returned lr ->
    lr = fold_left Z.max
           (map g (filter (fun p => peer_address C p ∈ sn) peers)) lr0.
Proof.
  intros Hkeep. induction peers as [|p peers IH]; intros lr0 s lr Hg H.
  - cbn in H. injection H as <-. reflexivity.
  - cbn [eachPeer] in H.
    destruct (bind_Returned _ _ _ _ H) as (lr1 & H1 & H2 & _).
    destruct (_PingPeersThatNeedPing_call_spec sn now p lr0 s) as (He & Hlr).
    assert (Hg' : forall q,
      peer_lastReceive C q (ext (final (_PingPeersThatNeedPing_call sn now p lr0 s)))
      = g q).
    { intros q. rewrite <- Hg. destruct He as [-> | ->]; [reflexivity | apply Hkeep]. }
    rewrite (IH lr1 _ lr Hg' H2), (Hlr lr1 H1). rewrite filter_cons.
    destruct (decide (peer_address C p ∈ sn)) as [Hin|Hin].
    + rewrite bool_decide_eq_true_2 by exact Hin.
      cbn [map fold_left]. rewrite Hkeep, Hg. reflexivity.
    + rewrite bool_decide_eq_false_2 by exact Hin. reflexivity.
Qed.

Lemma _PingPeersThatNeedPing_max now (s : State C) lr :
  pings_keep_lastReceive C ->
  outcome (_PingPeersThatNeedPing now s) = Returned lr ->
  lr = maxSupernodeLastReceive s.
Proof.
  intros Hkeep H. unfold _PingPeersThatNeedPing, bind, get in H.
  cbn [outcome final emitted] in H. unfold maxSupernodeLastReceive.
  eapply eachPeer_max; [exact Hkeep | reflexivity | exact H].
Qed.


End Desperation.



(** ** Frames of the remaining entry points *)

Section ApiFrames.

Context (K : Constants) {C : Collaborators}.
Context (R : State C -> State C -> Prop) `{!Frame R} (P : Call C -> Prop).

Lemma obeys_weaken {A} (R' : State C -> State C -> Prop) (P' : Call C -> Prop)
    (m : M C A) :
  (forall s s', R' s s' -> R s s') -> (forall c, P' c -> P c) ->
  obeys R' P' m -> obeys R P m.
Proof.
  intros HR HP Hm s. destruct (Hm s) as [H1 H2]. split; [auto |].
  eapply Forall_impl; eassumption.
Qed.

Lemma postEvent_obeys ev : P (CallStatus ev) -> obeys R P (postEvent ev).
Proof. intros H. unfold postEvent. fapply obeys_call_total. exact H. Qed.

Lemma dataStorePut_obeys name data secure :
  (forall ok, P (CallDataStorePut name data secure ok)) ->
  obeys R P (dataStorePut name data secure).
Proof.
  intros H s. unfold dataStorePut.
  destruct (dataStorePutFunction C name data secure (ext s)) as [ok e']. simpl.
  split; [apply frame_ext | repeat constructor; apply H].
Qed.

Lemma dataStoreGet_loop_obeys fuel name r :
  (forall i, P (CallDataStoreGet name i)) ->
  obeys R P (dataStoreGet_loop fuel name r).
Proof.
  intros H. revert r. induction fuel as [|fuel IH]; intros r; simpl.
  - fapply obeys_out_of_fuel.
  - fapply obeys_bind; [fapply obeys_call_total; apply H |].
    intros [[n buf] olen]. obeys_auto. apply IH.
Qed.

Lemma postNewerVersionIfNewer_obeys major minor rev :
  Tolerates R set_newestVersionSeen ->
  P (CallStatus ZT1_EVENT_SAW_MORE_RECENT_VERSION) ->
  obeys R P (postNewerVersionIfNewer major minor rev).
Proof.
  intros T H. unfold postNewerVersionIfNewer.
  fapply obeys_bind; [fapply obeys_get | intros s].
  destruct (_newestVersionSeen s) as [[m0 m1] m2]. destruct (_ <? _).
  - fapply obeys_bind; [fapply obeys_modify; apply T | intros _].
    fapply postEvent_obeys. exact H.
  - fapply obeys_ret.
Qed.

Lemma backgroundTasksIfDue_obeys now :
  Tolerates R set_now ->
  Tolerates R set_lastPingCheck ->
  Tolerates R set_startTimeAfterInactivity ->
  Tolerates R set_coreDesperation ->
  Tolerates R set_lastHousekeepingRun ->
  Tolerates R set_nextBackgroundTaskDeadline ->
  (forall c, is_tick_call c = true -> P c) ->
  obeys R P (backgroundTasksIfDue K now).
Proof.
  intros T0 T1 T2 T3 T4 T5 HP. unfold backgroundTasksIfDue.
  fapply obeys_bind; [fapply obeys_get | intros s]. destruct (_ <=? _).
  - fapply obeys_bind; [fapply processBackgroundTasks_obeys; assumption |].
    intros rc. fapply obeys_ret.
  - fapply obeys_bind; [fapply obeys_modify; apply T0 | intros _; fapply obeys_ret].
Qed.

Lemma multicastSubscribe_obeys nwid g a :
  (forall nw m i, P (CallNetworkMulticastSubscribe nw m i)) ->
  obeys R P (multicastSubscribe nwid g a).
Proof. intros H. unfold multicastSubscribe. obeys_auto. apply H. Qed.

Lemma multicastUnsubscribe_obeys nwid g a :
  (forall nw m i, P (CallNetworkMulticastUnsubscribe nw m i)) ->
  obeys R P (multicastUnsubscribe nwid g a).
Proof. intros H. unfold multicastUnsubscribe. obeys_auto. apply H. Qed.

Lemma networkConfig_obeys nwid :
  P CallMalloc -> (forall nw, P (CallNetworkExternalConfig nw)) ->
  obeys R P (networkConfig nwid).
Proof.
  intros Hm He. unfold networkConfig.
  fapply obeys_bind; [fapply obeys_get | intros s].
  destruct (_networks s !! nwid) as [entry|]; [| fapply obeys_ret].
  fapply obeys_bind; [fapply obeys_call_total; exact Hm | intros nc].
  destruct entry as [nw|]; [| fapply obeys_undefined].
  destruct nc; [| fapply obeys_undefined].
  fapply obeys_bind; [fapply obeys_call; apply He | intros cfg; fapply obeys_ret].
Qed.

End ApiFrames.

(** ** The network registry *)

Section Registry.

Context (K : Constants) {C : Collaborators}.

Lemma join_present nwid (s : State C) nw :
  _networks s !! nwid = Some (Some nw) ->
  join nwid s = mkResult (Returned ZT1_RESULT_OK) s [].
Proof.
  intros H. unfold join, bind, get, ret. cbn [outcome final emitted app].
  rewrite H. cbn [outcome final emitted app]. rewrite H. reflexivity.
Qed.

(** What [join] does when the entry is missing or null: the entry is
    there (null at first), the network is constructed, and the entry
    points to it unless the construction throws. *)
Lemma join_not_present nwid (s : State C) :
  (forall nw, _networks s !! nwid <> Some (Some nw)) ->
  let s0 := match _networks s !! nwid with
            | None => set_networks (<[nwid := None]> (_networks s)) s
            | Some _ => s
            end in
  emitted (join nwid s) = [CallNetworkNew nwid] /\
  match network_new C nwid (ext s) with
  | (inl x, e') =>
      outcome (join nwid s) = Threw x /\ final (join nwid s) = set_ext e' s0
  | (inr nw, e') =>
      outcome (join nwid s) = Returned ZT1_RESULT_OK /\
      final (join nwid s)
      = set_networks (<[nwid := Some nw]> (_networks s0)) (set_ext e' s0)
  end.
Proof.
  intros H. destruct (network_new C nwid (ext s)) as [r e'] eqn:En.
  unfold join, bind, get, ret, modify, call, call_r.
  cbn [outcome final emitted app].
  destruct (_networks s !! nwid) as [[nw|]|] eqn:E.
  - destruct (H nw eq_refl).
  - cbn [outcome final emitted app]. rewrite E, En.
    destruct r as [x|nw]; cbn; auto.
  - cbn [outcome final emitted app _networks set_networks ext].
    rewrite lookup_insert_eq.
    change (ext (set_networks (<[nwid:=None]> (_networks s)) s)) with (ext s).
    rewrite En. destruct r as [x|nw]; cbn; auto.
Qed.

Lemma join_returns nwid (s : State C) rc :
  outcome (join nwid s) = Returned rc ->
  rc = ZT1_RESULT_OK /\
  exists nw, _networks (final (join nwid s)) !! nwid = Some (Some nw).
Proof.
  destruct (_networks s !! nwid) as [[nw|]|] eqn:E.
  - rewrite (join_present _ _ _ E). cbn. intros H. split; [congruence | eauto].
  - destruct (join_not_present nwid s) as (_ & H); [congruence |].
    destruct (network_new C nwid (ext s)) as [[x|nw] e']; destruct H as (-> & ->).
    + discriminate.
    + intros H. split; [congruence |]. exists nw. cbn. apply lookup_insert_eq.
  - destruct (join_not_present nwid s) as (_ & H); [congruence |].
    destruct (network_new C nwid (ext s)) as [[x|nw] e']; destruct H as (-> & ->).
    + discriminate.
    + intros H. split; [congruence |]. exists nw. cbn. apply lookup_insert_eq.
Qed.

Lemma join_lookup_other nwid n (s : State C) :
  n <> nwid ->
  _networks (final (join n s)) !! nwid = _networks s !! nwid.
Proof.
  intros Hne. destruct (_networks s !! n) as [[nw|]|] eqn:E.
  - rewrite (join_present _ _ _ E). reflexivity.
  - destruct (join_not_present n s) as (_ & H); [congruence |]. rewrite E in H.
    destruct (network_new C n (ext s)) as [[x|nw] e']; destruct H as (_ & ->); cbn;
      rewrite ?lookup_insert_ne by exact Hne; reflexivity.
  - destruct (join_not_present n s) as (_ & H); [congruence |]. rewrite E in H.
    destruct (network_new C n (ext s)) as [[x|nw] e']; destruct H as (_ & ->); cbn;
      rewrite ?lookup_insert_ne by exact Hne; reflexivity.
Qed.

(** [leave]: nothing but the entry for [nwid] changes in the registry,
    and that entry is gone once [leave] has run to its end. *)
Lemma leave_spec nwid (s : State C) :
  match _networks s !! nwid with
  | Some (Some nw) =>
      emitted (leave nwid s) = [CallNetworkDestroy nw] /\
      match network_destroy C nw (ext s) with
      | (inl x, e') => outcome (leave nwid s) = Threw x /\ final (leave nwid s) = set_ext e' s
      | (inr _, e') =>
          outcome (leave nwid s) = Returned None /\
          final (leave nwid s) = set_networks (delete nwid (_networks s)) (set_ext e' s)
      end
  | Some None => outcome (leave nwid s) = Undefined /\ final (leave nwid s) = s
  | None => leave nwid s = mkResult (Returned None) s []
  end.
Proof.
  unfold leave, bind, get, ret, modify, call, call_r, undefined.
  cbn [outcome final emitted app].
  destruct (_networks s !! nwid) as [[nw|]|] eqn:E; cbn; auto.
  destruct (network_destroy C nw (ext s)) as [[x|[]] e']; cbn; auto.
Qed.

Lemma leave_returns nwid (s : State C) rc :
  outcome (leave nwid s) = Returned rc ->
  rc = None /\ _networks (final (leave nwid s)) !! nwid = None.
Proof.
  pose proof (leave_spec nwid s) as H.
  destruct (_networks s !! nwid) as [[nw|]|] eqn:E.
  - destruct H as (_ & H).
    destruct (network_destroy C nw (ext s)) as [[x|[]] e']; destruct H as (-> & ->).
    + discriminate.
    + intros H. split; [congruence |]. cbn. apply lookup_delete_eq.
  - destruct H as (-> & _). discriminate.
  - rewrite H. cbn. intros H'. split; [congruence | exact E].
Qed.

Lemma leave_lookup_other nwid n (s : State C) :
  n <> nwid ->
  _networks (final (leave n s)) !! nwid = _networks s !! nwid.
Proof.
  intros Hne. pose proof (leave_spec n s) as H.
  destruct (_networks s !! n) as [[nw|]|] eqn:E.
  - destruct H as (_ & H).
    destruct (network_destroy C nw (ext s)) as [[x|[]] e']; destruct H as (_ & ->); cbn;
      rewrite ?lookup_delete_ne by exact Hne; reflexivity.
  - destruct H as (_ & ->). reflexivity.
  - rewrite H. reflexivity.
Qed.

Lemma leave_absent_stays nwid n (s : State C) :
  absent_stays nwid s (final (leave n s)).
Proof.
  intros Habs. destruct (decide (n = nwid)) as [->|Hne].
  - pose proof (leave_spec nwid s) as H. rewrite Habs in H. rewrite H. exact Habs.
  - rewrite leave_lookup_other by exact Hne. exact Habs.
Qed.

Lemma join_joined_stays nwid n (s : State C) :
  joined_stays nwid s (final (join n s)).
Proof.
  intros nw Hnw. destruct (decide (n = nwid)) as [->|Hne].
  - rewrite (join_present _ _ _ Hnw). exact Hnw.
  - rewrite join_lookup_other by exact Hne. exact Hnw.
Qed.

#[global] Instance joined_stays_frame nwid : Frame (joined_stays (C := C) nwid).
Proof.
  split; unfold joined_stays.
  - auto.
  - intros s1 s2 s3 H12 H23 nw H. auto.
  - intros e s nw H. exact H.
Qed.

#[global] Instance absent_stays_frame nwid : Frame (absent_stays (C := C) nwid).
Proof.
  split; unfold absent_stays.
  - auto.
  - intros s1 s2 s3 H12 H23 H. auto.
  - intros e s H. exact H.
Qed.

Lemma try_catch_bad_alloc_ret_final {A} (m : M C A) (a b : A) (s : State C) :
  final (try_catch_bad_alloc m (ret a) (ret b) s) = final (m s) /\
  emitted (try_catch_bad_alloc m (ret a) (ret b) s) = emitted (m s).
Proof.
  unfold try_catch_bad_alloc. destruct (outcome (m s)) as [x|e| |]; auto.
  destruct e; cbn; rewrite app_nil_r; auto.
Qed.

Lemma bind_ret_final {A B} (m : M C A) (b : B) (s : State C) :
  final (bind m (fun _ => ret b) s) = final (m s) /\
  emitted (bind m (fun _ => ret b) s) = emitted (m s).
Proof.
  unfold bind. destruct (outcome (m s)); cbn; rewrite ?app_nil_r; auto.
Qed.

Lemma processWirePacket_obeys (R : State C -> State C -> Prop) `{!Frame R}
    (P : Call C -> Prop) now a d p :
  Tolerates R set_now ->
  Tolerates R set_lastPingCheck ->
  Tolerates R set_startTimeAfterInactivity ->
  Tolerates R set_coreDesperation ->
  Tolerates R set_lastHousekeepingRun ->
  Tolerates R set_nextBackgroundTaskDeadline ->
  (forall c, is_tick_call c = true -> P c) ->
  P (CallOnRemotePacket a d p) ->
  obeys R P (processWirePacket K now a d p).
Proof.
  intros T0 T1 T2 T3 T4 T5 HP Hc. unfold processWirePacket.
  fapply obeys_bind; [fapply backgroundTasksIfDue_obeys; assumption |].
  intros [rc|]; [fapply obeys_ret |].
  fapply obeys_bind; [fapply obeys_call; exact Hc | intros _; fapply obeys_ret].
Qed.

Lemma processVirtualNetworkFrame_obeys (R : State C -> State C -> Prop) `{!Frame R}
    (P : Call C -> Prop) now nwid sm dm et vl fd :
  Tolerates R set_now ->
  Tolerates R set_lastPingCheck ->
  Tolerates R set_startTimeAfterInactivity ->
  Tolerates R set_coreDesperation ->
  Tolerates R set_lastHousekeepingRun ->
  Tolerates R set_nextBackgroundTaskDeadline ->
  (forall c, is_tick_call c = true -> P c) ->
  (forall nw, P (CallOnLocalEthernet nw sm dm et vl fd)) ->
  obeys R P (processVirtualNetworkFrame K now nwid sm dm et vl fd).
Proof.
  intros T0 T1 T2 T3 T4 T5 HP Hc. unfold processVirtualNetworkFrame.
  fapply obeys_bind; [fapply backgroundTasksIfDue_obeys; assumption |].
  intros [rc|]; [fapply obeys_ret |].
  fapply obeys_bind.
  - fapply obeys_try_catch_all; [| fapply obeys_ret].
    unfold network. obeys_auto. apply Hc.
  - intros [rc|]; fapply obeys_ret.
Qed.

(** Every call but [join] and [leave] leaves the registry as it is. *)
Lemma exec_keeps_networks op :
  (forall n, op <> OpJoin n) -> (forall n, op <> OpLeave n) ->
  obeys (keeps _networks) any_call (exec K (C := C) op).
Proof.
  intros Hj Hl. destruct op; cbn [exec].
  - fapply obeys_bind; [| intros ?; fapply obeys_ret].
    fapply obeys_try_catch_bad_alloc; try fapply obeys_ret.
    fapply processWirePacket_obeys; intros; exact I.
  - fapply obeys_bind; [| intros ?; fapply obeys_ret].
    fapply obeys_try_catch_bad_alloc; try fapply obeys_ret.
    fapply processVirtualNetworkFrame_obeys; intros; exact I.
  - fapply obeys_bind; [| intros ?; fapply obeys_ret].
    fapply obeys_try_catch_bad_alloc; try fapply obeys_ret.
    fapply processBackgroundTasks_obeys; intros; exact I.
  - destruct (Hj nwid eq_refl).
  - destruct (Hl nwid eq_refl).
  - fapply obeys_bind; [| intros ?; fapply obeys_ret].
    fapply obeys_try_catch_bad_alloc; try fapply obeys_ret.
    fapply multicastSubscribe_obeys; intros; exact I.
  - fapply obeys_bind; [| intros ?; fapply obeys_ret].
    fapply obeys_try_catch_bad_alloc; try fapply obeys_ret.
    fapply multicastUnsubscribe_obeys; intros; exact I.
  - fapply obeys_bind; [| intros ?; fapply obeys_ret].
    fapply obeys_try_catch_all; [| fapply obeys_ret].
    fapply networkConfig_obeys; intros; exact I.
  - fapply postNewerVersionIfNewer_obeys. exact I.
  - fapply obeys_modify. intros s. reflexivity.
Qed.

Lemma exec_join_final n (s : State C) :
  final (exec K (OpJoin n) s) = final (join n s).
Proof.
  cbn [exec]. rewrite (proj1 (bind_ret_final _ _ _)).
  apply try_catch_bad_alloc_ret_final.
Qed.

Lemma exec_leave_final n (s : State C) :
  final (exec K (OpLeave n) s) = final (leave n s).
Proof.
  cbn [exec]. rewrite (proj1 (bind_ret_final _ _ _)).
  apply try_catch_bad_alloc_ret_final.
Qed.

Lemma exec_joined_stays nwid op (s : State C) :
  op <> OpLeave nwid -> joined_stays nwid s (final (exec K op s)).
Proof.
  intros Hop.
  destruct op as [| | |n|n| | | | |].
  4: { rewrite exec_join_final. apply join_joined_stays. }
  4: { rewrite exec_leave_final. intros nw H.
       rewrite leave_lookup_other; [exact H | congruence]. }
  all: intros nw H;
    match goal with
    | |- _networks (final (exec K ?op ?s0)) !! _ = _ =>
        assert (Hk : obeys (keeps _networks) any_call (exec K (C := C) op))
          by (apply exec_keeps_networks; discriminate);
        rewrite (proj1 (Hk s0))
    end;
    exact H.
Qed.

Lemma exec_absent_stays nwid op (s : State C) :
  op <> OpJoin nwid -> absent_stays nwid s (final (exec K op s)).
Proof.
  intros Hop.
  destruct op as [| | |n|n| | | | |].
  4: { rewrite exec_join_final. intros H.
       rewrite join_lookup_other; [exact H | congruence]. }
  4: { rewrite exec_leave_final. apply leave_absent_stays. }
  all: intros H;
    match goal with
    | |- _networks (final (exec K ?op ?s0)) !! _ = _ =>
        assert (Hk : obeys (keeps _networks) any_call (exec K (C := C) op))
          by (apply exec_keeps_networks; discriminate);
        rewrite (proj1 (Hk s0))
    end;
    exact H.
Qed.

Lemma run_cons op ops (s s' : State C) :
  run K (op :: ops) s = Some s' -> run K ops (final (exec K op s)) = Some s'.
Proof. cbn [run]. destruct (outcome (exec K op s)); congruence. Qed.

Lemma run_joined_stays nwid ops (s s' : State C) :
  Forall (fun op => op <> OpLeave nwid) ops ->
  run K ops s = Some s' -> joined_stays nwid s s'.
Proof.
  intros Hops. revert s. induction Hops as [|op ops Hop _ IH]; intros s H.
  - cbn in H. injection H as <-. apply frame_refl.
  - apply run_cons in H. eapply frame_trans; [| apply IH, H].
    apply exec_joined_stays, Hop.
Qed.

Lemma run_absent_stays nwid ops (s s' : State C) :
  Forall (fun op => op <> OpJoin nwid) ops ->
  run K ops s = Some s' -> absent_stays nwid s s'.
Proof.
  intros Hops. revert s. induction Hops as [|op ops Hop _ IH]; intros s H.
  - cbn in H. injection H as <-. apply frame_refl.
  - apply run_cons in H. eapply frame_trans; [| apply IH, H].
    apply exec_absent_stays, Hop.
Qed.

Lemma networkConfig_present nwid (s : State C) nw :
  _networks s !! nwid = Some (Some nw) ->
  outcome (ZT1_Node_networkConfig nwid s) = snapshot_outcome nw (ext s).
Proof.
  intros Hnw. unfold ZT1_Node_networkConfig, try_catch_all, networkConfig,
    snapshot_outcome, bind, get, call, call_r, call_total, undefined, ret.
  cbn [outcome final emitted app]. rewrite Hnw.
  destruct (malloc C (ext s)) as [[|] e1]; cbn [outcome final emitted app ext set_ext];
    [| reflexivity].
  destruct (network_externalConfig C nw e1) as [[x|cfg] e2]; reflexivity.
Qed.

Lemma networkConfig_absent nwid (s : State C) :
  _networks s !! nwid = None ->
  ZT1_Node_networkConfig nwid s = mkResult (Returned None) s [].
Proof.
  intros Hnone. unfold ZT1_Node_networkConfig, try_catch_all, networkConfig, bind, get, ret.
  cbn [outcome final emitted app]. rewrite Hnone. reflexivity.
Qed.

Lemma leave_never_OK nwid (s : State C) :
  outcome (leave nwid s) <> Returned (Some ZT1_RESULT_OK) /\
  outcome (ZT1_Node_leave nwid s) <> Returned (Some ZT1_RESULT_OK).
Proof.
  assert (Ho : (exists x, outcome (leave nwid s) = Threw x) \/
               outcome (leave nwid s) = Returned None \/
               outcome (leave nwid s) = Undefined).
  { pose proof (leave_spec nwid s) as H.
    destruct (_networks s !! nwid) as [[nw|]|].
    - destruct H as (_ & H).
      destruct (network_destroy C nw (ext s)) as [[x|[]] e']; destruct H as (-> & _);
        eauto.
    - destruct H as (-> & _). auto.
    - rewrite H. auto. }
  unfold ZT1_Node_leave, try_catch_bad_alloc. cbv zeta.
  destruct Ho as [(x & Ho) | [Ho | Ho]]; rewrite Ho; cbv beta iota; rewrite ?Ho.
  - split; [discriminate | destruct x; cbn; discriminate].
  - split; discriminate.
  - split; discriminate.
Qed.

Lemma networkConfig_null_entry nwid (s : State C) :
  _networks s !! nwid = Some None ->
  outcome (ZT1_Node_networkConfig nwid s) = Undefined.
Proof.
  intros Hnull. unfold ZT1_Node_networkConfig, try_catch_all, networkConfig,
    bind, get, call_total, undefined.
  cbn [outcome final emitted app]. rewrite Hnull.
  destruct (malloc C (ext s)) as [nc e1]. reflexivity.
Qed.


(** C4.  What [leave] does on each path: with the network absent it
    changes nothing and calls nothing; with the network present it calls
    the network's [destroy] and, unless that throws, removes the entry.
    On neither path does it hand a result code to its caller: control
    reaches the closing brace without a [return]. *)
Theorem leave_returns_no_code nwid (s : State C) :
  match _networks s !! nwid with
  | None => leave nwid s = mkResult (Returned None) s []
  | Some (Some nw) =>
      emitted (leave nwid s) = [CallNetworkDestroy nw] /\
      match (network_destroy C nw (ext s)).1 with
      | inr _ =>
          outcome (leave nwid s) = Returned None /\
          _networks (final (leave nwid s)) = delete nwid (_networks s)
      | inl x => outcome (leave nwid s) = Threw x
      end
  | Some None => outcome (leave nwid s) = Undefined
  end.
Proof.
  pose proof (leave_spec nwid s) as H.
  destruct (_networks s !! nwid) as [[nw|]|]; [| tauto | exact H].
  destruct H as (He & H). split; [exact He |].
  destruct (network_destroy C nw (ext s)) as [[x|[]] e']; cbn [fst].
  - tauto.
  - destruct H as (Ho & ->). split; [exact Ho | reflexivity].
Qed.

(** C5, as the code has it.  A call to [join] that returns, returns OK;
    and after a [join] that returned OK a second [join] of the same
    network returns OK, makes no outside call and leaves the node as the
    first one left it. *)
Theorem join_idempotent nwid (s : State C) :
  (forall rc, outcome (join nwid s) = Returned rc -> rc = ZT1_RESULT_OK) /\
  (outcome (join nwid s) = Returned ZT1_RESULT_OK ->
   join nwid (final (join nwid s))
   = mkResult (Returned ZT1_RESULT_OK) (final (join nwid s)) []).
Proof.
  split.
  - intros rc H. apply (join_returns _ _ _ H).
  - intros H. destruct (join_returns _ _ _ H) as (_ & nw & Hnw).
    apply (join_present _ _ _ Hnw).
Qed.

End Registry.



(** The two paths of [leave] at concrete calls: the network absent, and
    the network present. *)
Example leave_sample :
  outcome (leave 1 (sample_node 300)) = Returned None /\
  outcome (leave 5 (final (join 5 (sample_node 300)))) = Returned None /\
  emitted (leave 5 (final (join 5 (sample_node 300))))
  = [CallNetworkDestroy (C := sample_collaborators) 5].
Proof. vm_compute. auto. Qed.

Lemma join_idempotent_witness :
  outcome (join 5 (final (join 5 (sample_node 300)))) = Returned ZT1_RESULT_OK.
Proof.
  rewrite (proj2 (join_idempotent 5 (sample_node 300))).
  - reflexivity.
  - vm_compute. reflexivity.
Defined.

(** C5 as stated does not hold: when constructing the network runs out
    of memory, [join] does not return OK; it throws, and the C binding
    returns the out-of-memory code. *)
Lemma join_out_of_memory :
  let s := initial_state (C := sample_collaborators) sample_ext_no_memory 0 0 in
  outcome (join 5 s) = Threw bad_alloc /\
  outcome (ZT1_Node_join 5 s) = Returned ZT1_RESULT_FATAL_ERROR_OUT_OF_MEMORY /\
  outcome (ZT1_Node_join 5 s) <> Returned ZT1_RESULT_OK.
Proof. vm_compute. repeat split; discriminate. Qed.

(** ** Ingress *)

Section Ingress.

Context (K : Constants) {C : Collaborators}.

Lemma backgroundTasksIfDue_not_due now (s : State C) :
  now < nextBackgroundTaskDeadline s ->
  backgroundTasksIfDue K now s = mkResult (Returned None) (set_now now s) [].
Proof.
  intros H. unfold backgroundTasksIfDue, bind, get, modify, ret.
  cbn [outcome final emitted app]. apply Z.leb_gt in H. rewrite H. reflexivity.
Qed.

Lemma backgroundTasksIfDue_due now (s : State C) :
  nextBackgroundTaskDeadline s <= now ->
  outcome (backgroundTasksIfDue K now s)
  = match outcome (processBackgroundTasks K now s) with
    | Returned rc =>
        Returned (if bool_decide (rc = ZT1_RESULT_OK) then None else Some rc)
    | Threw e => Threw e
    | Undefined => Undefined
    | OutOfFuel => OutOfFuel
    end /\
  final (backgroundTasksIfDue K now s) = final (processBackgroundTasks K now s) /\
  emitted (backgroundTasksIfDue K now s) = emitted (processBackgroundTasks K now s).
Proof.
  intros H. unfold backgroundTasksIfDue, bind, get, ret.
  cbn [outcome final emitted app]. apply Z.leb_le in H. rewrite H.
  destruct (outcome (processBackgroundTasks K now s));
    cbn [outcome final emitted app]; rewrite ?app_nil_r; auto.
Qed.

(** The two ways through the preamble, as one fact about it. *)
Lemma preamble_passes_spec now (s s1 : State C) pre :
  preamble_passes K now s s1 pre ->
  outcome (backgroundTasksIfDue K now s) = Returned None /\
  final (backgroundTasksIfDue K now s) = s1 /\
  emitted (backgroundTasksIfDue K now s) = pre.
Proof.
  intros [(Hdue & Hok & -> & ->) | (Hnot & -> & ->)].
  - destruct (backgroundTasksIfDue_due now s Hdue) as (-> & -> & ->).
    rewrite Hok. auto.
  - rewrite (backgroundTasksIfDue_not_due now s Hnot). auto.
Qed.

Lemma preamble_fails_spec now (s : State C) rc :
  nextBackgroundTaskDeadline s <= now ->
  outcome (processBackgroundTasks K now s) = Returned rc ->
  rc <> ZT1_RESULT_OK ->
  outcome (backgroundTasksIfDue K now s) = Returned (Some rc) /\
  final (backgroundTasksIfDue K now s) = final (processBackgroundTasks K now s) /\
  emitted (backgroundTasksIfDue K now s) = emitted (processBackgroundTasks K now s).
Proof.
  intros Hdue Hrc Hne.
  destruct (backgroundTasksIfDue_due now s Hdue) as (-> & -> & ->).
  rewrite Hrc, bool_decide_eq_false_2 by exact Hne. auto.
Qed.

Lemma tick_hands_nothing_to_switch now (s : State C) :
  Forall (fun c => is_onRemotePacket c = false /\ is_onLocalEthernet c = false)
    (emitted (processBackgroundTasks K now s)).
Proof.
  fapply (processBackgroundTasks_obeys K (keeps _networks)
           (fun c => is_onRemotePacket c = false /\ is_onLocalEthernet c = false)).
  intros c. destruct c; cbn; intros H; try discriminate; auto.
Qed.

Lemma try_catch_bad_alloc_ret_outcome {A} (m : M C A) (a b : A) (s : State C) :
  outcome (try_catch_bad_alloc m (ret a) (ret b) s)
  = match outcome (m s) with
    | Threw bad_alloc => Returned a
    | Threw _ => Returned b
    | o => o
    end.
Proof.
  unfold try_catch_bad_alloc.
  destruct (outcome (m s)) as [x|e| |] eqn:E; try exact E.
  destruct e; reflexivity.
Qed.

Lemma processWirePacket_spec now a d p (s : State C) :
  let pre := backgroundTasksIfDue K now s in
  let r := processWirePacket K now a d p s in
  match outcome pre with
  | Returned (Some rc) =>
      outcome r = Returned rc /\ final r = final pre /\ emitted r = emitted pre
  | Returned None =>
      let sw := sw_onRemotePacket C a d p (ext (final pre)) in
      outcome r = match sw.1 with inl x => Threw x | inr _ => Returned ZT1_RESULT_OK end /\
      final r = set_ext sw.2 (final pre) /\
      emitted r = emitted pre ++ [CallOnRemotePacket a d p]
  | _ => True
  end.
Proof.
  cbv zeta. unfold processWirePacket.
  destruct (outcome (backgroundTasksIfDue K now s)) as [[rc|]| | |] eqn:Ho; auto.
  - destruct (bind_step (backgroundTasksIfDue K now)
      (fun early => match early with
                    | Some rc => ret rc
                    | None =>
                        call (CallOnRemotePacket a d p) (sw_onRemotePacket C a d p);;;
                        ret ZT1_RESULT_OK
                    end) s _ Ho) as (-> & -> & ->).
    cbn. rewrite app_nil_r. auto.
  - destruct (bind_step (backgroundTasksIfDue K now)
      (fun early => match early with
                    | Some rc => ret rc
                    | None =>
                        call (CallOnRemotePacket a d p) (sw_onRemotePacket C a d p);;;
                        ret ZT1_RESULT_OK
                    end) s _ Ho) as (-> & -> & ->).
    unfold bind. rewrite call_outcome, call_final, call_emitted.
    destruct (sw_onRemotePacket C a d p (ext (final (backgroundTasksIfDue K now s))))
      as [[x|[]] e']; cbn; rewrite ?app_nil_r; auto.
Qed.

(** C6.  [ZT1_Node_processWirePacket]: when the tick is due it runs
    first, and a result of it that is not OK is what the call returns,
    the switch not having been handed the packet; in every other case
    the switch is handed the packet, and the call returns OK if the
    switch returns at all (whatever the packet), the out-of-memory code
    if the switch throws [std::bad_alloc], the packet-invalid code if it
    throws anything else. *)
Theorem processWirePacket_contract now a d p (s : State C) :
  let r := ZT1_Node_processWirePacket K now a d p s in
  let tick := processBackgroundTasks K now s in
  (nextBackgroundTaskDeadline s <= now ->
   forall rc, outcome tick = Returned rc -> rc <> ZT1_RESULT_OK ->
     outcome r = Returned rc /\ final r = final tick /\ emitted r = emitted tick /\
     Forall (fun c => is_onRemotePacket c = false) (emitted r)) /\
  (forall s1 pre, preamble_passes K now s s1 pre ->
     let sw := sw_onRemotePacket C a d p (ext s1) in
     outcome r = Returned (wire_packet_result sw.1) /\
     final r = set_ext sw.2 s1 /\
     emitted r = pre ++ [CallOnRemotePacket a d p] /\
     Forall (fun c => is_onRemotePacket c = false) pre).
Proof.
  cbv zeta. unfold ZT1_Node_processWirePacket.
  rewrite try_catch_bad_alloc_ret_outcome.
  destruct (try_catch_bad_alloc_ret_final (processWirePacket K now a d p)
              ZT1_RESULT_FATAL_ERROR_OUT_OF_MEMORY ZT1_RESULT_ERROR_PACKET_INVALID s)
    as (-> & ->).
  pose proof (processWirePacket_spec now a d p s) as Hspec. cbv zeta in Hspec.
  split.
  - intros Hdue rc Hrc Hne.
    destruct (preamble_fails_spec now s rc Hdue Hrc Hne) as (Ho & Hf & He).
    rewrite Ho in Hspec. destruct Hspec as (-> & -> & ->). rewrite Hf, He.
    repeat split; try reflexivity.
    eapply Forall_impl; [apply tick_hands_nothing_to_switch |]. cbn. tauto.
  - intros s1 pre Hpass.
    assert (Hpre : Forall (fun c => is_onRemotePacket c = false) pre).
    { destruct Hpass as [(_ & _ & _ & ->) | (_ & _ & ->)]; [| constructor].
      eapply Forall_impl; [apply tick_hands_nothing_to_switch |]. cbn. tauto. }
    destruct (preamble_passes_spec now s s1 pre Hpass) as (Ho & Hf & He).
    rewrite Ho, Hf, He in Hspec. destruct Hspec as (-> & -> & ->).
    repeat split; try assumption.
    destruct (sw_onRemotePacket C a d p (ext s1)) as [[x|[]] e']; cbn; [destruct x |];
      reflexivity.
Qed.

Lemma processVirtualNetworkFrame_spec now nwid sm dm et vl fd (s : State C) :
  let pre := backgroundTasksIfDue K now s in
  let r := processVirtualNetworkFrame K now nwid sm dm et vl fd s in
  match outcome pre with
  | Returned (Some rc) =>
      outcome r = Returned rc /\ final r = final pre /\ emitted r = emitted pre
  | Returned None =>
      match _networks (final pre) !! nwid with
      | Some (Some nw) =>
          let sw := sw_onLocalEthernet C nw sm dm et vl fd (ext (final pre)) in
          outcome r
          = Returned match sw.1 with
                     | inl _ => ZT1_RESULT_FATAL_ERROR_INTERNAL
                     | inr _ => ZT1_RESULT_OK
                     end /\
          final r = set_ext sw.2 (final pre) /\
          emitted r = emitted pre ++ [CallOnLocalEthernet nw sm dm et vl fd]
      | _ =>
          outcome r = Returned ZT1_RESULT_ERROR_NETWORK_NOT_FOUND /\
          final r = final pre /\ emitted r = emitted pre
      end
  | _ => final r = final pre /\ emitted r = emitted pre
  end.
Proof.
  cbv zeta. unfold processVirtualNetworkFrame.
  set (k := fun early : option ZT1_ResultCode => match early with
                               | Some rc => ret rc
                               | None => _
                               end).
  destruct (outcome (backgroundTasksIfDue K now s)) as [[rc|]| | |] eqn:Ho;
    try (apply bind_stop; intros a; rewrite Ho; discriminate).
  - destruct (bind_step (backgroundTasksIfDue K now) k s _ Ho) as (-> & -> & ->).
    cbn. rewrite app_nil_r. auto.
  - destruct (bind_step (backgroundTasksIfDue K now) k s _ Ho) as (-> & -> & ->).
    subst k. cbv beta iota.
    unfold try_catch_all, network. unfold bind, get, ret.
    cbn [outcome final emitted app].
    destruct (_networks (final (backgroundTasksIfDue K now s)) !! nwid) as [[nw|]|];
      cbn [outcome final emitted app]; rewrite ?app_nil_r; auto.
    rewrite call_outcome, call_final, call_emitted.
    destruct (sw_onLocalEthernet C nw sm dm et vl fd
                (ext (final (backgroundTasksIfDue K now s)))) as [[x|[]] e'];
      cbn; rewrite ?app_nil_r; auto.
Qed.

Lemma tick_keeps_networks now (s : State C) :
  _networks (final (processBackgroundTasks K now s)) = _networks s.
Proof.
  fapply (processBackgroundTasks_obeys K (keeps _networks) any_call).
  intros; exact I.
Qed.

(** C8, as the code has it.  With [nwid] not in the registry (or its
    entry null): when the tick is not due the call returns
    network-not-found, makes no outside call and changes nothing but the
    node's clock; when the tick is due it runs first, with its effects,
    and the call returns the tick's result if that is not OK and
    network-not-found otherwise; in neither case is the frame handed to
    the switch.  With [nwid] in the registry, once the preamble has
    passed, an exception from the switch makes the call return the
    internal error. *)
Theorem processVirtualNetworkFrame_contract now nwid sm dm et vl fd (s : State C) :
  let r := processVirtualNetworkFrame K now nwid sm dm et vl fd s in
  let tick := processBackgroundTasks K now s in
  ((forall nw, _networks s !! nwid <> Some (Some nw)) ->
   (now < nextBackgroundTaskDeadline s ->
    r = mkResult (Returned ZT1_RESULT_ERROR_NETWORK_NOT_FOUND) (set_now now s) []) /\
   (nextBackgroundTaskDeadline s <= now ->
    final r = final tick /\ emitted r = emitted tick /\
    forall rc, outcome tick = Returned rc ->
      outcome r = Returned (if bool_decide (rc = ZT1_RESULT_OK)
                            then ZT1_RESULT_ERROR_NETWORK_NOT_FOUND else rc)) /\
   Forall (fun c => is_onLocalEthernet c = false) (emitted r)) /\
  (forall nw s1 pre x,
     _networks s !! nwid = Some (Some nw) ->
     preamble_passes K now s s1 pre ->
     (sw_onLocalEthernet C nw sm dm et vl fd (ext s1)).1 = inl x ->
     outcome r = Returned ZT1_RESULT_FATAL_ERROR_INTERNAL /\
     emitted r = pre ++ [CallOnLocalEthernet nw sm dm et vl fd]).
Proof.
  cbv zeta.
  pose proof (processVirtualNetworkFrame_spec now nwid sm dm et vl fd s) as Hspec.
  cbv zeta in Hspec. split.
  - intros Habs. split; [| split].
    + intros Hnot. rewrite (backgroundTasksIfDue_not_due now s Hnot) in Hspec.
      cbn [outcome final emitted _networks set_now] in Hspec.
      destruct (_networks s !! nwid) as [[nw|]|] eqn:E;
        [destruct (Habs nw eq_refl) | |];
        destruct Hspec as (Ho & Hf & He);
        destruct (processVirtualNetworkFrame K now nwid sm dm et vl fd s);
        cbn in *; congruence.
    + intros Hdue.
      destruct (backgroundTasksIfDue_due now s Hdue) as (Ho & Hf & He).
      rewrite Ho, Hf, He in Hspec.
      destruct (outcome (processBackgroundTasks K now s)) as [rc| | |] eqn:Htick.
      * rewrite tick_keeps_networks in Hspec.
        assert (Hr :
          outcome (processVirtualNetworkFrame K now nwid sm dm et vl fd s)
          = Returned (if bool_decide (rc = ZT1_RESULT_OK)
                      then ZT1_RESULT_ERROR_NETWORK_NOT_FOUND else rc) /\
          final (processVirtualNetworkFrame K now nwid sm dm et vl fd s)
          = final (processBackgroundTasks K now s) /\
          emitted (processVirtualNetworkFrame K now nwid sm dm et vl fd s)
          = emitted (processBackgroundTasks K now s)).
        { destruct (bool_decide (rc = ZT1_RESULT_OK)); [| exact Hspec].
          destruct (_networks s !! nwid) as [[nw|]|] eqn:E;
            [destruct (Habs nw eq_refl) | exact Hspec | exact Hspec]. }
        destruct Hr as (-> & -> & ->). repeat split.
        intros rc0 H. assert (rc = rc0) by congruence. subst rc0. reflexivity.
      * destruct (processBackgroundTasks_never_throws K now s e Htick).
      * destruct Hspec as (-> & ->). repeat split; discriminate.
      * destruct Hspec as (-> & ->). repeat split; discriminate.
    + assert (Hpre : obeys (keeps _networks) (fun c => is_onLocalEthernet c = false)
                       (backgroundTasksIfDue K (C := C) now)).
      { fapply backgroundTasksIfDue_obeys. intros c. destruct c; cbn; congruence. }
      destruct (Hpre s) as [Hk HP]. unfold keeps in Hk. rewrite Hk in Hspec.
      assert (He : emitted (processVirtualNetworkFrame K now nwid sm dm et vl fd s)
                   = emitted (backgroundTasksIfDue K now s)).
      { destruct (outcome (backgroundTasksIfDue K now s)) as [[rc|]| | |];
          try apply Hspec.
        destruct (_networks s !! nwid) as [[nw|]|] eqn:E;
          [destruct (Habs nw eq_refl) | apply Hspec | apply Hspec]. }
      rewrite He. exact HP.
  - intros nw s1 pre x Hnw Hpass Hsw.
    destruct (preamble_passes_spec now s s1 pre Hpass) as (Ho & Hf & He).
    assert (Hk : _networks s1 = _networks s).
    { rewrite <- Hf.
      fapply (backgroundTasksIfDue_obeys K (keeps _networks) any_call).
      intros; exact I. }
    rewrite Ho, Hf, He, Hk, Hnw, Hsw in Hspec. tauto.
Qed.

End Ingress.

Lemma processWirePacket_contract_witness :
  outcome (ZT1_Node_processWirePacket sample_constants 5000 [] 0 [] (sample_node 300))
  = Returned ZT1_RESULT_OK /\
  outcome (ZT1_Node_processWirePacket sample_constants 5000 [] 0 []
             (initial_state (C := sample_collaborators) sample_ext_timer_throws 0 0))
  = Returned ZT1_RESULT_FATAL_ERROR_INTERNAL.
Proof.
  split.
  - destruct (proj2 (processWirePacket_contract sample_constants 5000 [] 0 []
                       (sample_node 300))
                (final (processBackgroundTasks sample_constants 5000 (sample_node 300)))
                (emitted (processBackgroundTasks sample_constants 5000 (sample_node 300))))
      as (H & _).
    + left. repeat split; vm_compute; congruence.
    + rewrite H. vm_compute. reflexivity.
  - apply (proj1 (processWirePacket_contract sample_constants 5000 [] 0 []
                    (initial_state (C := sample_collaborators)
                       sample_ext_timer_throws 0 0))).
    + vm_compute. discriminate.
    + vm_compute. reflexivity.
    + discriminate.
Defined.

Lemma processVirtualNetworkFrame_contract_witness :
  outcome (processVirtualNetworkFrame sample_constants 5000 9 1 2 2048 0 []
             (set_nextBackgroundTaskDeadline 6000 (sample_node 300)))
  = Returned ZT1_RESULT_ERROR_NETWORK_NOT_FOUND /\
  outcome (processVirtualNetworkFrame sample_constants 5000 9 1 2 2048 0 []
             (set_nextBackgroundTaskDeadline 6000
                (final (join 9 (initial_state (C := sample_collaborators)
                                  (sample_ext_switch_throws bad_alloc) 0 0)))))
  = Returned ZT1_RESULT_FATAL_ERROR_INTERNAL.
Proof.
  split.
  - rewrite (proj1 (proj1 (processVirtualNetworkFrame_contract sample_constants
                             5000 9 1 2 2048 0 []
                             (set_nextBackgroundTaskDeadline 6000 (sample_node 300)))
                      ltac:(vm_compute; discriminate))).
    + reflexivity.
    + vm_compute. reflexivity.
  - set (s := set_nextBackgroundTaskDeadline 6000 _).
    apply (proj2 (processVirtualNetworkFrame_contract sample_constants
                    5000 9 1 2 2048 0 [] s) 9 (set_now 5000 s) [] bad_alloc).
    + vm_compute. reflexivity.
    + right. split; [vm_compute; reflexivity | split; reflexivity].
    + vm_compute. reflexivity.
Defined.

(** C8 as stated does not hold: the network 9 is unknown and the tick is
    due.  In the quiet world the call returns network-not-found but has
    called the switch's [doTimerTasks] and has written the ping-check
    gate and the deadline; in the world whose switch throws from
    [doTimerTasks] the call returns the internal error. *)
Lemma unknown_network_with_tick_due :
  let s := sample_node 300 in
  let r := processVirtualNetworkFrame sample_constants 7000 9 1 2 2048 0 [] s in
  let s' := initial_state (C := sample_collaborators) sample_ext_timer_throws 0 0 in
  let r' := processVirtualNetworkFrame sample_constants 7000 9 1 2 2048 0 [] s' in
  _networks s !! 9 = None /\
  outcome r = Returned ZT1_RESULT_ERROR_NETWORK_NOT_FOUND /\
  emitted r = [CallDoTimerTasks 7000 (inr 300)] /\
  _lastPingCheck (final r) = 7000 /\ _lastPingCheck s = 0 /\
  nextBackgroundTaskDeadline (final r) = 8000 /\ nextBackgroundTaskDeadline s = 0 /\
  _networks s' !! 9 = None /\
  outcome r' = Returned ZT1_RESULT_FATAL_ERROR_INTERNAL /\
  outcome r' <> Returned ZT1_RESULT_ERROR_NETWORK_NOT_FOUND.
Proof. vm_compute. repeat split; discriminate. Qed.

(** ** Version gossip *)

Section Version.

Context (K : Constants) {C : Collaborators}.

Lemma compareVersion_pos a1 a2 a3 b1 b2 b3 :
  0 < compareVersion a1 a2 a3 b1 b2 b3 <-> version_exceeds (a1, a2, a3) (b1, b2, b3).
Proof.
  unfold compareVersion, version_exceeds.
  repeat (case_match; try lia).
Qed.

Lemma postNewerVersionIfNewer_spec major minor rev (s : State C) :
  (version_exceeds (major, minor, rev) (_newestVersionSeen s) ->
   outcome (postNewerVersionIfNewer major minor rev s) = Returned tt /\
   _newestVersionSeen (final (postNewerVersionIfNewer major minor rev s))
   = (major, minor, rev) /\
   emitted (postNewerVersionIfNewer major minor rev s)
   = [CallStatus ZT1_EVENT_SAW_MORE_RECENT_VERSION]) /\
  (~ version_exceeds (major, minor, rev) (_newestVersionSeen s) ->
   postNewerVersionIfNewer major minor rev s = mkResult (Returned tt) s []).
Proof.
  unfold postNewerVersionIfNewer, bind, get, modify, postEvent, call_total, ret.
  cbn [outcome final emitted app].
  destruct (_newestVersionSeen s) as [[m0 m1] m2] eqn:E.
  pose proof (compareVersion_pos major minor rev m0 m1 m2) as Hc.
  destruct (0 <? compareVersion major minor rev m0 m1 m2) eqn:Hlt.
  - apply Z.ltb_lt in Hlt. split; [| tauto]. intros _. cbn. auto.
  - apply Z.ltb_ge in Hlt. split; [intros H; apply Hc in H; lia |]. auto.
Qed.

#[global] Instance version_floor_frame : Frame (version_floor (C := C) K).
Proof.
  split; unfold version_floor.
  - auto.
  - intros s1 s2 s3 H12 H23 H. auto.
  - intros e s H. exact H.
Qed.

Lemma join_obeys_keeps {X} (f : State C -> X) nwid :
  Frame (keeps f) -> Tolerates (keeps f) set_networks ->
  obeys (keeps f) any_call (join nwid).
Proof.
  intros HF T. unfold join. obeys_auto.
  all: try exact I; try (intros ?; apply T).
Qed.

Lemma leave_obeys_keeps {X} (f : State C -> X) nwid :
  Frame (keeps f) -> Tolerates (keeps f) set_networks ->
  obeys (keeps f) any_call (leave nwid).
Proof.
  intros HF T. unfold leave. obeys_auto.
  all: try exact I; try (intros ?; apply T).
Qed.

(** Only [postNewerVersionIfNewer] writes the stored version. *)
Lemma exec_keeps_version op :
  (forall a b c, op <> OpPostNewerVersionIfNewer a b c) ->
  obeys (keeps _newestVersionSeen) any_call (exec K (C := C) op).
Proof.
  intros Hp. destruct op; cbn [exec].
  - fapply obeys_bind; [| intros ?; fapply obeys_ret].
    fapply obeys_try_catch_bad_alloc; try fapply obeys_ret.
    fapply processWirePacket_obeys; intros; exact I.
  - fapply obeys_bind; [| intros ?; fapply obeys_ret].
    fapply obeys_try_catch_bad_alloc; try fapply obeys_ret.
    fapply processVirtualNetworkFrame_obeys; intros; exact I.
  - fapply obeys_bind; [| intros ?; fapply obeys_ret].
    fapply obeys_try_catch_bad_alloc; try fapply obeys_ret.
    fapply processBackgroundTasks_obeys; intros; exact I.
  - fapply obeys_bind; [| intros ?; fapply obeys_ret].
    fapply obeys_try_catch_bad_alloc; try fapply obeys_ret.
    fapply join_obeys_keeps.
  - fapply obeys_bind; [| intros ?; fapply obeys_ret].
    fapply obeys_try_catch_bad_alloc; try fapply obeys_ret.
    fapply leave_obeys_keeps.
  - fapply obeys_bind; [| intros ?; fapply obeys_ret].
    fapply obeys_try_catch_bad_alloc; try fapply obeys_ret.
    fapply multicastSubscribe_obeys; intros; exact I.
  - fapply obeys_bind; [| intros ?; fapply obeys_ret].
    fapply obeys_try_catch_bad_alloc; try fapply obeys_ret.
    fapply multicastUnsubscribe_obeys; intros; exact I.
  - fapply obeys_bind; [| intros ?; fapply obeys_ret].
    fapply obeys_try_catch_all; [| fapply obeys_ret].
    fapply networkConfig_obeys; intros; exact I.
  - destruct (Hp major minor rev eq_refl).
  - fapply obeys_modify. intros s. reflexivity.
Qed.

Lemma exec_version_floor op (s : State C) :
  version_floor K s (final (exec K op s)).
Proof.
  destruct op as [| | | | | | | |major minor rev|].
  9: { intros Hfloor. cbn [exec].
       destruct (postNewerVersionIfNewer_spec major minor rev s) as (Hnew & Hold).
       destruct (_newestVersionSeen s) as [[m0 m1] m2] eqn:E.
       destruct (decide (version_exceeds (major, minor, rev) (m0, m1, m2)))
         as [Hex|Hex].
       - destruct (Hnew Hex) as (_ & -> & _).
         unfold version_exceeds, compiled_version in *. lia.
       - rewrite (Hold Hex). cbn. rewrite E. exact Hfloor. }
  all: intros Hfloor;
    match goal with
    | |- context [exec K ?op ?s0] =>
        assert (Hk : obeys (keeps _newestVersionSeen) any_call (exec K (C := C) op))
          by (apply exec_keeps_version; discriminate);
        rewrite (proj1 (Hk s0))
    end;
    exact Hfloor.
Qed.

Lemma run_version_floor ops (s s' : State C) :
  run K ops s = Some s' -> version_floor K s s'.
Proof.
  revert s. induction ops as [|op ops IH]; intros s H.
  - cbn in H. injection H as <-. apply frame_refl.
  - apply run_cons in H. eapply frame_trans; [apply exec_version_floor | apply IH, H].
Qed.

Lemma loadOrGenerateIdentity_keeps_version fuel :
  obeys (keeps _newestVersionSeen) any_call (loadOrGenerateIdentity (C := C) fuel).
Proof.
  unfold loadOrGenerateIdentity.
  fapply obeys_bind; [fapply dataStoreGet_loop_obeys; intros; exact I | intros idtmp].
  fapply obeys_bind.
  - obeys_auto. intros s; reflexivity.
  - intros [|]; [| fapply obeys_ret].
    fapply obeys_bind; [fapply obeys_call_total; exact I | intros id].
    fapply obeys_bind; [fapply obeys_modify; intros s; reflexivity | intros _].
    fapply obeys_bind; [fapply dataStorePut_obeys; intros; exact I | intros ok].
    destruct (negb ok); [fapply obeys_throw |].
    fapply obeys_bind; [fapply dataStorePut_obeys; intros; exact I | intros ok'].
    destruct (negb ok'); [fapply obeys_throw | fapply obeys_ret].
Qed.

Lemma rootTopology_obeys (R : State C -> State C -> Prop) `{!Frame R}
    (P : Call C -> Prop) fuel ov :
  (forall i, P (CallDataStoreGet "root-topology" i)) ->
  obeys R P (rootTopology fuel ov).
Proof.
  intros HP. unfold rootTopology. destruct ov as [o|]; [fapply obeys_ret |].
  fapply obeys_bind; [fapply dataStoreGet_loop_obeys; exact HP | intros rttmp].
  fapply obeys_ret.
Qed.

Lemma Node_ctor_version fuel ov (s : State C) :
  _newestVersionSeen (final (Node_ctor K fuel ov s)) = compiled_version K.
Proof.
  unfold Node_ctor.
  set (rest := bind (loadOrGenerateIdentity fuel) _).
  assert (Hrest : obeys (keeps _newestVersionSeen) any_call rest).
  { subst rest.
    fapply obeys_bind; [apply loadOrGenerateIdentity_keeps_version | intros _].
    fapply obeys_bind; [fapply obeys_call; exact I | intros _].
    fapply obeys_bind; [fapply rootTopology_obeys; intros; exact I | intros rt].
    fapply obeys_bind; [cbv zeta; fapply obeys_call; exact I | intros _].
    fapply postEvent_obeys. exact I. }
  unfold bind at 1. cbn [modify outcome final emitted].
  rewrite (proj1 (Hrest _)). reflexivity.
Qed.

(** C9.  The constructor leaves the node's own version as the highest
    seen; and on a node that has been constructed and then used in any
    way, [postNewerVersionIfNewer] with a triple that does not strictly
    exceed the node's own version changes nothing and posts no event. *)
Theorem postNewerVersionIfNewer_not_newer fuel now ov (e0 : Ext C) d0 ops
    (s : State C) major minor rev :
  run K ops (final (ZT1_Node_new K fuel now ov e0 d0)) = Some s ->
  ~ version_exceeds (major, minor, rev) (compiled_version K) ->
  _newestVersionSeen (final (ZT1_Node_new K fuel now ov e0 d0)) = compiled_version K /\
  postNewerVersionIfNewer major minor rev s = mkResult (Returned tt) s [].
Proof.
  intros Hrun Hnot.
  assert (Hinit : _newestVersionSeen (final (ZT1_Node_new K fuel now ov e0 d0))
                  = compiled_version K).
  { unfold ZT1_Node_new. cbn [final]. apply Node_ctor_version. }
  split; [exact Hinit |].
  apply postNewerVersionIfNewer_spec.
  pose proof (run_version_floor _ _ _ Hrun) as Hfloor. unfold version_floor in Hfloor.
  rewrite Hinit in Hfloor.
  assert (Hs : ~ version_exceeds (compiled_version K) (_newestVersionSeen s)).
  { apply Hfloor. unfold version_exceeds, compiled_version. lia. }
  destruct (_newestVersionSeen s) as [[m0 m1] m2].
  unfold version_exceeds, compiled_version in *. lia.
Qed.

End Version.

Lemma postNewerVersionIfNewer_not_newer_witness :
  match run sample_constants
          [OpPostNewerVersionIfNewer 1 2 3; OpJoin 5; OpProcessBackgroundTasks 9000]
          (final (ZT1_Node_new sample_constants (C := sample_collaborators) 4 1000 None
                    (sample_ext 300) 0)) with
  | Some s => emitted (postNewerVersionIfNewer 1 0 0 s) = []
  | None => False
  end.
Proof.
  destruct (run sample_constants
              [OpPostNewerVersionIfNewer 1 2 3; OpJoin 5; OpProcessBackgroundTasks 9000]
              (final (ZT1_Node_new sample_constants (C := sample_collaborators) 4 1000
                        None (sample_ext 300) 0))) as [s|] eqn:E;
    [| vm_compute in E; discriminate].
  destruct (postNewerVersionIfNewer_not_newer sample_constants
              (C := sample_collaborators) 4 1000 None (sample_ext 300) 0
              [OpPostNewerVersionIfNewer 1 2 3; OpJoin 5; OpProcessBackgroundTasks 9000]
              s 1 0 0 E) as (_ & ->).
  - vm_compute. intros [H|[_ [H|[_ H]]]]; discriminate.
  - reflexivity.
Defined.

(** ** The interval gates *)

Section Gates.

Context (K : Constants) {C : Collaborators}.

Lemma unless_returned_cases (m k : M C (option ZT1_ResultCode)) (s : State C) :
  (outcome (m s) = Returned None /\
   final (unless_returned m k s) = final (k (final (m s))) /\
   emitted (unless_returned m k s) = emitted (m s) ++ emitted (k (final (m s)))) \/
  (outcome (m s) <> Returned None /\
   final (unless_returned m k s) = final (m s) /\
   emitted (unless_returned m k s) = emitted (m s)).
Proof.
  destruct (outcome (m s)) as [[rc|]| | |] eqn:E.
  2: { left. split; [reflexivity |]. apply unless_returned_continue, E. }
  all: right; split; [discriminate |];
    apply unless_returned_stop; rewrite E; discriminate.
Qed.

Lemma housekeepingIfDue_due now (s : State C) :
  ZT_HOUSEKEEPING_PERIOD K <= u64 (now - _lastHousekeepingRun s) ->
  final (housekeepingIfDue K now s) = final (housekeeping now s).
Proof.
  intros Hgate. unfold housekeepingIfDue, bind, get. cbn [outcome final emitted app].
  apply Z.leb_le in Hgate. rewrite Hgate. reflexivity.
Qed.

Lemma housekeepingIfDue_not_due now (s : State C) :
  u64 (now - _lastHousekeepingRun s) < ZT_HOUSEKEEPING_PERIOD K ->
  final (housekeepingIfDue K now s) = s /\
  emitted (housekeepingIfDue K now s) = [] /\
  outcome (housekeepingIfDue K now s) = Returned None.
Proof.
  intros Hgate. unfold housekeepingIfDue, bind, get. cbn [outcome final emitted app].
  apply Z.leb_gt in Hgate. rewrite Hgate. auto.
Qed.

Lemma housekeeping_gate now (s : State C) :
  _lastHousekeepingRun (final (housekeeping now s)) = now.
Proof.
  unfold housekeeping. set (blocks := unless_returned _ _).
  assert (Hb : obeys (keeps _lastHousekeepingRun) any_call blocks).
  { subst blocks. fapply obeys_unless_returned; fapply obeys_try_or_return_internal;
      fapply obeys_call; exact I. }
  unfold bind. cbn [modify outcome final emitted]. rewrite (proj1 (Hb _)). reflexivity.
Qed.

Lemma u64_small_difference a b bound :
  0 <= a - b < bound -> bound <= 2 ^ 64 -> u64 (a - b) < bound.
Proof. intros H Hb. unfold u64. rewrite Z.mod_small; lia. Qed.

(** C10.  In a tick whose peer-liveness gate is open, [_lastPingCheck]
    is [now] when the call ends, however it ends; a later tick less than
    a ping-check interval after it makes none of the subroutine's outside
    calls and leaves the gate, the start-of-activity timestamp and the
    desperation level alone.  Likewise for housekeeping, in a tick that
    reaches it: [_lastHousekeepingRun] is [now] however the call ends,
    and a later tick less than a housekeeping period after it makes no
    housekeeping call and leaves the gate alone. *)
Theorem gates_advance_before_subroutines now now' (s : State C) :
  let s1 := final (processBackgroundTasks K now s) in
  let r2 := processBackgroundTasks K now' s1 in
  (ZT_PING_CHECK_INVERVAL K <= u64 (now - _lastPingCheck s) ->
   _lastPingCheck s1 = now /\
   (0 <= now' - now < ZT_PING_CHECK_INVERVAL K ->
    ZT_PING_CHECK_INVERVAL K <= 2 ^ 64 ->
    Forall (fun c => is_pingCheck_call c = false) (emitted r2) /\
    _lastPingCheck (final r2) = now /\
    _startTimeAfterInactivity (final r2) = _startTimeAfterInactivity s1 /\
    _coreDesperation (final r2) = _coreDesperation s1)) /\
  (outcome (pingCheckIfDue K now (set_now now s)) = Returned None ->
   ZT_HOUSEKEEPING_PERIOD K <= u64 (now - _lastHousekeepingRun s) ->
   _lastHousekeepingRun s1 = now /\
   (0 <= now' - now < ZT_HOUSEKEEPING_PERIOD K ->
    ZT_HOUSEKEEPING_PERIOD K <= 2 ^ 64 ->
    Forall (fun c => is_housekeeping_call c = false) (emitted r2) /\
    _lastHousekeepingRun (final r2) = now)).
Proof.
  cbv zeta. split.
  - intros Hgate.
    assert (H1 : _lastPingCheck (final (processBackgroundTasks K now s)) = now).
    { rewrite (tick_pingCheck_field K _lastPingCheck) by (exact _ || exact Hgate).
      transitivity (_lastPingCheck (before_peers K now s)); [| reflexivity].
      fapply (obeys_try_or_return_internal (keeps _lastPingCheck) any_call).
      fapply obeys_bind; [| intros lr; fapply obeys_bind;
        [fapply obeys_get | intros s'; fapply obeys_modify; intros ?; reflexivity]].
      fapply _PingPeersThatNeedPing_obeys. intros; exact I. }
    split; [exact H1 |]. intros Hnear Hbound.
    set (s1 := final (processBackgroundTasks K now s)) in *.
    destruct (processBackgroundTasks_unfold K now' s1) as (_ & -> & ->).
    unfold tick_stages.
    destruct (pingCheckIfDue_not_due K now' (set_now now' s1)) as (Hf & He & Ho).
    { cbn [_lastPingCheck set_now]. rewrite H1.
      apply u64_small_difference; assumption. }
    destruct (unless_returned_continue (pingCheckIfDue K now')
                (unless_returned (housekeepingIfDue K now') (computeDeadline K now'))
                _ Ho) as (_ & -> & ->).
    rewrite Hf, He. cbn [app].
    assert (Hrest : forall (R : State C -> State C -> Prop),
      Frame R -> Tolerates R set_lastHousekeepingRun ->
      Tolerates R set_nextBackgroundTaskDeadline ->
      obeys R (fun c => is_pingCheck_call c = false)
        (unless_returned (housekeepingIfDue K now') (computeDeadline K now'))).
    { intros R HF T1 T2. fapply obeys_unless_returned.
      - fapply housekeepingIfDue_obeys. intros c; destruct c; cbn; congruence.
      - fapply computeDeadline_obeys. intros c; destruct c; cbn; congruence. }
    repeat split.
    + apply (Hrest (keeps _lastPingCheck)); exact _.
    + rewrite (proj1 (Hrest (keeps _lastPingCheck) _ _ _ _)). exact H1.
    + rewrite (proj1 (Hrest (keeps _startTimeAfterInactivity) _ _ _ _)). reflexivity.
    + rewrite (proj1 (Hrest (keeps _coreDesperation) _ _ _ _)). reflexivity.
  - intros Hping Hgate.
    assert (Hp : obeys (keeps _lastHousekeepingRun) any_call (pingCheckIfDue K (C := C) now)).
    { fapply pingCheckIfDue_obeys. intros; exact I. }
    assert (H1 : _lastHousekeepingRun (final (processBackgroundTasks K now s)) = now).
    { destruct (processBackgroundTasks_unfold K now s) as (_ & -> & _).
      unfold tick_stages.
      destruct (unless_returned_continue (pingCheckIfDue K now)
                  (unless_returned (housekeepingIfDue K now) (computeDeadline K now))
                  _ Hping) as (_ & -> & _).
      rewrite (unless_returned_keeps _lastHousekeepingRun).
      - rewrite housekeepingIfDue_due; [apply housekeeping_gate |].
        rewrite (proj1 (Hp _)). exact Hgate.
      - fapply computeDeadline_obeys. intros; exact I. }
    split; [exact H1 |]. intros Hnear Hbound.
    set (s1 := final (processBackgroundTasks K now s)) in *.
    destruct (processBackgroundTasks_unfold K now' s1) as (_ & -> & ->).
    unfold tick_stages.
    assert (Hp' : obeys (keeps _lastHousekeepingRun)
                    (fun c => is_housekeeping_call c = false)
                    (pingCheckIfDue K (C := C) now')).
    { fapply pingCheckIfDue_obeys. intros c; destruct c; cbn; congruence. }
    assert (Hd : obeys (keeps _lastHousekeepingRun)
                   (fun c => is_housekeeping_call c = false)
                   (computeDeadline K (C := C) now')).
    { fapply computeDeadline_obeys. intros c; destruct c; cbn; congruence. }
    destruct (Hp' (set_now now' s1)) as [Hpk Hpe]. unfold keeps in Hpk.
    cbn [_lastHousekeepingRun set_now] in Hpk.
    set (sp := final (pingCheckIfDue K now' (set_now now' s1))) in *.
    destruct (housekeepingIfDue_not_due now' sp) as (Hf & He & Ho).
    { rewrite Hpk, H1. apply u64_small_difference; assumption. }
    destruct (unless_returned_continue (housekeepingIfDue K now')
                (computeDeadline K now') sp Ho) as (_ & Hf2 & He2).
    rewrite Hf in Hf2. rewrite He, Hf in He2. cbn [app] in He2.
    destruct (Hd sp) as [Hdk Hde]. unfold keeps in Hdk.
    destruct (unless_returned_cases (pingCheckIfDue K now')
                (unless_returned (housekeepingIfDue K now') (computeDeadline K now'))
                (set_now now' s1)) as [(_ & -> & ->) | (_ & -> & ->)].
    + fold sp. rewrite Hf2, He2. split.
      * apply Forall_app. split; assumption.
      * rewrite Hdk, Hpk. exact H1.
    + fold sp. split; [exact Hpe | rewrite Hpk; exact H1].
Qed.

End Gates.

Lemma gates_advance_before_subroutines_witness :
  let s := initial_state (C := sample_collaborators) sample_ext_ping_throws 0 0 in
  let first := processBackgroundTasks sample_constants 7000 s in
  let second := processBackgroundTasks sample_constants 9000 (final first) in
  outcome first = Returned ZT1_RESULT_FATAL_ERROR_INTERNAL /\
  emitted first = [CallDoPingAndKeepalive (C := sample_collaborators) (1, 0) 7000] /\
  Forall (fun c => is_pingCheck_call c = false) (emitted second) /\
  let s' := initial_state (C := sample_collaborators) sample_ext_clean_throws 0 0 in
  let first' := processBackgroundTasks sample_constants 130000 s' in
  let second' := processBackgroundTasks sample_constants 140000 (final first') in
  outcome first' = Returned ZT1_RESULT_FATAL_ERROR_INTERNAL /\
  emitted first' = [CallTopologyClean 130000] /\
  Forall (fun c => is_housekeeping_call c = false) (emitted second').
Proof.
  cbv zeta. split; [vm_compute; reflexivity |]. split; [vm_compute; reflexivity |].
  split; [| split; [vm_compute; reflexivity | split; [vm_compute; reflexivity |]]].
  - apply (proj1 (gates_advance_before_subroutines sample_constants 7000 9000
                    (initial_state (C := sample_collaborators)
                       sample_ext_ping_throws 0 0))).
    + vm_compute. discriminate.
    + vm_compute. split; [discriminate | reflexivity].
    + vm_compute. discriminate.
  - apply (proj2 (gates_advance_before_subroutines sample_constants 130000 140000
                    (initial_state (C := sample_collaborators)
                       sample_ext_clean_throws 0 0))).
    + vm_compute. reflexivity.
    + vm_compute. discriminate.
    + vm_compute. split; [discriminate | reflexivity].
    + vm_compute. discriminate.
Defined.

(** ** Construction and identity bootstrap *)

Section Construction.

Context (K : Constants) {C : Collaborators}.

(** An object the store does not have reads as the empty text. *)
Lemma dataStoreGet_absent fuel name (s : State C) :
  (dataStoreGetFunction C name 16384 0 (ext s)).1.1.1 <= 0 ->
  outcome (dataStoreGet (S fuel) name s) = Returned [].
Proof.
  intros H. unfold dataStoreGet. cbn [dataStoreGet_loop].
  unfold bind, call_total. cbn [length]. change (Z.of_nat 0) with 0.
  destruct (dataStoreGetFunction C name 16384 0 (ext s)) as [[[n buf] olen] e'].
  cbn [fst snd] in H. cbn [outcome final emitted]. apply Z.leb_le in H.
  rewrite H. reflexivity.
Qed.

Lemma loadOrGenerateIdentity_reuse fuel (s : State C) idtmp id :
  outcome (dataStoreGet fuel "identity.secret" s) = Returned idtmp ->
  loaded_identity idtmp = Some id ->
  outcome (loadOrGenerateIdentity fuel s) = Returned tt /\
  final (loadOrGenerateIdentity fuel s)
  = set_identity id (final (dataStoreGet fuel "identity.secret" s)) /\
  emitted (loadOrGenerateIdentity fuel s)
  = emitted (dataStoreGet fuel "identity.secret" s).
Proof.
  intros Hg Hid. unfold loadOrGenerateIdentity.
  set (k := fun idtmp : bytes => bind _ _).
  destruct (bind_step (dataStoreGet fuel "identity.secret") k s idtmp Hg)
    as (-> & -> & ->).
  subst k. cbv beta. unfold loaded_identity in Hid.
  destruct (bool_decide (length idtmp = 0%nat)); [discriminate |].
  destruct (identity_fromString C idtmp) as [id0|]; [| discriminate].
  destruct (identity_hasPrivate C id0) eqn:Hp; [| discriminate].
  injection Hid as ->.
  unfold bind, modify, ret. cbn [negb outcome final emitted app].
  rewrite app_nil_r. auto.
Qed.

Lemma loadOrGenerateIdentity_generate fuel (s : State C) idtmp :
  outcome (dataStoreGet fuel "identity.secret" s) = Returned idtmp ->
  loaded_identity (C := C) idtmp = None ->
  let g := dataStoreGet fuel "identity.secret" s in
  let r := loadOrGenerateIdentity fuel s in
  let '(id', e2) := identity_generate C (ext (final g)) in
  let secret := identity_toString C id' true in
  let public := identity_toString C id' false in
  let '(ok1, e3) := dataStorePutFunction C "identity.secret" secret true e2 in
  let '(ok2, e4) := dataStorePutFunction C "identity.public" public false e3 in
  if ok1 then
    if ok2 then
      outcome r = Returned tt /\
      RR_identity (final r) = id' /\
      emitted r = emitted g ++ [CallIdentityGenerate;
                                CallDataStorePut "identity.secret" secret true true;
                                CallDataStorePut "identity.public" public false true]
    else
      outcome r = Threw (runtime_error "unable to write identity.public") /\
      emitted r = emitted g ++ [CallIdentityGenerate;
                                CallDataStorePut "identity.secret" secret true true;
                                CallDataStorePut "identity.public" public false false]
  else
    outcome r = Threw (runtime_error "unable to write identity.secret") /\
    emitted r = emitted g ++ [CallIdentityGenerate;
                              CallDataStorePut "identity.secret" secret true false].
Proof.
  intros Hg Hid. cbv zeta. unfold loadOrGenerateIdentity.
  set (k := fun idtmp : bytes => bind _ _).
  destruct (bind_step (dataStoreGet fuel "identity.secret") k s idtmp Hg)
    as (-> & -> & ->).
  subst k. cbv beta.
  set (s1 := final (dataStoreGet fuel "identity.secret" s)).
  set (l1 := emitted (dataStoreGet fuel "identity.secret" s)).
  assert (Hre : exists s1',
    ext s1' = ext s1 /\
    forall B (k' : bool -> M C B),
      bind (if bool_decide (length idtmp = 0%nat) then ret true
            else match identity_fromString C idtmp with
                 | None => ret true
                 | Some id => modify (set_identity id);;; ret (negb (identity_hasPrivate C id))
                 end) k' s1
      = mkResult (outcome (k' true s1')) (final (k' true s1')) (emitted (k' true s1'))).
  { unfold loaded_identity in Hid.
    destruct (bool_decide (length idtmp = 0%nat)).
    - exists s1. split; [reflexivity |]. intros B k'. reflexivity.
    - destruct (identity_fromString C idtmp) as [id0|].
      + destruct (identity_hasPrivate C id0) eqn:Hp; [discriminate |].
        exists (set_identity id0 s1). split; [reflexivity |]. intros B k'.
        unfold bind, modify, ret. cbn [negb outcome final emitted app].
        reflexivity.
      + exists s1. split; [reflexivity |]. intros B k'. reflexivity. }
  destruct Hre as (s1' & Hext & Hre). rewrite Hre. cbn [outcome final emitted].
  unfold bind, call_total, dataStorePut, modify, throw, ret. rewrite Hext.
  destruct (identity_generate C (ext s1)) as [id' e2].
  cbn [outcome final emitted app ext set_ext set_identity].
  destruct (dataStorePutFunction C "identity.secret" (identity_toString C id' true)
              true e2) as [ok1 e3].
  cbn [outcome final emitted app ext set_ext set_identity].
  destruct ok1; cbn [negb outcome final emitted app ext set_ext set_identity].
  - destruct (dataStorePutFunction C "identity.public" (identity_toString C id' false)
                false e3) as [ok2 e4].
    cbn [outcome final emitted app ext set_ext set_identity].
    destruct ok2; cbn [negb outcome final emitted app RR_identity set_ext set_identity];
      auto.
  - destruct (dataStorePutFunction C "identity.public" (identity_toString C id' false)
                false e3) as [ok2 e4]. auto.
Qed.

Lemma bind_modify {B} (f : State C -> State C) (k : unit -> M C B) (s : State C) :
  bind (modify f) k s
  = mkResult (outcome (k tt (f s))) (final (k tt (f s))) (emitted (k tt (f s))).
Proof. reflexivity. Qed.

Lemma Node_ctor_after_identity fuel ov (s : State C) :
  let r1 := loadOrGenerateIdentity fuel
              (set_newestVersionSeen (compiled_version K) s) in
  let r := Node_ctor K fuel ov s in
  match outcome r1 with
  | Returned _ =>
      RR_identity (final r) = RR_identity (final r1) /\
      exists l,
        emitted r = emitted r1 ++ l /\
        Forall (fun c => is_dataStorePut c = false /\ is_identityGenerate c = false) l
  | _ => outcome r = outcome r1 /\ final r = final r1 /\ emitted r = emitted r1
  end.
Proof.
  cbv zeta. unfold Node_ctor.
  set (rest := fun _ : unit => bind (call CallSubsystemsNew (subsystems_new C)) _).
  assert (Hrest : obeys (keeps RR_identity)
            (fun c => is_dataStorePut c = false /\ is_identityGenerate c = false)
            (rest tt)).
  { subst rest. cbv beta.
    fapply obeys_bind; [fapply obeys_call; cbn; auto | intros _].
    fapply obeys_bind; [fapply rootTopology_obeys; cbn; auto | intros rt].
    fapply obeys_bind; [cbv zeta; fapply obeys_call; cbn; auto | intros _].
    fapply postEvent_obeys. cbn. auto. }
  rewrite bind_modify. cbn [outcome final emitted].
  fold (compiled_version K).
  remember (set_newestVersionSeen (compiled_version K) s) as s0 eqn:Hs0.
  clear Hs0.
  destruct (outcome (loadOrGenerateIdentity fuel s0)) as [[]| | |] eqn:E.
  - destruct (bind_step (loadOrGenerateIdentity fuel) rest s0 tt E) as (_ & -> & ->).
    destruct (Hrest (final (loadOrGenerateIdentity fuel s0))) as [Hk Hp].
    split; [exact Hk | eauto].
  - destruct (bind_stop (loadOrGenerateIdentity fuel) rest s0) as (-> & ->);
      [rewrite E; discriminate |].
    unfold bind. rewrite E. auto.
  - destruct (bind_stop (loadOrGenerateIdentity fuel) rest s0) as (-> & ->);
      [rewrite E; discriminate |].
    unfold bind. rewrite E. auto.
  - destruct (bind_stop (loadOrGenerateIdentity fuel) rest s0) as (-> & ->);
      [rewrite E; discriminate |].
    unfold bind. rewrite E. auto.
Qed.


End Construction.


(** * Further properties of the code *)

(** ** The tick as a whole *)

Section TickProperties.

Context (K : Constants) {C : Collaborators}.

#[global] Instance keeps_nextBackgroundTaskDeadline :
  Frame (keeps (@nextBackgroundTaskDeadline C)).
Proof. apply keeps_frame. reflexivity. Qed.

#[global] Instance keeps_now : Frame (keeps (@_now C)).
Proof. apply keeps_frame. reflexivity. Qed.

(** X1.  [processBackgroundTasks] never throws, and the only codes
    [ZT1_Node_processBackgroundTasks] returns are OK and the internal
    error: an exception of a collaborator, [std::bad_alloc] included, is
    caught inside the tick and reported as the internal error, so the
    binding's out-of-memory clause is never taken. *)
Theorem tick_binding_codes now (s : State C) :
  (forall x, outcome (processBackgroundTasks K now s) <> Threw x) /\
  (forall rc, outcome (ZT1_Node_processBackgroundTasks K now s) = Returned rc ->
     rc = ZT1_RESULT_OK \/ rc = ZT1_RESULT_FATAL_ERROR_INTERNAL).
Proof.
  unfold ZT1_Node_processBackgroundTasks. rewrite try_catch_bad_alloc_ret_outcome.
  destruct (outcome (processBackgroundTasks K now s)) as [rc'|x| |] eqn:E.
  - split; [discriminate |]. intros rc H.
    apply (processBackgroundTasks_codes K now s). congruence.
  - destruct (processBackgroundTasks_never_throws K now s x E).
  - split; discriminate.
  - split; discriminate.
Qed.

Lemma computeDeadline_fails now (s : State C) :
  outcome (computeDeadline K now s) <> Returned None ->
  exists x e',
    sw_doTimerTasks C now (ext s) = (inl x, e') /\
    outcome (computeDeadline K now s) = Returned (Some ZT1_RESULT_FATAL_ERROR_INTERNAL) /\
    final (computeDeadline K now s) = set_ext e' s /\
    emitted (computeDeadline K now s) = [CallDoTimerTasks now (inl x)].
Proof.
  unfold computeDeadline, try_or_return_internal, try_catch_all, bind, call_r.
  destruct (sw_doTimerTasks C now (ext s)) as [[x|interval] e']; cbn.
  - intros _. exists x, e'. auto.
  - intros H. destruct (H eq_refl).
Qed.

(** X2.  A tick that does not return OK leaves the embedder's deadline
    as it was: the deadline is written only after every subroutine and
    the switch's timer tasks have come back. *)
Theorem failed_tick_keeps_deadline now (s : State C) :
  outcome (processBackgroundTasks K now s) <> Returned ZT1_RESULT_OK ->
  nextBackgroundTaskDeadline (final (processBackgroundTasks K now s))
  = nextBackgroundTaskDeadline s.
Proof.
  intros Hnot.
  destruct (processBackgroundTasks_unfold K now s) as (Ho & -> & _).
  assert (Hst : outcome (tick_stages K now (set_now now s)) <> Returned None).
  { intros H. rewrite H in Ho. exact (Hnot Ho). }
  clear Ho Hnot. unfold tick_stages in *.
  assert (Hp : obeys (keeps nextBackgroundTaskDeadline) any_call
                 (pingCheckIfDue K (C := C) now)).
  { fapply pingCheckIfDue_obeys. intros; exact I. }
  assert (Hh : obeys (keeps nextBackgroundTaskDeadline) any_call
                 (housekeepingIfDue K (C := C) now)).
  { fapply housekeepingIfDue_obeys. intros; exact I. }
  set (s0 := set_now now s) in *.
  destruct (unless_returned_cases (pingCheckIfDue K now)
              (unless_returned (housekeepingIfDue K now) (computeDeadline K now)) s0)
    as [(H1 & Hf & _) | (_ & -> & _)].
  2: { rewrite (proj1 (Hp s0)). reflexivity. }
  rewrite Hf.
  destruct (unless_returned_continue _
              (unless_returned (housekeepingIfDue K now) (computeDeadline K now))
              s0 H1) as (Ho1 & _).
  rewrite Ho1 in Hst. clear Ho1 Hf.
  set (s1 := final (pingCheckIfDue K now s0)) in *.
  assert (Hs1 : nextBackgroundTaskDeadline s1 = nextBackgroundTaskDeadline s)
    by (subst s1; rewrite (proj1 (Hp s0)); reflexivity).
  destruct (unless_returned_cases (housekeepingIfDue K now) (computeDeadline K now) s1)
    as [(H2 & Hf & _) | (_ & -> & _)].
  2: { rewrite (proj1 (Hh s1)). exact Hs1. }
  rewrite Hf.
  destruct (unless_returned_continue _ (computeDeadline K now) s1 H2) as (Ho2 & _).
  rewrite Ho2 in Hst.
  destruct (computeDeadline_fails now _ Hst) as (x & e' & _ & _ & -> & _).
  unfold set_ext. cbn [nextBackgroundTaskDeadline].
  rewrite (proj1 (Hh s1)). exact Hs1.
Qed.

(** X3.  A tick that comes before both gates are due does nothing but
    advance the clock and ask the switch for its timer tasks: that call
    is its only outside call, the deadline is set from its answer, and if
    the switch throws the tick returns the internal error with the
    deadline untouched. *)
Theorem early_tick now (s : State C) :
  u64 (now - _lastPingCheck s) < ZT_PING_CHECK_INVERVAL K ->
  u64 (now - _lastHousekeepingRun s) < ZT_HOUSEKEEPING_PERIOD K ->
  let r := processBackgroundTasks K now s in
  let sw := sw_doTimerTasks C now (ext s) in
  emitted r = [CallDoTimerTasks now sw.1] /\
  match sw.1 with
  | inr interval =>
      outcome r = Returned ZT1_RESULT_OK /\
      final r
      = set_nextBackgroundTaskDeadline
          (u64 (now + Z.max (Z.min (ZT_PING_CHECK_INVERVAL K) interval)
                            (ZT_CORE_TIMER_TASK_GRANULARITY K)))
          (set_ext sw.2 (set_now now s))
  | inl _ =>
      outcome r = Returned ZT1_RESULT_FATAL_ERROR_INTERNAL /\
      final r = set_ext sw.2 (set_now now s)
  end.
Proof.
  intros Hp Hh. cbv zeta.
  destruct (processBackgroundTasks_unfold K now s) as (-> & -> & ->).
  unfold tick_stages.
  destruct (pingCheckIfDue_not_due K now (set_now now s) Hp) as (Hf1 & He1 & Ho1).
  destruct (unless_returned_continue _
              (unless_returned (housekeepingIfDue K now) (computeDeadline K now))
              _ Ho1) as (-> & -> & ->).
  rewrite Hf1, He1. cbn [app].
  destruct (housekeepingIfDue_not_due K now (set_now now s) Hh) as (Hf2 & He2 & Ho2).
  destruct (unless_returned_continue _ (computeDeadline K now) _ Ho2)
    as (-> & -> & ->).
  rewrite Hf2, He2. cbn [app].
  unfold computeDeadline, try_or_return_internal, try_catch_all, bind, call_r.
  cbn [ext set_now].
  destruct (sw_doTimerTasks C now (ext s)) as [[x|interval] e']; cbn; auto.
Qed.

Lemma housekeepingIfDue_open now (s : State C) :
  ZT_HOUSEKEEPING_PERIOD K <= u64 (now - _lastHousekeepingRun s) ->
  housekeepingIfDue K now s = housekeeping now s.
Proof.
  intros H. apply Z.leb_le in H.
  unfold housekeepingIfDue, bind, get. cbn [outcome final emitted app].
  rewrite H. apply result_eta.
Qed.

Lemma housekeeping_clean_throws now (s : State C) x :
  (topology_clean C now (ext s)).1 = inl x ->
  outcome (housekeeping now s) = Returned (Some ZT1_RESULT_FATAL_ERROR_INTERNAL) /\
  emitted (housekeeping now s) = [CallTopologyClean now].
Proof.
  intros Hx.
  unfold housekeeping, unless_returned, try_or_return_internal, try_catch_all,
    bind, modify, call, call_r, ret.
  cbn [outcome final emitted app ext set_lastHousekeepingRun].
  destruct (topology_clean C now (ext s)) as [[y|[]] e']; cbn in Hx;
    [| discriminate].
  split; reflexivity.
Qed.

(** X4.  The first failure ends the tick: when the topology's [clean]
    throws, the multicaster's [clean] and the switch's timer tasks are
    not called; the tick returns the internal error right after the
    calls of the peer-liveness subroutine and the failed [clean]. *)
Theorem housekeeping_failure_ends_tick now (s : State C) x :
  let ping := pingCheckIfDue K now (set_now now s) in
  outcome ping = Returned None ->
  ZT_HOUSEKEEPING_PERIOD K <= u64 (now - _lastHousekeepingRun s) ->
  (topology_clean C now (ext (final ping))).1 = inl x ->
  outcome (processBackgroundTasks K now s)
  = Returned ZT1_RESULT_FATAL_ERROR_INTERNAL /\
  emitted (processBackgroundTasks K now s) = emitted ping ++ [CallTopologyClean now].
Proof.
  cbv zeta. intros Hping Hgate Hx.
  destruct (processBackgroundTasks_unfold K now s) as (-> & _ & ->).
  unfold tick_stages.
  destruct (unless_returned_continue _
              (unless_returned (housekeepingIfDue K now) (computeDeadline K now))
              _ Hping) as (-> & _ & ->).
  set (s1 := final (pingCheckIfDue K now (set_now now s))) in *.
  assert (Hk : _lastHousekeepingRun s1 = _lastHousekeepingRun s).
  { subst s1.
    assert (Hp : obeys (keeps _lastHousekeepingRun) any_call
                   (pingCheckIfDue K (C := C) now)).
    { fapply pingCheckIfDue_obeys. intros; exact I. }
    rewrite (proj1 (Hp _)). reflexivity. }
  assert (Hhk : outcome (housekeepingIfDue K now s1)
                = Returned (Some ZT1_RESULT_FATAL_ERROR_INTERNAL) /\
                emitted (housekeepingIfDue K now s1) = [CallTopologyClean now]).
  { rewrite housekeepingIfDue_open by (rewrite Hk; exact Hgate).
    apply housekeeping_clean_throws with x. exact Hx. }
  destruct Hhk as (Ho & He).
  destruct (unless_returned_stop (housekeepingIfDue K now) (computeDeadline K now) s1)
    as (-> & _ & ->); [rewrite Ho; discriminate |].
  rewrite Ho, He. auto.
Qed.

(** X5.  A tick never writes the registry, the identity or the stored
    version, and every outside call it makes is a ping, a request for a
    network configuration, a [clean] or the switch's timer tasks. *)
Theorem tick_footprint now (s : State C) :
  let r := processBackgroundTasks K now s in
  _networks (final r) = _networks s /\
  RR_identity (final r) = RR_identity s /\
  _newestVersionSeen (final r) = _newestVersionSeen s /\
  Forall (fun c => is_tick_call c = true) (emitted r).
Proof.
  cbv zeta. repeat split.
  - fapply (processBackgroundTasks_obeys K (keeps _networks) any_call).
    intros; exact I.
  - fapply (processBackgroundTasks_obeys K (keeps RR_identity) any_call).
    intros; exact I.
  - fapply (processBackgroundTasks_obeys K (keeps _newestVersionSeen) any_call).
    intros; exact I.
  - fapply (processBackgroundTasks_obeys K (keeps _networks)
             (fun c => is_tick_call c = true)). auto.
Qed.

End TickProperties.

Lemma tick_binding_codes_witness :
  outcome (ZT1_Node_processBackgroundTasks sample_constants 130000
             (initial_state (C := sample_collaborators) sample_ext_clean_no_memory 0 0))
  = Returned ZT1_RESULT_FATAL_ERROR_INTERNAL.
Proof.
  destruct (proj2 (tick_binding_codes sample_constants 130000
                     (initial_state (C := sample_collaborators)
                        sample_ext_clean_no_memory 0 0))
              ZT1_RESULT_FATAL_ERROR_INTERNAL) as [H|H].
  - vm_compute. reflexivity.
  - discriminate H.
  - vm_compute. reflexivity.
Defined.

Lemma failed_tick_keeps_deadline_witness :
  nextBackgroundTaskDeadline
    (final (processBackgroundTasks sample_constants 7000
              (set_nextBackgroundTaskDeadline 6000
                 (initial_state (C := sample_collaborators)
                    sample_ext_timer_no_memory 0 0))))
  = 6000.
Proof.
  rewrite (failed_tick_keeps_deadline sample_constants 7000).
  - reflexivity.
  - vm_compute. discriminate.
Defined.

Lemma early_tick_witness :
  emitted (processBackgroundTasks sample_constants 5000 (sample_node 300))
  = [CallDoTimerTasks 5000 (inr 300)].
Proof.
  apply (early_tick sample_constants 5000 (sample_node 300)); vm_compute; reflexivity.
Defined.

Lemma housekeeping_failure_ends_tick_witness :
  emitted (processBackgroundTasks sample_constants 130000
             (initial_state (C := sample_collaborators) sample_ext_clean_no_memory 0 0))
  = [CallTopologyClean 130000].
Proof.
  apply (housekeeping_failure_ends_tick sample_constants 130000
           (initial_state (C := sample_collaborators) sample_ext_clean_no_memory 0 0)
           bad_alloc).
  - vm_compute. reflexivity.
  - vm_compute. discriminate.
  - vm_compute. reflexivity.
Defined.

(** ** Which peers are pinged, which networks are asked *)

Section Visits.

Context (K : Constants) {C : Collaborators}.

Lemma _PingPeersThatNeedPing_call_cases sn now (p : Peer C) lr0 (s : State C) :
  let r := _PingPeersThatNeedPing_call sn now p lr0 s in
  if needs_ping sn now (ext s) p then
    emitted r = [CallDoPingAndKeepalive p now] /\
    final r = set_ext (peer_doPingAndKeepalive C p now (ext s)).2 s
  else
    emitted r = [] /\ final r = s /\ outcome r = Returned lr0.
Proof.
  unfold _PingPeersThatNeedPing_call, needs_ping, bind, get, call, call_r, ret.
  destruct (bool_decide (peer_address C p ∈ sn)); cbn.
  - destruct (peer_doPingAndKeepalive C p now (ext s)) as [[x|[]] e']; cbn; auto.
  - destruct (peer_alive C p now (ext s)); cbn; auto.
    destruct (peer_doPingAndKeepalive C p now (ext s)) as [[x|[]] e']; cbn; auto.
Qed.

Lemma eachPeer_pings sn now (Halive : pings_keep_alive C) (peers : list (Peer C)) :
  forall lr0 (s : State C),
    let pings :=
      map (fun p => CallDoPingAndKeepalive p now)
        (filter (fun p => needs_ping sn now (ext s) p = true) peers) in
    emitted (eachPeer sn now peers lr0 s) `prefix_of` pings /\
    (forall lr, outcome (eachPeer sn now peers lr0 s) = Returned lr ->
       emitted (eachPeer sn now peers lr0 s) = pings).
Proof.
  induction peers as [|p peers IH]; intros lr0 s; cbn zeta.
  - cbn. split; [reflexivity | auto].
  - cbn [eachPeer].
    pose proof (_PingPeersThatNeedPing_call_cases sn now p lr0 s) as Hc.
    cbv zeta in Hc.
    destruct (needs_ping sn now (ext s) p) eqn:Hp.
    + rewrite filter_cons_True by exact Hp. cbn [map].
      destruct Hc as (Hem & Hfin).
      destruct (outcome (_PingPeersThatNeedPing_call sn now p lr0 s))
        as [lr1|x| |] eqn:Ho.
      * destruct (bind_step _ (fun lr => eachPeer sn now peers lr) s lr1 Ho)
          as (-> & _ & ->).
        rewrite Hem, Hfin. cbn [app].
        destruct (IH lr1 (set_ext (peer_doPingAndKeepalive C p now (ext s)).2 s))
          as (Hpre & Hall).
        cbn zeta in Hpre, Hall. cbn [ext set_ext] in Hpre, Hall.
        assert (Hf : filter (fun q => needs_ping sn now
                        (peer_doPingAndKeepalive C p now (ext s)).2 q = true) peers
                     = filter (fun q => needs_ping sn now (ext s) q = true) peers).
        { apply list_filter_iff. intros q. unfold needs_ping.
          rewrite Halive. reflexivity. }
        rewrite Hf in Hpre, Hall.
        split.
        -- apply prefix_cons. exact Hpre.
        -- intros lr Hr. f_equal. exact (Hall lr Hr).
      * split.
        -- destruct (bind_stop (_PingPeersThatNeedPing_call sn now p lr0)
                       (fun lr => eachPeer sn now peers lr) s)
             as (_ & ->); [rewrite Ho; discriminate |].
           rewrite Hem. apply prefix_cons, prefix_nil.
        -- intros lr Hr. apply bind_Returned in Hr as (a & Hr & _). congruence.
      * split.
        -- destruct (bind_stop (_PingPeersThatNeedPing_call sn now p lr0)
                       (fun lr => eachPeer sn now peers lr) s)
             as (_ & ->); [rewrite Ho; discriminate |].
           rewrite Hem. apply prefix_cons, prefix_nil.
        -- intros lr Hr. apply bind_Returned in Hr as (a & Hr & _). congruence.
      * split.
        -- destruct (bind_stop (_PingPeersThatNeedPing_call sn now p lr0)
                       (fun lr => eachPeer sn now peers lr) s)
             as (_ & ->); [rewrite Ho; discriminate |].
           rewrite Hem. apply prefix_cons, prefix_nil.
        -- intros lr Hr. apply bind_Returned in Hr as (a & Hr & _). congruence.
    + rewrite filter_cons_False by (rewrite Hp; discriminate).
      destruct Hc as (Hem & Hfin & Ho).
      destruct (bind_step _ (fun lr => eachPeer sn now peers lr) s lr0 Ho)
        as (-> & _ & ->).
      rewrite Hem, Hfin. cbn [app]. exact (IH lr0 s).
Qed.

(** X6.  A ping check pings the supernodes and, of the other peers, the
    ones that are alive, in the order the topology lists them, each at
    most once and nobody else; when a ping throws, the peers after it are
    not visited.  (Sending a ping is taken not to change which peers
    count as alive.) *)
Theorem pinged_peers now (s : State C) :
  pings_keep_alive C ->
  let r := _PingPeersThatNeedPing now s in
  let pings :=
    map (fun p => CallDoPingAndKeepalive p now)
      (filter (fun p => needs_ping (topology_supernodeAddresses C (ext s)) now
                          (ext s) p = true)
         (topology_activePeers C (ext s))) in
  emitted r `prefix_of` pings /\
  (forall lr, outcome r = Returned lr -> emitted r = pings).
Proof.
  intros Halive. cbv zeta.
  assert (E : _PingPeersThatNeedPing now s
              = eachPeer (topology_supernodeAddresses C (ext s)) now
                  (topology_activePeers C (ext s)) 0 s).
  { unfold _PingPeersThatNeedPing, bind, get. cbn [outcome final emitted app].
    apply result_eta. }
  rewrite E. apply (eachPeer_pings _ now Halive).
Qed.

Lemma requestConfigurations_cons now k (nw : Network C) l (s : State C) :
  requestConfigurations K now ((k, Some nw) :: l) s
  = bind (if needs_configuration K now (ext s) nw
          then call (CallNetworkRequestConfiguration nw)
                 (network_requestConfiguration C nw)
          else ret tt)
      (fun _ => requestConfigurations K now l) s.
Proof.
  cbn [requestConfigurations]. unfold bind at 1, get, needs_configuration.
  cbn [outcome final emitted app]. apply result_eta.
Qed.

Lemma requestConfigurations_requests now
    (Hkeep : requests_keep_lastConfigUpdate C)
    (l : list (Z * option (Network C))) :
  forall s : State C,
    let requests :=
      map CallNetworkRequestConfiguration
        (filter (fun nw => needs_configuration K now (ext s) nw = true)
           (present_networks l)) in
    emitted (requestConfigurations K now l s) `prefix_of` requests /\
    (forall u, outcome (requestConfigurations K now l s) = Returned u ->
       emitted (requestConfigurations K now l s) = requests).
Proof.
  induction l as [|[k [nw|]] l IH]; intros s; cbn zeta.
  - cbn. split; [reflexivity | auto].
  - rewrite requestConfigurations_cons.
    change (present_networks ((k, Some nw) :: l)) with (nw :: present_networks l).
    destruct (needs_configuration K now (ext s) nw) eqn:Hd.
    + rewrite filter_cons_True by exact Hd. cbn [map].
      set (c := call (CallNetworkRequestConfiguration nw)
                  (network_requestConfiguration C nw)).
      assert (Hem : emitted (c s) = [CallNetworkRequestConfiguration nw])
        by apply call_emitted.
      assert (Hfin : final (c s)
                     = set_ext (network_requestConfiguration C nw (ext s)).2 s)
        by apply call_final.
      destruct (IH (set_ext (network_requestConfiguration C nw (ext s)).2 s))
        as (Hpre & Hall).
      cbn zeta in Hpre, Hall. cbn [ext set_ext] in Hpre, Hall.
      assert (Hf : filter (fun n => needs_configuration K now
                        (network_requestConfiguration C nw (ext s)).2 n = true)
                     (present_networks l)
                   = filter (fun n => needs_configuration K now (ext s) n = true)
                       (present_networks l)).
      { apply list_filter_iff. intros n. unfold needs_configuration.
        rewrite Hkeep. reflexivity. }
      rewrite Hf in Hpre, Hall.
      destruct (outcome (c s)) as [[]|x| |] eqn:Ho.
      * destruct (bind_step c (fun _ => requestConfigurations K now l) s tt Ho)
          as (-> & _ & ->).
        rewrite Hem, Hfin. cbn [app]. split.
        -- apply prefix_cons. exact Hpre.
        -- intros u Hr. f_equal. exact (Hall u Hr).
      * split.
        -- destruct (bind_stop c (fun _ => requestConfigurations K now l) s)
             as (_ & ->); [rewrite Ho; discriminate |].
           rewrite Hem. apply prefix_cons, prefix_nil.
        -- intros u Hr. apply bind_Returned in Hr as (a & Hr & _). congruence.
      * split.
        -- destruct (bind_stop c (fun _ => requestConfigurations K now l) s)
             as (_ & ->); [rewrite Ho; discriminate |].
           rewrite Hem. apply prefix_cons, prefix_nil.
        -- intros u Hr. apply bind_Returned in Hr as (a & Hr & _). congruence.
      * split.
        -- destruct (bind_stop c (fun _ => requestConfigurations K now l) s)
             as (_ & ->); [rewrite Ho; discriminate |].
           rewrite Hem. apply prefix_cons, prefix_nil.
        -- intros u Hr. apply bind_Returned in Hr as (a & Hr & _). congruence.
    + rewrite filter_cons_False by (rewrite Hd; discriminate).
      destruct (bind_step (ret tt) (fun _ => requestConfigurations K now l) s tt eq_refl)
        as (-> & _ & ->).
      cbn [ret final emitted app]. exact (IH s).
  - cbn [requestConfigurations]. unfold undefined. cbn. split.
    + apply prefix_nil.
    + discriminate.
Qed.

Lemma requestConfigurations_no_null now (l : list (Z * option (Network C))) :
  forall (s : State C) u,
    outcome (requestConfigurations K now l s) = Returned u ->
    Forall (fun entry => entry.2 <> None) l.
Proof.
  induction l as [|[k [nw|]] l IH]; intros s u Hr.
  - constructor.
  - rewrite requestConfigurations_cons in Hr.
    apply bind_Returned in Hr as (a & _ & Hr & _).
    constructor; [discriminate | exact (IH _ _ Hr)].
  - discriminate Hr.
Qed.

(** X7.  The loop over the registry asks for a configuration exactly the
    networks whose last configuration is at least the autoconf delay
    old, in the order of the registry, and stops at the first request
    that throws; it runs to its end only if no entry of the registry is
    null.  (Asking one network is taken not to change when another was
    last configured.) *)
Theorem requested_configurations now (s : State C) :
  requests_keep_lastConfigUpdate C ->
  let r := requestConfigurations K now (networks_in_order (_networks s)) s in
  let requests :=
    map CallNetworkRequestConfiguration
      (filter (fun nw => needs_configuration K now (ext s) nw = true)
         (present_networks (networks_in_order (_networks s)))) in
  emitted r `prefix_of` requests /\
  (forall u, outcome r = Returned u ->
     emitted r = requests /\
     forall nwid, _networks s !! nwid <> Some None).
Proof.
  intros Hkeep. cbv zeta.
  destruct (requestConfigurations_requests now Hkeep
              (networks_in_order (_networks s)) s) as (Hpre & Hall).
  split; [exact Hpre |]. intros u Hr. split; [exact (Hall u Hr) |].
  intros nwid Hnull.
  pose proof (requestConfigurations_no_null now _ s u Hr) as Hnn.
  apply elem_of_map_to_list in Hnull.
  assert (Hin : (nwid, None) ∈ networks_in_order (_networks s)).
  { unfold networks_in_order. rewrite merge_sort_Permutation. exact Hnull. }
  rewrite Forall_forall in Hnn. exact (Hnn _ Hin eq_refl).
Qed.

(** X8.  While the registry holds a null entry (what a [join] that
    failed leaves behind), a tick whose ping check is due never returns
    OK: the loop over the registry either stops at an exception before
    it reaches the entry, or calls through the null pointer. *)
Theorem null_entry_fails_tick now (s : State C) nwid :
  _networks s !! nwid = Some None ->
  ZT_PING_CHECK_INVERVAL K <= u64 (now - _lastPingCheck s) ->
  outcome (processBackgroundTasks K now s) <> Returned ZT1_RESULT_OK.
Proof.
  intros Hnull Hdue Hok.
  destruct (processBackgroundTasks_OK K now s Hok) as (s1 & s2 & H).
  cbv zeta in H. destruct H as (Hping & _).
  destruct (pingCheckIfDue_due K now (set_now now s) Hdue) as (_ & _ & Ho).
  rewrite Ho, pingCheck_unfold in Hping. clear Ho.
  match type of Hping with
  | outcome (unless_returned ?a ?b ?st) = _ =>
      set (A := a) in *; set (B := b) in *; set (s0 := st) in *
  end.
  destruct (outcome (A s0)) as [[rc|]|x| |] eqn:HA.
  2: { destruct (unless_returned_continue A B s0 HA) as (HB & _).
       rewrite HB in Hping. clear HB.
       assert (Hnet : _networks (final (A s0)) = _networks s).
       { assert (HAk : obeys (keeps _networks) any_call A).
         { subst A. fapply obeys_try_or_return_internal.
           fapply obeys_bind.
           - fapply _PingPeersThatNeedPing_obeys. intros; exact I.
           - intros lr. fapply obeys_bind; [fapply obeys_get |].
             intros s'. apply obeys_modify. intros s''. reflexivity. }
         rewrite (proj1 (HAk s0)). reflexivity. }
       subst B.
       match type of Hping with
       | outcome (try_or_return_internal ?body ?st) = _ =>
           pose proof (try_or_return_internal_outcome body st) as (Hb & _);
           destruct (outcome (body st)) as [u|x| |] eqn:Hbody;
           [| congruence | congruence | congruence]
       end.
       apply bind_Returned in Hbody as (st' & Hget & Hreq & _).
       cbn in Hget. injection Hget as <-. cbn [get final] in Hreq.
       apply requestConfigurations_no_null in Hreq.
       rewrite Hnet in Hreq.
       apply elem_of_map_to_list in Hnull.
       assert (Hin : (nwid, None) ∈ networks_in_order (_networks s)).
       { unfold networks_in_order. rewrite merge_sort_Permutation. exact Hnull. }
       rewrite Forall_forall in Hreq. exact (Hreq _ Hin eq_refl). }
  all: destruct (unless_returned_stop A B s0) as (HB & _);
    [rewrite HA; discriminate |]; rewrite HB, HA in Hping; discriminate.
Qed.

End Visits.

Lemma pinged_peers_witness :
  emitted (_PingPeersThatNeedPing 7000
             (initial_state (C := sample_collaborators) sample_ext_two_peers 0 0))
  = [CallDoPingAndKeepalive (C := sample_collaborators) (1, 100) 7000;
     CallDoPingAndKeepalive (C := sample_collaborators) (2, 5000) 7000].
Proof.
  destruct (pinged_peers (C := sample_collaborators) 7000
              (initial_state (C := sample_collaborators) sample_ext_two_peers 0 0))
    as (_ & H).
  - intros p q now t e. reflexivity.
  - rewrite (H 100); vm_compute; reflexivity.
Defined.

Lemma requested_configurations_witness :
  let s := final (join 7 (final (join 5 (sample_node 300)))) in
  emitted (requestConfigurations sample_constants 70000
             (networks_in_order (_networks s)) s)
  = [CallNetworkRequestConfiguration (C := sample_collaborators) 5;
     CallNetworkRequestConfiguration (C := sample_collaborators) 7].
Proof.
  cbv zeta.
  destruct (requested_configurations sample_constants (C := sample_collaborators) 70000
              (final (join 7 (final (join 5 (sample_node 300))))))
    as (_ & H).
  - intros nw nw' e. reflexivity.
  - destruct (H tt) as (-> & _); vm_compute; reflexivity.
Defined.

Lemma null_entry_fails_tick_witness :
  let s := final (join 5 (initial_state (C := sample_collaborators)
                            sample_ext_no_memory 0 0)) in
  _networks s !! 5 = Some None /\
  outcome (processBackgroundTasks sample_constants 7000 s) <> Returned ZT1_RESULT_OK.
Proof.
  cbv zeta. split.
  - vm_compute. reflexivity.
  - apply (null_entry_fails_tick sample_constants (C := sample_collaborators) 7000 _ 5).
    + vm_compute. reflexivity.
    + vm_compute. discriminate.
Defined.

(** ** The registry of networks *)

Section RegistryProperties.

Context (K : Constants) {C : Collaborators}.

Lemma try_catch_all_outcome {A} (m h : M C A) (s : State C) :
  (forall x, outcome (m s) <> Threw x) ->
  try_catch_all m h s = m s.
Proof.
  intros H. unfold try_catch_all. cbv zeta.
  destruct (outcome (m s)) as [a|x| |] eqn:E; try reflexivity.
  destruct (H x eq_refl).
Qed.

Lemma result_ext {A} (r : Result C A) o f e :
  outcome r = o -> final r = f -> emitted r = e -> r = mkResult o f e.
Proof. destruct r. cbn. congruence. Qed.

(** X9.  A [join] whose network cannot be constructed leaves a null
    entry behind: the binding returns the out-of-memory or the internal
    error, the registry now maps [nwid] to a null pointer, and both
    [ZT1_Node_networkConfig] and [ZT1_Node_leave] for that network then
    call through the null pointer. *)
Theorem failed_join_leaves_null_entry nwid (s : State C) x :
  _networks s !! nwid = None ->
  (network_new C nwid (ext s)).1 = inl x ->
  let s' := final (ZT1_Node_join nwid s) in
  outcome (ZT1_Node_join nwid s) = Returned (binding_failure x) /\
  _networks s' = <[nwid := None]> (_networks s) /\
  outcome (ZT1_Node_networkConfig nwid s') = Undefined /\
  outcome (ZT1_Node_leave nwid s') = Undefined.
Proof.
  intros Habs Hx. cbv zeta. unfold ZT1_Node_join.
  destruct (try_catch_bad_alloc_ret_final (join nwid)
              ZT1_RESULT_FATAL_ERROR_OUT_OF_MEMORY ZT1_RESULT_FATAL_ERROR_INTERNAL s)
    as (-> & _).
  rewrite try_catch_bad_alloc_ret_outcome.
  destruct (join_not_present nwid s) as (_ & H); [congruence |].
  rewrite Habs in H.
  destruct (network_new C nwid (ext s)) as [[y|nw] e']; cbn [fst] in Hx;
    [| discriminate].
  injection Hx as ->. destruct H as (-> & ->).
  assert (Hnull : _networks (set_ext e' (set_networks (<[nwid:=None]> (_networks s)) s))
                  !! nwid = Some None).
  { cbn. apply lookup_insert_eq. }
  split; [destruct x; reflexivity |]. split; [reflexivity |]. split.
  - apply networkConfig_null_entry, Hnull.
  - unfold ZT1_Node_leave. rewrite try_catch_bad_alloc_ret_outcome.
    pose proof (leave_spec nwid
                  (set_ext e' (set_networks (<[nwid:=None]> (_networks s)) s))) as Hl.
    rewrite Hnull in Hl. destruct Hl as (-> & _). reflexivity.
Qed.

(** X10.  Joining a network the node does not know and leaving it again
    gives the registry back as it was, and the network destroyed is the
    one that was constructed. *)
Theorem join_then_leave nwid (s : State C) :
  _networks s !! nwid = None ->
  outcome (join nwid s) = Returned ZT1_RESULT_OK ->
  outcome (leave nwid (final (join nwid s))) = Returned None ->
  _networks (final (leave nwid (final (join nwid s)))) = _networks s /\
  exists nw,
    (network_new C nwid (ext s)).1 = inr nw /\
    emitted (join nwid s) ++ emitted (leave nwid (final (join nwid s)))
    = [CallNetworkNew nwid; CallNetworkDestroy nw].
Proof.
  intros Habs Hj Hl.
  destruct (join_not_present nwid s) as (Hej & H); [congruence |].
  rewrite Habs in H.
  destruct (network_new C nwid (ext s)) as [[y|nw] e']; destruct H as (Hoj & Hfj).
  - congruence.
  - rewrite Hfj in *. clear Hfj.
    set (s1 := set_networks _ _) in *.
    assert (Hin : _networks s1 !! nwid = Some (Some nw)).
    { subst s1. cbn. apply lookup_insert_eq. }
    pose proof (leave_spec nwid s1) as Hs. rewrite Hin in Hs.
    destruct Hs as (Hel & Hs).
    destruct (network_destroy C nw (ext s1)) as [[z|[]] e'']; destruct Hs as (Hol & Hfl).
    + congruence.
    + rewrite Hfl, Hej, Hel. split; [| exists nw; auto].
      subst s1. cbn. rewrite delete_insert_eq, delete_insert_id; [reflexivity |].
      exact Habs.
Qed.

(** X11.  [ZT1_Node_leave] hands its caller a result code only when the
    network's [destroy] throws; the code is then the out-of-memory or
    the internal error, and the network has not been removed from the
    registry. *)
Theorem leave_code_means_failure nwid (s : State C) rc :
  outcome (ZT1_Node_leave nwid s) = Returned (Some rc) ->
  exists nw x,
    _networks s !! nwid = Some (Some nw) /\
    (network_destroy C nw (ext s)).1 = inl x /\
    rc = binding_failure x /\
    _networks (final (ZT1_Node_leave nwid s)) = _networks s.
Proof.
  unfold ZT1_Node_leave.
  destruct (try_catch_bad_alloc_ret_final (leave nwid)
              (Some ZT1_RESULT_FATAL_ERROR_OUT_OF_MEMORY)
              (Some ZT1_RESULT_FATAL_ERROR_INTERNAL) s) as (-> & _).
  rewrite try_catch_bad_alloc_ret_outcome.
  pose proof (leave_spec nwid s) as Hs.
  destruct (_networks s !! nwid) as [[nw|]|] eqn:E.
  - destruct Hs as (_ & Hs).
    destruct (network_destroy C nw (ext s)) as [[x|[]] e'] eqn:Ed;
      destruct Hs as (-> & ->).
    + intros H. exists nw, x.
      split; [reflexivity |]. split; [rewrite Ed; reflexivity |].
      split; [destruct x; cbn in H |- *; congruence | reflexivity].
    + discriminate.
  - destruct Hs as (-> & _). discriminate.
  - rewrite Hs. discriminate.
Qed.

Lemma adi_truncated a k :
  u32 (Z.land (a + k * 2 ^ 32) 4294967295) = u32 (Z.land a 4294967295).
Proof.
  change 4294967295 with (Z.ones 32).
  rewrite !Z.land_ones by lia. rewrite Z.mod_add by lia. reflexivity.
Qed.

(** X12.  The two multicast methods look only at the low 32 bits of the
    ADI: values that differ by a multiple of 2^32 are the same
    subscription. *)
Theorem multicast_adi_truncated nwid g a k (s : State C) :
  multicastSubscribe nwid g (a + k * 2 ^ 32) s = multicastSubscribe nwid g a s /\
  multicastUnsubscribe nwid g (a + k * 2 ^ 32) s = multicastUnsubscribe nwid g a s.
Proof.
  unfold multicastSubscribe, multicastUnsubscribe. cbv zeta.
  rewrite !adi_truncated. split; reflexivity.
Qed.

Lemma multicast_call_spec (f : Network C -> Ext C -> (exception + unit) * Ext C)
    (c : Network C -> Call C) nwid (s : State C) :
  let r := try_catch_bad_alloc
             (bind get (fun s0 =>
                bind match _networks s0 !! nwid with
                     | Some (Some nw) => call (c nw) (f nw)
                     | Some None => undefined
                     | None => ret tt
                     end (fun _ => ret None)))
             (ret (Some ZT1_RESULT_FATAL_ERROR_OUT_OF_MEMORY))
             (ret (Some ZT1_RESULT_FATAL_ERROR_INTERNAL)) s in
  match _networks s !! nwid with
  | Some (Some nw) =>
      outcome r = Returned match (f nw (ext s)).1 with
                           | inl x => Some (binding_failure x)
                           | inr _ => None
                           end /\
      final r = set_ext (f nw (ext s)).2 s /\ emitted r = [c nw]
  | Some None => outcome r = Undefined /\ final r = s /\ emitted r = []
  | None => outcome r = Returned None /\ final r = s /\ emitted r = []
  end.
Proof.
  cbv zeta. rewrite try_catch_bad_alloc_ret_outcome.
  match goal with
  | |- context [try_catch_bad_alloc ?m (ret ?a) (ret ?b) s] =>
      destruct (try_catch_bad_alloc_ret_final m a b s) as (-> & ->)
  end.
  unfold bind, get, call, call_r, undefined, ret. cbn [outcome final emitted app].
  destruct (_networks s !! nwid) as [[nw|]|]; cbn [outcome final emitted app]; auto.
  destruct (f nw (ext s)) as [[x|[]] e']; cbn; repeat split; destruct x; reflexivity.
Qed.

(** X13.  The multicast bindings never report an unknown network: for a
    network that is not in the registry they do nothing at all, and when
    they hand their caller a result code it is because the network's own
    method threw (the code is then the out-of-memory or the internal
    error).  The registry is never changed. *)
Theorem multicast_bindings nwid g a (s : State C) :
  let sub := ZT1_Node_multicastSubscribe nwid g a s in
  let unsub := ZT1_Node_multicastUnsubscribe nwid g a s in
  let adi := a mod 2 ^ 32 in
  (_networks s !! nwid = None ->
   sub = mkResult (Returned None) s [] /\ unsub = mkResult (Returned None) s []) /\
  (forall rc, outcome sub = Returned (Some rc) ->
     exists nw x, _networks s !! nwid = Some (Some nw) /\
       (network_multicastSubscribe C nw g adi (ext s)).1 = inl x /\
       rc = binding_failure x) /\
  (forall rc, outcome unsub = Returned (Some rc) ->
     exists nw x, _networks s !! nwid = Some (Some nw) /\
       (network_multicastUnsubscribe C nw g adi (ext s)).1 = inl x /\
       rc = binding_failure x) /\
  _networks (final sub) = _networks s /\ _networks (final unsub) = _networks s.
Proof.
  cbv zeta.
  assert (Hadi : u32 (Z.land a 4294967295) = a mod 2 ^ 32).
  { change 4294967295 with (Z.ones 32). rewrite Z.land_ones by lia.
    unfold u32. rewrite Z.mod_mod by lia. reflexivity. }
  pose proof (multicast_call_spec
                (fun nw => network_multicastSubscribe C nw g (a mod 2 ^ 32))
                (fun nw => CallNetworkMulticastSubscribe nw g (a mod 2 ^ 32)) nwid s)
    as Hs.
  pose proof (multicast_call_spec
                (fun nw => network_multicastUnsubscribe C nw g (a mod 2 ^ 32))
                (fun nw => CallNetworkMulticastUnsubscribe nw g (a mod 2 ^ 32)) nwid s)
    as Hu.
  cbv zeta in Hs, Hu.
  unfold ZT1_Node_multicastSubscribe, ZT1_Node_multicastUnsubscribe,
    multicastSubscribe, multicastUnsubscribe. cbv zeta. rewrite Hadi.
  destruct (_networks s !! nwid) as [[nw|]|] eqn:E.
  - destruct Hs as (Hso & Hsf & _), Hu as (Huo & Huf & _).
    rewrite Hso, Hsf, Huo, Huf. repeat split; try discriminate.
    + intros rc H. exists nw.
      destruct (network_multicastSubscribe C nw g (a mod 2 ^ 32) (ext s))
        as [[x|[]] e']; cbn in H |- *; [| discriminate].
      exists x. repeat split. congruence.
    + intros rc H. exists nw.
      destruct (network_multicastUnsubscribe C nw g (a mod 2 ^ 32) (ext s))
        as [[x|[]] e']; cbn in H |- *; [| discriminate].
      exists x. repeat split. congruence.
  - destruct Hs as (Hso & Hsf & _), Hu as (Huo & Huf & _).
    rewrite Hso, Hsf, Huo, Huf. repeat split; discriminate.
  - destruct Hs as (Hso & Hsf & Hse), Hu as (Huo & Huf & Hue).
    split; [intros _; split |].
    + apply result_ext; assumption.
    + apply result_ext; assumption.
    + rewrite Hso, Hsf, Huo, Huf. repeat split; discriminate.
Qed.

Lemma exec_lookup_other op nwid (s : State C) :
  op <> OpJoin nwid -> op <> OpLeave nwid ->
  _networks (final (exec K op s)) !! nwid = _networks s !! nwid.
Proof.
  intros Hj Hl.
  assert (Hcases : (exists n, op = OpJoin n) \/ (exists n, op = OpLeave n) \/
                   ((forall n, op <> OpJoin n) /\ (forall n, op <> OpLeave n))).
  { destruct op; eauto; right; right; split; discriminate. }
  destruct Hcases as [(n & ->) | [(n & ->) | (Hnj & Hnl)]].
  - rewrite exec_join_final. apply join_lookup_other. congruence.
  - rewrite exec_leave_final. apply leave_lookup_other. congruence.
  - assert (Hk : obeys (keeps _networks) any_call (exec K (C := C) op))
      by (apply exec_keeps_networks; assumption).
    rewrite (proj1 (Hk s)). reflexivity.
Qed.

(** X14.  The entry of a network in the registry is touched by nothing
    but [join] and [leave] of that very network: whatever else is called
    in between (ticks, packets, frames, joins and leaves of other
    networks, failed or not), the entry is the same afterwards. *)
Theorem registry_entry_isolated nwid ops (s s' : State C) :
  Forall (fun op => op <> OpJoin nwid /\ op <> OpLeave nwid) ops ->
  run K ops s = Some s' ->
  _networks s' !! nwid = _networks s !! nwid.
Proof.
  intros Hops. revert s. induction Hops as [|op ops [Hj Hl] _ IH]; intros s Hrun.
  - cbn in Hrun. congruence.
  - apply run_cons in Hrun. rewrite (IH _ Hrun). apply exec_lookup_other; assumption.
Qed.

End RegistryProperties.

Lemma failed_join_leaves_null_entry_witness :
  let s := initial_state (C := sample_collaborators) sample_ext_no_memory 0 0 in
  outcome (ZT1_Node_join 5 s) = Returned ZT1_RESULT_FATAL_ERROR_OUT_OF_MEMORY /\
  outcome (ZT1_Node_networkConfig 5 (final (ZT1_Node_join 5 s))) = Undefined.
Proof.
  cbv zeta.
  destruct (failed_join_leaves_null_entry (C := sample_collaborators) 5
              (initial_state (C := sample_collaborators) sample_ext_no_memory 0 0)
              bad_alloc) as (H1 & _ & H2 & _).
  - vm_compute. reflexivity.
  - vm_compute. reflexivity.
  - split; [exact H1 | exact H2].
Defined.

Lemma join_then_leave_witness :
  _networks (final (leave 5 (final (join 5 (sample_node 300)))))
  = _networks (sample_node 300).
Proof.
  apply (join_then_leave (C := sample_collaborators) 5 (sample_node 300));
    vm_compute; reflexivity.
Defined.

Lemma leave_code_means_failure_witness :
  let s := final (join 5 (initial_state (C := sample_collaborators_strict)
                            sample_ext_no_memory 0 0)) in
  outcome (ZT1_Node_leave 5 s)
  = Returned (Some ZT1_RESULT_FATAL_ERROR_OUT_OF_MEMORY) /\
  _networks (final (ZT1_Node_leave 5 s)) = _networks s.
Proof.
  cbv zeta. split; [vm_compute; reflexivity |].
  destruct (leave_code_means_failure (C := sample_collaborators_strict) 5
              (final (join 5 (initial_state (C := sample_collaborators_strict)
                                sample_ext_no_memory 0 0)))
              ZT1_RESULT_FATAL_ERROR_OUT_OF_MEMORY) as (nw & x & _ & _ & _ & H).
  - vm_compute. reflexivity.
  - exact H.
Defined.

Lemma multicast_bindings_witness :
  let s := final (join 5 (initial_state (C := sample_collaborators_strict)
                            sample_ext_no_memory 0 0)) in
  ZT1_Node_multicastSubscribe 9 1 2 s = mkResult (Returned None) s [] /\
  outcome (ZT1_Node_multicastSubscribe 5 1 2 s)
  = Returned (Some ZT1_RESULT_FATAL_ERROR_OUT_OF_MEMORY) /\
  exists nw x,
    _networks s !! 5 = Some (Some nw) /\
    (network_multicastSubscribe sample_collaborators_strict nw 1
       (2 mod 2 ^ 32) (ext s)).1 = inl x /\
    ZT1_RESULT_FATAL_ERROR_OUT_OF_MEMORY = binding_failure x.
Proof.
  cbv zeta. split; [| split].
  - apply (multicast_bindings (C := sample_collaborators_strict) 9 1 2).
    vm_compute. reflexivity.
  - vm_compute. reflexivity.
  - apply (multicast_bindings (C := sample_collaborators_strict) 5 1 2).
    vm_compute. reflexivity.
Defined.

Lemma registry_entry_isolated_witness :
  exists s',
    run sample_constants
      [OpJoin 7; OpProcessBackgroundTasks 9000; OpLeave 7; OpNetworkConfig 7]
      (final (join 5 (sample_node 300))) = Some s' /\
    _networks s' !! 5 = _networks (final (join 5 (sample_node 300))) !! 5.
Proof.
  eexists. split; [vm_compute; reflexivity |].
  apply (registry_entry_isolated sample_constants (C := sample_collaborators) 5
           [OpJoin 7; OpProcessBackgroundTasks 9000; OpLeave 7; OpNetworkConfig 7]
           (final (join 5 (sample_node 300)))).
  - repeat constructor; discriminate.
  - vm_compute. reflexivity.
Defined.

(** ** The entry points *)

Section EntryPoints.

Context (K : Constants) {C : Collaborators}.

Lemma bind_keeps {X A B} (f : State C -> X) (m : M C A) (k : A -> M C B)
    (s : State C) :
  (forall a, obeys (keeps f) any_call (k a)) ->
  f (final (bind m k s)) = f (final (m s)).
Proof.
  intros Hk. destruct (outcome (m s)) as [a|x| |] eqn:E.
  - destruct (bind_step m k s a E) as (_ & -> & _). apply (Hk a).
  - destruct (bind_stop m k s) as (-> & _); [rewrite E; discriminate | reflexivity].
  - destruct (bind_stop m k s) as (-> & _); [rewrite E; discriminate | reflexivity].
  - destruct (bind_stop m k s) as (-> & _); [rewrite E; discriminate | reflexivity].
Qed.

Lemma tick_clock now (s : State C) :
  _now (final (processBackgroundTasks K now s)) = now.
Proof.
  destruct (processBackgroundTasks_unfold K now s) as (_ & -> & _).
  assert (H : obeys (keeps _now) any_call (tick_stages K (C := C) now)).
  { unfold tick_stages. fapply obeys_unless_returned.
    - fapply pingCheckIfDue_obeys. intros; exact I.
    - fapply rest_of_tick_keeps. }
  rewrite (proj1 (H _)). reflexivity.
Qed.

Lemma preamble_clock now (s : State C) :
  _now (final (backgroundTasksIfDue K now s)) = now.
Proof.
  destruct (Z_lt_le_dec now (nextBackgroundTaskDeadline s)) as [Hlt|Hle].
  - rewrite backgroundTasksIfDue_not_due by exact Hlt. reflexivity.
  - destruct (backgroundTasksIfDue_due K now s Hle) as (_ & -> & _).
    apply tick_clock.
Qed.

(** X15.  Each of the three entry points that take the time leaves the
    node's clock at the time it was given, however it ends: after a
    tick, a wire packet or a frame, [_now] is the [now] of that call. *)
Theorem clock_follows_calls now a d p nwid sm dm et vl fd (s : State C) :
  _now (final (ZT1_Node_processBackgroundTasks K now s)) = now /\
  _now (final (ZT1_Node_processWirePacket K now a d p s)) = now /\
  _now (final (ZT1_Node_processVirtualNetworkFrame K now nwid sm dm et vl fd s)) = now.
Proof.
  unfold ZT1_Node_processBackgroundTasks, ZT1_Node_processWirePacket,
    ZT1_Node_processVirtualNetworkFrame.
  repeat match goal with
  | |- context [try_catch_bad_alloc ?m (ret ?x) (ret ?y) s] =>
      destruct (try_catch_bad_alloc_ret_final m x y s) as (-> & _)
  end.
  split; [apply tick_clock | split].
  - unfold processWirePacket. rewrite bind_keeps; [apply preamble_clock |].
    intros [rc|]; [fapply obeys_ret |].
    fapply obeys_bind; [fapply obeys_call; exact I | intros _; fapply obeys_ret].
  - unfold processVirtualNetworkFrame. rewrite bind_keeps; [apply preamble_clock |].
    intros [rc|]; [fapply obeys_ret |].
    fapply obeys_bind.
    + fapply obeys_try_catch_all; [| fapply obeys_ret].
      fapply obeys_bind.
      * unfold network. fapply obeys_bind; [fapply obeys_get | intros s0; fapply obeys_ret].
      * intros [nw|]; [| fapply obeys_ret].
        fapply obeys_bind; [fapply obeys_call; exact I | intros _; fapply obeys_ret].
    + intros [rc|]; fapply obeys_ret.
Qed.

Lemma preamble_codes now (s : State C) rc :
  outcome (backgroundTasksIfDue K now s) = Returned (Some rc) ->
  rc = ZT1_RESULT_FATAL_ERROR_INTERNAL.
Proof.
  destruct (Z_lt_le_dec now (nextBackgroundTaskDeadline s)) as [Hlt|Hle].
  - rewrite backgroundTasksIfDue_not_due by exact Hlt. discriminate.
  - destruct (backgroundTasksIfDue_due K now s Hle) as (-> & _).
    destruct (outcome (processBackgroundTasks K now s)) as [rc'| | |] eqn:E;
      try discriminate.
    destruct (processBackgroundTasks_codes K now s rc' E) as [-> | ->].
    + rewrite bool_decide_eq_true_2 by reflexivity. discriminate.
    + rewrite bool_decide_eq_false_2 by discriminate. congruence.
Qed.

(** X16.  [ZT1_Node_processVirtualNetworkFrame] returns only OK,
    network-not-found or the internal error: every exception is caught
    inside the method and reported as the internal error,
    [std::bad_alloc] from the switch included, so the out-of-memory
    clause of the binding is never taken. *)
Theorem frame_binding_codes now nwid sm dm et vl fd (s : State C) :
  (forall x,
     outcome (processVirtualNetworkFrame K now nwid sm dm et vl fd s) <> Threw x) /\
  (forall rc,
     outcome (ZT1_Node_processVirtualNetworkFrame K now nwid sm dm et vl fd s)
     = Returned rc ->
     rc = ZT1_RESULT_OK \/ rc = ZT1_RESULT_ERROR_NETWORK_NOT_FOUND \/
     rc = ZT1_RESULT_FATAL_ERROR_INTERNAL).
Proof.
  assert (Hcases :
    match outcome (processVirtualNetworkFrame K now nwid sm dm et vl fd s) with
    | Returned rc => rc = ZT1_RESULT_OK \/ rc = ZT1_RESULT_ERROR_NETWORK_NOT_FOUND \/
                     rc = ZT1_RESULT_FATAL_ERROR_INTERNAL
    | Threw _ => False
    | _ => True
    end).
  { pose proof (processVirtualNetworkFrame_spec K now nwid sm dm et vl fd s) as Hs.
    cbv zeta in Hs.
    destruct (outcome (backgroundTasksIfDue K now s)) as [[rc|]|x| |] eqn:Ho.
    - destruct Hs as (-> & _). rewrite (preamble_codes now s rc Ho). auto.
    - destruct (_networks (final (backgroundTasksIfDue K now s)) !! nwid)
        as [[nw|]|]; destruct Hs as (-> & _); auto.
      destruct (sw_onLocalEthernet C nw sm dm et vl fd _).1; auto.
    - exfalso. revert Ho.
      destruct (Z_lt_le_dec now (nextBackgroundTaskDeadline s)) as [Hlt|Hle].
      + rewrite backgroundTasksIfDue_not_due by exact Hlt. discriminate.
      + destruct (backgroundTasksIfDue_due K now s Hle) as (-> & _).
        pose proof (processBackgroundTasks_never_throws K now s) as Hn.
        destruct (outcome (processBackgroundTasks K now s)); try discriminate.
        intros _. exact (Hn _ eq_refl).
    - unfold processVirtualNetworkFrame, bind. rewrite Ho. exact I.
    - unfold processVirtualNetworkFrame, bind. rewrite Ho. exact I. }
  split.
  - intros x Hx. rewrite Hx in Hcases. exact Hcases.
  - intros rc. unfold ZT1_Node_processVirtualNetworkFrame.
    rewrite try_catch_bad_alloc_ret_outcome.
    destruct (outcome (processVirtualNetworkFrame K now nwid sm dm et vl fd s));
      try discriminate; [| destruct Hcases].
    intros H. injection H as <-. exact Hcases.
Qed.

End EntryPoints.

Lemma frame_binding_codes_witness :
  outcome (ZT1_Node_processVirtualNetworkFrame sample_constants 500 5 1 2 3 0 []
             (set_nextBackgroundTaskDeadline 1000
                (final (join 5 (initial_state (C := sample_collaborators)
                                  (sample_ext_switch_throws bad_alloc) 0 0)))))
  = Returned ZT1_RESULT_FATAL_ERROR_INTERNAL.
Proof.
  destruct (proj2 (frame_binding_codes sample_constants (C := sample_collaborators)
                     500 5 1 2 3 0 []
                     (set_nextBackgroundTaskDeadline 1000
                        (final (join 5 (initial_state (C := sample_collaborators)
                                          (sample_ext_switch_throws bad_alloc) 0 0)))))
              ZT1_RESULT_FATAL_ERROR_INTERNAL) as [H|[H|H]].
  - vm_compute. reflexivity.
  - discriminate H.
  - discriminate H.
  - vm_compute. reflexivity.
Defined.

(** ** Defined behaviour *)

Section DefinedBehaviour.

Context (K : Constants) {C : Collaborators}.

Lemma returns_ends {A} (m : M C A) (s : State C) : returns m s -> ends m s.
Proof. intros (a & H). unfold ends. rewrite H. exact I. Qed.

Lemma ends_eq {A} (m m' : M C A) (s : State C) :
  m s = m' s -> ends m' s -> ends m s.
Proof. unfold ends. intros ->. auto. Qed.

Lemma ends_bind {A B} (m : M C A) (k : A -> M C B) (s : State C) :
  ends m s ->
  (forall a, outcome (m s) = Returned a -> ends (k a) (final (m s))) ->
  ends (bind m k) s.
Proof.
  unfold ends. intros Hm Hk. unfold bind.
  destruct (outcome (m s)) as [a|x| |] eqn:E; cbn; auto.
  exact (Hk a eq_refl).
Qed.

Lemma returns_bind {A B} (m : M C A) (k : A -> M C B) (s : State C) :
  returns m s ->
  (forall a, outcome (m s) = Returned a -> returns (k a) (final (m s))) ->
  returns (bind m k) s.
Proof.
  intros (a & Hm) Hk. destruct (Hk a Hm) as (b & Hb). exists b.
  destruct (bind_step m k s a Hm) as (-> & _). exact Hb.
Qed.

Lemma ends_call {A} c (f : Ext C -> (exception + A) * Ext C) (s : State C) :
  ends (call c f) s.
Proof.
  unfold ends. rewrite call_outcome. destruct (f (ext s)).1; exact I.
Qed.

Lemma returns_ret {A} (a : A) (s : State C) : returns (ret a) s.
Proof. exists a. reflexivity. Qed.

Lemma returns_try_catch_bad_alloc {A} (m : M C A) (a b : A) (s : State C) :
  ends m s -> returns (try_catch_bad_alloc m (ret a) (ret b)) s.
Proof.
  unfold ends, returns. rewrite try_catch_bad_alloc_ret_outcome.
  destruct (outcome (m s)) as [v|x| |]; try tauto; [eauto |].
  destruct x; eauto.
Qed.

Lemma returns_try_or_return_internal (body : M C unit) (s : State C) :
  ends body s -> returns (try_or_return_internal body) s.
Proof.
  unfold ends, returns.
  destruct (try_or_return_internal_outcome body s) as (H & _).
  destruct (outcome (body s)); try tauto; rewrite H; eauto.
Qed.

Lemma returns_unless_returned (m k : M C (option ZT1_ResultCode)) (s : State C) :
  returns m s ->
  (outcome (m s) = Returned None -> returns k (final (m s))) ->
  returns (unless_returned m k) s.
Proof.
  intros Hm Hk. unfold unless_returned. apply returns_bind; [exact Hm |].
  intros [rc|] Ha; [apply returns_ret | exact (Hk Ha)].
Qed.

Lemma ends_PingPeersThatNeedPing_call sn now (p : Peer C) lr0 (s : State C) :
  ends (_PingPeersThatNeedPing_call sn now p lr0) s.
Proof.
  unfold ends, _PingPeersThatNeedPing_call, bind, get, call, call_r, ret.
  destruct (bool_decide (peer_address C p ∈ sn)); cbn.
  - destruct (peer_doPingAndKeepalive C p now (ext s)) as [[x|[]] e']; exact I.
  - destruct (peer_alive C p now (ext s)); cbn; [| exact I].
    destruct (peer_doPingAndKeepalive C p now (ext s)) as [[x|[]] e']; exact I.
Qed.

Lemma ends_eachPeer sn now (peers : list (Peer C)) :
  forall lr0 (s : State C), ends (eachPeer sn now peers lr0) s.
Proof.
  induction peers as [|p peers IH]; intros lr0 s.
  - exact I.
  - cbn [eachPeer]. apply ends_bind; [apply ends_PingPeersThatNeedPing_call |].
    intros lr _. apply IH.
Qed.

Lemma ends_requestConfigurations now (l : list (Z * option (Network C))) :
  Forall (fun entry => entry.2 <> None) l ->
  forall s : State C, ends (requestConfigurations K now l) s.
Proof.
  induction 1 as [|[k [nw|]] l Hnn _ IH]; intros s.
  - exact I.
  - apply (ends_eq _ _ _ (requestConfigurations_cons K now k nw l s)).
    apply ends_bind.
    + destruct (needs_configuration K now (ext s) nw); [apply ends_call | exact I].
    + intros _ _. apply IH.
  - destruct (Hnn eq_refl).
Qed.

Lemma no_null_entry_in_order (s : State C) :
  no_null_entry s ->
  Forall (fun entry => entry.2 <> None) (networks_in_order (_networks s)).
Proof.
  intros Hnn. apply Forall_forall. intros [k [nw|]] Hin; [discriminate |].
  unfold networks_in_order in Hin. rewrite merge_sort_Permutation in Hin.
  apply elem_of_map_to_list in Hin. destruct (Hnn k Hin).
Qed.

Lemma returns_pingCheckIfDue now (s : State C) :
  no_null_entry s -> returns (pingCheckIfDue K now) s.
Proof.
  intros Hnn.
  destruct (Z_lt_le_dec (u64 (now - _lastPingCheck s)) (ZT_PING_CHECK_INVERVAL K))
    as [Hlt|Hle].
  - destruct (pingCheckIfDue_not_due K now s Hlt) as (_ & _ & H). eexists; exact H.
  - destruct (pingCheckIfDue_due K now s Hle) as (_ & _ & H).
    unfold returns. rewrite H, pingCheck_unfold.
    apply returns_unless_returned.
    + apply returns_try_or_return_internal. apply ends_bind.
      * unfold _PingPeersThatNeedPing. apply ends_bind; [exact I |].
        intros s0 _. apply ends_eachPeer.
      * intros lr _. exact I.
    + intros _. apply returns_try_or_return_internal.
      apply ends_bind; [exact I |]. intros s0 Hs0. cbn in Hs0. injection Hs0 as <-.
      cbn [get final]. apply ends_requestConfigurations.
      match goal with
      | |- context [final (try_or_return_internal ?body ?st)] =>
          assert (Hk : obeys (keeps _networks) any_call (try_or_return_internal body))
      end.
      { fapply obeys_try_or_return_internal. fapply obeys_bind.
        - fapply _PingPeersThatNeedPing_obeys. intros; exact I.
        - intros lr. fapply obeys_bind; [fapply obeys_get |].
          intros s'. apply obeys_modify. intros s''. reflexivity. }
      apply no_null_entry_in_order. intros nwid. rewrite (proj1 (Hk _)). apply Hnn.
Qed.

Lemma returns_housekeepingIfDue now (s : State C) :
  returns (housekeepingIfDue K now) s.
Proof.
  destruct (Z_lt_le_dec (u64 (now - _lastHousekeepingRun s)) (ZT_HOUSEKEEPING_PERIOD K))
    as [Hlt|Hle].
  - destruct (housekeepingIfDue_not_due K now s Hlt) as (_ & _ & H). eexists; exact H.
  - unfold returns. rewrite (housekeepingIfDue_open K) by exact Hle.
    unfold housekeeping. apply returns_bind; [eexists; reflexivity |]. intros _ _.
    apply returns_unless_returned; [| intros _];
      apply returns_try_or_return_internal, ends_call.
Qed.

Lemma returns_computeDeadline now (s : State C) :
  returns (computeDeadline K now) s.
Proof.
  unfold computeDeadline. apply returns_try_or_return_internal.
  apply ends_bind.
  - unfold ends, call_r. destruct (sw_doTimerTasks C now (ext s)) as [[x|i] e']; exact I.
  - intros i _. exact I.
Qed.

Lemma returns_processBackgroundTasks now (s : State C) :
  no_null_entry s -> returns (processBackgroundTasks K now) s.
Proof.
  intros Hnn. unfold processBackgroundTasks.
  apply returns_bind; [eexists; reflexivity |]. intros _ _. cbn [modify final].
  apply returns_bind.
  - apply returns_unless_returned.
    + apply returns_pingCheckIfDue. exact Hnn.
    + intros _. apply returns_unless_returned.
      * apply returns_housekeepingIfDue.
      * intros _. apply returns_computeDeadline.
  - intros [rc|] _; apply returns_ret.
Qed.

Lemma returns_backgroundTasksIfDue now (s : State C) :
  no_null_entry s -> returns (backgroundTasksIfDue K now) s.
Proof.
  intros Hnn.
  destruct (Z_lt_le_dec now (nextBackgroundTaskDeadline s)) as [Hlt|Hle].
  - unfold returns. rewrite backgroundTasksIfDue_not_due by exact Hlt.
    eexists; reflexivity.
  - destruct (backgroundTasksIfDue_due K now s Hle) as (H & _).
    destruct (returns_processBackgroundTasks now s Hnn) as (rc & Hrc).
    unfold returns. rewrite H, Hrc. eauto.
Qed.

Lemma networks_lookup_cases (s : State C) nwid :
  no_null_entry s ->
  _networks s !! nwid = None \/ exists nw, _networks s !! nwid = Some (Some nw).
Proof.
  intros Hnn. destruct (_networks s !! nwid) as [[nw|]|] eqn:E; eauto.
  destruct (Hnn nwid E).
Qed.

Lemma ends_join nwid (s : State C) : ends (join nwid) s.
Proof.
  unfold ends. destruct (_networks s !! nwid) as [[nw|]|] eqn:E.
  - rewrite (join_present _ _ _ E). exact I.
  - destruct (join_not_present nwid s) as (_ & H); [congruence |].
    destruct (network_new C nwid (ext s)) as [[x|nw] e']; destruct H as (-> & _);
      exact I.
  - destruct (join_not_present nwid s) as (_ & H); [congruence |].
    destruct (network_new C nwid (ext s)) as [[x|nw] e']; destruct H as (-> & _);
      exact I.
Qed.

(** X17.  On a node whose registry holds no null entry, every call whose
    method ends in a [return] statement (the tick, a wire packet, a
    frame, [join], a version report, and [networkConfig] when its
    [::malloc] succeeds) returns to the embedder: no exception gets out
    of the binding and nothing is called through a null pointer.
    [leave] and the two multicast methods are left out of this: they
    have no [return] statement.  Whatever the call, the registry is free
    of null entries afterwards unless the call is a [join] that fails. *)
Theorem public_interface_defined op (s : State C) :
  no_null_entry s ->
  (ends_in_return op = true ->
   (forall nwid, op = OpNetworkConfig nwid -> (malloc C (ext s)).1 = true) ->
   returns (exec K op) s) /\
  ((forall n, op = OpJoin n -> outcome (join n s) = Returned ZT1_RESULT_OK) ->
   no_null_entry (final (exec K op s))).
Proof.
  intros Hnn. split.
  - intros Hret Hmalloc. destruct op; cbn [exec]; try discriminate Hret.
    + apply returns_bind; [| intros; apply returns_ret].
      apply returns_try_catch_bad_alloc. unfold processWirePacket.
      apply ends_bind; [apply returns_ends, returns_backgroundTasksIfDue, Hnn |].
      intros [rc|] _; [exact I |].
      apply ends_bind; [apply ends_call | intros; exact I].
    + apply returns_bind; [| intros; apply returns_ret].
      apply returns_try_catch_bad_alloc. unfold processVirtualNetworkFrame.
      apply ends_bind; [apply returns_ends, returns_backgroundTasksIfDue, Hnn |].
      intros [rc|] _; [exact I |].
      apply ends_bind; [| intros [rc|] _; exact I].
      unfold ends, try_catch_all, network, bind, get, ret.
      cbn [outcome final emitted app].
      match goal with
      | |- context [_networks ?st !! nwid] =>
          destruct (_networks st !! nwid) as [[nw|]|]
      end; cbn [outcome final emitted app]; try exact I.
      rewrite call_outcome.
      destruct (sw_onLocalEthernet C nw sourceMac destMac etherType vlanId frameData _)
        as [[x|[]] e']; exact I.
    + apply returns_bind; [| intros; apply returns_ret].
      apply returns_try_catch_bad_alloc, returns_ends,
        returns_processBackgroundTasks, Hnn.
    + apply returns_bind; [| intros; apply returns_ret].
      apply returns_try_catch_bad_alloc, ends_join.
    + apply returns_bind; [| intros; apply returns_ret].
      unfold returns.
      destruct (networks_lookup_cases s nwid Hnn) as [E | (nw & E)].
      * rewrite (networkConfig_absent nwid s E). eauto.
      * rewrite (networkConfig_present nwid s nw E). unfold snapshot_outcome.
        specialize (Hmalloc nwid eq_refl).
        destruct (malloc C (ext s)) as [nc e1]. cbn [fst] in Hmalloc. subst nc.
        destruct (network_externalConfig C nw e1).1; eauto.
    + unfold returns, postNewerVersionIfNewer, bind, get, modify, postEvent,
        call_total, ret.
      cbn [outcome final emitted app].
      destruct (_newestVersionSeen s) as [[m0 m1] m2].
      destruct (0 <? compareVersion major minor rev m0 m1 m2); cbn; eauto.
    + eexists; reflexivity.
  - intros Hjoin nwid.
    assert (Hcases : op = OpJoin nwid \/ op = OpLeave nwid \/
                     (op <> OpJoin nwid /\ op <> OpLeave nwid)).
    { destruct op as [| | |n|n| | | | |];
        try (right; right; split; discriminate);
        destruct (decide (n = nwid)) as [->|Hne]; auto;
        right; right; split; congruence. }
    destruct Hcases as [-> | [-> | (Hj & Hl)]].
    + rewrite exec_join_final.
      destruct (join_returns nwid s _ (Hjoin nwid eq_refl)) as (_ & nw & ->).
      discriminate.
    + rewrite exec_leave_final. pose proof (leave_spec nwid s) as H.
      destruct (networks_lookup_cases s nwid Hnn) as [E | (nw & E)]; rewrite E in H.
      * rewrite H. cbn. rewrite E. discriminate.
      * destruct H as (_ & H).
        destruct (network_destroy C nw (ext s)) as [[x|[]] e'];
          destruct H as (_ & ->); cbn.
        -- rewrite E. discriminate.
        -- rewrite lookup_delete_eq. discriminate.
    + rewrite (exec_lookup_other K) by assumption. apply Hnn.
Qed.

End DefinedBehaviour.

Lemma public_interface_defined_witness :
  let s := final (join 5 (sample_node 300)) in
  returns (exec sample_constants (OpProcessBackgroundTasks 7000)) s /\
  returns (exec sample_constants (OpNetworkConfig 5)) s /\
  no_null_entry (final (exec sample_constants (OpLeave 5) s)).
Proof.
  cbv zeta.
  assert (Hnn : no_null_entry (final (join 5 (sample_node 300)))).
  { intros nwid.
    assert (E : _networks (final (join 5 (sample_node 300))) = {[ 5 := Some 5 ]})
      by (vm_compute; reflexivity).
    rewrite E. intros H. apply lookup_singleton_Some in H as [_ H]. discriminate H. }
  split; [| split].
  - apply (public_interface_defined sample_constants (C := sample_collaborators)
             (OpProcessBackgroundTasks 7000) _ Hnn).
    + reflexivity.
    + discriminate.
  - apply (public_interface_defined sample_constants (C := sample_collaborators)
             (OpNetworkConfig 5) _ Hnn).
    + reflexivity.
    + intros nwid _. reflexivity.
  - apply (public_interface_defined sample_constants (C := sample_collaborators)
             (OpLeave 5) _ Hnn).
    discriminate.
Defined.

(** ** The newest version seen *)

Section VersionProperties.

Context (K : Constants) {C : Collaborators}.

Lemma version_exceeds_irrefl (v : Z * Z * Z) : ~ version_exceeds v v.
Proof. destruct v as [[a b] c]. unfold version_exceeds. lia. Qed.

Lemma version_exceeds_trans (u v w : Z * Z * Z) :
  version_exceeds u v -> version_exceeds v w -> version_exceeds u w.
Proof.
  destruct u as [[a1 a2] a3], v as [[b1 b2] b3], w as [[c1 c2] c3].
  unfold version_exceeds. lia.
Qed.

Lemma version_exceeds_dec (u v : Z * Z * Z) :
  version_exceeds u v \/ ~ version_exceeds u v.
Proof.
  destruct u as [[a1 a2] a3], v as [[b1 b2] b3]. unfold version_exceeds. lia.
Qed.

(** X18.  Reporting a peer's version a second time is silent: directly
    after [postNewerVersionIfNewer] has been called with a triple, a
    call with the same triple posts no event and changes nothing,
    whether or not the first call posted one. *)
Theorem version_reported_once major minor rev (s : State C) :
  let s1 := final (postNewerVersionIfNewer major minor rev s) in
  postNewerVersionIfNewer major minor rev s1 = mkResult (Returned tt) s1 [].
Proof.
  cbv zeta.
  destruct (postNewerVersionIfNewer_spec major minor rev s) as (Hnew & Hold).
  destruct (version_exceeds_dec (major, minor, rev) (_newestVersionSeen s)) as [H|H].
  - destruct (Hnew H) as (_ & Hv & _).
    apply postNewerVersionIfNewer_spec. rewrite Hv. apply version_exceeds_irrefl.
  - rewrite (Hold H). cbn [final]. exact (Hold H).
Qed.

Lemma exec_version_step op (s : State C) :
  _newestVersionSeen (final (exec K op s)) = _newestVersionSeen s \/
  version_exceeds (_newestVersionSeen (final (exec K op s))) (_newestVersionSeen s).
Proof.
  assert (Hcases : (exists a b c, op = OpPostNewerVersionIfNewer a b c) \/
                   (forall a b c, op <> OpPostNewerVersionIfNewer a b c)).
  { destruct op; eauto; right; discriminate. }
  destruct Hcases as [(a & b & c & ->) | Hno].
  - cbn [exec].
    destruct (postNewerVersionIfNewer_spec a b c s) as (Hnew & Hold).
    destruct (version_exceeds_dec (a, b, c) (_newestVersionSeen s)) as [H|H].
    + destruct (Hnew H) as (_ & -> & _). right. exact H.
    + rewrite (Hold H). left. reflexivity.
  - left. apply (exec_keeps_version K op Hno).
Qed.

(** X19.  Whatever is called, the stored newest version never goes
    down: after any sequence of calls it is the version from before or
    one that strictly exceeds it. *)
Theorem stored_version_never_decreases ops (s s' : State C) :
  run K ops s = Some s' ->
  _newestVersionSeen s' = _newestVersionSeen s \/
  version_exceeds (_newestVersionSeen s') (_newestVersionSeen s).
Proof.
  revert s. induction ops as [|op ops IH]; intros s Hrun.
  - cbn in Hrun. injection Hrun as <-. left. reflexivity.
  - apply run_cons in Hrun.
    destruct (IH _ Hrun) as [E|E], (exec_version_step op s) as [E'|E'].
    + left. congruence.
    + right. rewrite E. exact E'.
    + right. rewrite <- E'. exact E.
    + right. eapply version_exceeds_trans; eassumption.
Qed.

End VersionProperties.

Lemma stored_version_never_decreases_witness :
  let s := final (ZT1_Node_new sample_constants (C := sample_collaborators) 4 1000 None
                    (sample_ext 300) 0) in
  exists s',
    run sample_constants
      [OpPostNewerVersionIfNewer 1 2 3; OpJoin 5; OpPostNewerVersionIfNewer 1 1 9] s
    = Some s' /\
    (_newestVersionSeen s' = _newestVersionSeen s \/
     version_exceeds (_newestVersionSeen s') (_newestVersionSeen s)).
Proof.
  cbv zeta. eexists. split; [vm_compute; reflexivity |].
  apply (stored_version_never_decreases sample_constants (C := sample_collaborators)
           [OpPostNewerVersionIfNewer 1 2 3; OpJoin 5; OpPostNewerVersionIfNewer 1 1 9]).
  vm_compute. reflexivity.
Defined.

(** ** The store and the construction *)

Section StoreAndConstruction.

Context (K : Constants) {C : Collaborators}.

Lemma dataStoreGet_loop_whole (Inv : Ext C -> Prop) name (data : bytes) :
  store_serves Inv name data ->
  forall fuel (r : bytes) (s : State C),
    Inv (ext s) ->
    r = take (length r) data ->
    (length r < length data \/ (r = [] /\ data = []))%nat ->
    Z.of_nat (length data) - Z.of_nat (length r) < Z.of_nat fuel * 16384 ->
    outcome (dataStoreGet_loop fuel name r s) = Returned data /\
    Inv (ext (final (dataStoreGet_loop fuel name r s))).
Proof.
  intros Hserve. induction fuel as [|fuel IH]; intros r s Hinv Hr Hlen Hfuel.
  - exfalso. destruct Hlen as [Hlt | (-> & ->)]; cbn in Hfuel; lia.
  - cbn [dataStoreGet_loop]. unfold bind, call_total.
    pose proof (Hserve (ext s) (length r) Hinv) as Hs.
    destruct (dataStoreGetFunction C name 16384 (Z.of_nat (length r)) (ext s))
      as [[[n buf] olen] e'].
    cbn [outcome final emitted].
    destruct Hs as (Hinv' & Hn & Hbuf & Holen); [tauto |].
    destruct Hlen as [Hlt | (-> & ->)].
    + assert (Hpos : 0 < n).
      { rewrite Hn, length_take, length_drop. lia. }
      apply Z.leb_gt in Hpos. rewrite Hpos. cbv zeta. rewrite Hbuf.
      assert (Hr' : r ++ take (Z.to_nat 16384) (drop (length r) data)
                    = take (length r + Z.to_nat 16384) data).
      { rewrite Hr at 1. apply take_take_drop. }
      rewrite Hr', Holen.
      destruct (Z.of_nat (length (take (length r + Z.to_nat 16384) data))
                <? Z.of_nat (length data)) eqn:Hmore.
      * apply Z.ltb_lt in Hmore. rewrite length_take in Hmore.
        destruct (IH (take (length r + Z.to_nat 16384) data) (set_ext e' s))
          as (Ho & Hi).
        -- exact Hinv'.
        -- rewrite length_take. rewrite Nat.min_l by lia. reflexivity.
        -- left. rewrite length_take. lia.
        -- rewrite length_take. lia.
        -- cbn [outcome final]. rewrite Ho. split; [reflexivity | exact Hi].
      * apply Z.ltb_ge in Hmore. rewrite length_take in Hmore.
        cbn [ret outcome final]. split; [| exact Hinv'].
        f_equal. apply take_ge. lia.
    + cbn in Hn. subst n. cbn. split; [reflexivity | exact Hinv'].
Qed.

(** X20.  Reading is the inverse of storing: from a store that holds
    [data] under [name] and answers reads as the callback is documented
    to, [dataStoreGet] returns exactly [data], pieced together from
    chunks of 16384 bytes, once [fuel] allows for every chunk. *)
Theorem dataStoreGet_reads_whole (Inv : Ext C -> Prop) name (data : bytes) fuel
    (s : State C) :
  store_serves Inv name data ->
  Inv (ext s) ->
  Z.of_nat (length data) < Z.of_nat fuel * 16384 ->
  outcome (dataStoreGet fuel name s) = Returned data /\
  Inv (ext (final (dataStoreGet fuel name s))).
Proof.
  intros Hserve Hinv Hfuel. unfold dataStoreGet.
  apply (dataStoreGet_loop_whole Inv name data Hserve); auto.
  - destruct data; [right; auto | left; cbn; lia].
  - cbn [length]. lia.
Qed.

#[global] Instance only_ext_frame : Frame (only_ext (C := C)).
Proof.
  split; unfold only_ext.
  - intros [ ]. reflexivity.
  - intros s1 s2 s3 H12 H23.
    transitivity (set_ext (ext s3) s2); [exact H23 |]. rewrite H12. reflexivity.
  - intros e s. reflexivity.
Qed.

(** X21.  [dataStoreGet] only reads: its outside calls are reads of the
    object it was asked for, and it leaves every field of the node as it
    was.  And a turn of its loop in which the callback reports an error
    or nothing read ends it with the empty text: what had been pieced
    together until then is thrown away. *)
Theorem dataStoreGet_only_reads fuel name (s : State C) :
  only_ext s (final (dataStoreGet fuel name s)) /\
  Forall (fun c => is_dataStoreGet name c = true) (emitted (dataStoreGet fuel name s)) /\
  (forall r : bytes,
     (dataStoreGetFunction C name 16384 (Z.of_nat (length r)) (ext s)).1.1.1 <= 0 ->
     outcome (dataStoreGet_loop (S fuel) name r s) = Returned []).
Proof.
  assert (H : obeys only_ext (fun c => is_dataStoreGet name c = true)
                (dataStoreGet (C := C) fuel name)).
  { unfold dataStoreGet. fapply dataStoreGet_loop_obeys.
    intros i. cbn. apply bool_decide_eq_true_2. reflexivity. }
  destruct (H s) as (H1 & H2). split; [exact H1 |]. split; [exact H2 |].
  intros r Hn. cbn [dataStoreGet_loop]. unfold bind, call_total.
  destruct (dataStoreGetFunction C name 16384 (Z.of_nat (length r)) (ext s))
    as [[[n buf] olen] e'].
  cbn [fst snd] in Hn. cbn [outcome final emitted]. apply Z.leb_le in Hn.
  rewrite Hn. reflexivity.
Qed.

Lemma up_is_last_bind {A B} (m : M C A) (k : A -> M C B) (s : State C) :
  Forall (fun c => is_statusCall c = false) (emitted (m s)) ->
  (forall a, outcome (m s) = Returned a -> up_is_last (k a (final (m s)))) ->
  up_is_last (bind m k s).
Proof.
  intros Hm Hk. unfold up_is_last.
  destruct (outcome (m s)) as [a|x| |] eqn:E.
  - destruct (bind_step m k s a E) as (-> & _ & ->).
    specialize (Hk a eq_refl). unfold up_is_last in Hk.
    destruct (outcome (k a (final (m s)))).
    + destruct Hk as (l & -> & Hl). exists (emitted (m s) ++ l).
      rewrite app_assoc. split; [reflexivity | apply Forall_app; auto].
    + apply Forall_app; auto.
    + apply Forall_app; auto.
    + apply Forall_app; auto.
  - destruct (bind_stop m k s) as (_ & ->); [rewrite E; discriminate |].
    unfold bind. rewrite E. exact Hm.
  - destruct (bind_stop m k s) as (_ & ->); [rewrite E; discriminate |].
    unfold bind. rewrite E. exact Hm.
  - destruct (bind_stop m k s) as (_ & ->); [rewrite E; discriminate |].
    unfold bind. rewrite E. exact Hm.
Qed.

Lemma loadOrGenerateIdentity_obeys (R : State C -> State C -> Prop) `{!Frame R}
    `{!Tolerates R set_identity} (P : Call C -> Prop) fuel :
  (forall i, P (CallDataStoreGet "identity.secret" i)) ->
  P CallIdentityGenerate ->
  (forall name data secure ok, P (CallDataStorePut name data secure ok)) ->
  obeys R P (loadOrGenerateIdentity fuel).
Proof.
  intros Hget Hgen Hput. unfold loadOrGenerateIdentity.
  fapply obeys_bind; [fapply dataStoreGet_loop_obeys; exact Hget | intros idtmp].
  fapply obeys_bind.
  - destruct (bool_decide (length idtmp = 0%nat)); [fapply obeys_ret |].
    destruct (identity_fromString C idtmp) as [id|]; [| fapply obeys_ret].
    fapply obeys_bind; [fapply obeys_modify; intros s; apply tolerates |].
    intros _. fapply obeys_ret.
  - intros [|]; [| fapply obeys_ret].
    fapply obeys_bind; [fapply obeys_call_total; exact Hgen | intros id].
    fapply obeys_bind; [fapply obeys_modify; intros s; apply tolerates | intros _].
    fapply obeys_bind; [fapply dataStorePut_obeys; intros; apply Hput | intros ok].
    destruct (negb ok); [fapply obeys_throw |].
    fapply obeys_bind; [fapply dataStorePut_obeys; intros; apply Hput | intros ok'].
    destruct (negb ok'); [fapply obeys_throw | fapply obeys_ret].
Qed.

Lemma Node_ctor_up_is_last fuel ov (s : State C) :
  up_is_last (Node_ctor K fuel ov s).
Proof.
  unfold Node_ctor.
  apply up_is_last_bind; [constructor | intros _ _].
  apply up_is_last_bind; [| intros _ _].
  { fapply (loadOrGenerateIdentity_obeys (keeps _networks)); cbn; auto. }
  apply up_is_last_bind; [| intros _ _].
  { fapply (obeys_call (keeps _networks)). reflexivity. }
  apply up_is_last_bind; [| intros rt _].
  { fapply (rootTopology_obeys (keeps _networks)). reflexivity. }
  apply up_is_last_bind; [| intros _ _].
  { cbv zeta. fapply (obeys_call (keeps _networks)). reflexivity. }
  unfold up_is_last, postEvent, call_total. cbn.
  exists []. split; [reflexivity | constructor].
Qed.

(** X22.  The event UP tells of a constructed node, and of nothing else:
    when [ZT1_Node_new] returns OK, UP has been posted, once, as the
    last outside call of the construction; when it does not, no event
    has been posted at all. *)
Theorem up_event_iff_constructed fuel now ov (e0 : Ext C) d0 :
  let r := ZT1_Node_new K fuel now ov e0 d0 in
  (outcome r = Returned ZT1_RESULT_OK ->
   exists l, emitted r = l ++ [CallStatus ZT1_EVENT_UP] /\
             Forall (fun c => is_statusCall c = false) l) /\
  (outcome r <> Returned ZT1_RESULT_OK ->
   Forall (fun c => is_statusCall c = false) (emitted r)).
Proof.
  cbv zeta. unfold ZT1_Node_new. cbn [outcome final emitted].
  pose proof (Node_ctor_up_is_last fuel ov (initial_state e0 d0 now)) as H.
  unfold up_is_last in H.
  destruct (outcome (Node_ctor K fuel ov (initial_state e0 d0 now))) as [u|x| |].
  - split; [intros _; exact H | intros Hne; destruct (Hne eq_refl)].
  - split; [destruct x; discriminate | intros _; exact H].
  - split; [discriminate | intros _; exact H].
  - split; [discriminate | intros _; exact H].
Qed.

(** X23.  When the identity is in place and constructing the subsystems
    throws, the construction stops there: the root topology is not read,
    no supernodes are set, and [ZT1_Node_new] returns the code of the
    exception, which is the data-store-failed code for a
    [std::runtime_error] although no access to the store failed. *)
Theorem subsystem_failure fuel now ov (e0 : Ext C) d0 x :
  let r1 := loadOrGenerateIdentity fuel (constructing K e0 d0 now) in
  let r := ZT1_Node_new K fuel now ov e0 d0 in
  outcome r1 = Returned tt ->
  (subsystems_new C (ext (final r1))).1 = inl x ->
  outcome r = Returned (construction_failure x) /\
  emitted r = emitted r1 ++ [CallSubsystemsNew].
Proof.
  cbv zeta. intros H1 Hx. unfold ZT1_Node_new, Node_ctor. cbn [outcome final emitted].
  rewrite bind_modify. cbn [outcome final emitted].
  fold (compiled_version K). fold (constructing K e0 d0 now).
  match goal with
  | |- context [bind (loadOrGenerateIdentity fuel) ?k (constructing K e0 d0 now)] =>
      destruct (bind_step (loadOrGenerateIdentity fuel) k _ tt H1) as (-> & _ & ->)
  end.
  match goal with
  | |- context [bind (call ?c ?f) ?k ?st] =>
      assert (Hc : outcome (call c f st) = Threw x)
        by (rewrite call_outcome, Hx; reflexivity);
      destruct (bind_stop (call c f) k st) as (_ & ->);
        [rewrite Hc; discriminate |];
      unfold bind at 1; rewrite Hc, call_emitted
  end.
  split; [destruct x; reflexivity | reflexivity].
Qed.

(** X24.  Where the supernodes come from.  An override is taken as it
    is: it is not authenticated and the store is not read.  Without an
    override, a stored root topology that is empty or fails
    authentication is not used: the built-in default takes its place.
    (A cleared dictionary is taken to have size 0.) *)
Theorem root_topology_choice fuel (s : State C) :
  (forall o,
     rootTopology fuel (Some o) s
     = mkResult (Returned (dictionary_fromString C o)) s []) /\
  (forall rttmp,
     dictionary_size C (dictionary_empty C) = 0%nat ->
     outcome (dataStoreGet fuel "root-topology" s) = Returned rttmp ->
     rttmp = [] \/
     topology_authenticateRootTopology C (dictionary_fromString C rttmp) = false ->
     outcome (rootTopology fuel None s)
     = Returned (dictionary_fromString C (ZT_DEFAULTS_defaultRootTopology C))).
Proof.
  split; [reflexivity |].
  intros rttmp Hsize Hget Hbad. unfold rootTopology.
  match goal with
  | |- outcome (bind _ ?k s) = _ =>
      destruct (bind_step (dataStoreGet fuel "root-topology") k s rttmp Hget)
        as (-> & _)
  end.
  cbn [ret outcome]. f_equal.
  destruct Hbad as [-> | Hauth].
  - cbn [length]. rewrite (bool_decide_eq_false_2 (0 < 0)%nat) by lia.
    rewrite bool_decide_eq_true_2 by exact Hsize. reflexivity.
  - rewrite Hauth.
    assert (Hrt : (if bool_decide (0 < length rttmp)%nat
                   then dictionary_empty C else dictionary_empty C)
                  = dictionary_empty C)
      by (destruct (bool_decide (0 < length rttmp)%nat); reflexivity).
    rewrite Hrt. rewrite bool_decide_eq_true_2 by exact Hsize. reflexivity.
Qed.

End StoreAndConstruction.

Lemma dataStoreGet_reads_whole_witness :
  outcome (dataStoreGet 2 "root-topology"
             (initial_state (C := sample_collaborators)
                (sample_ext_holding "root-topology" [Byte.x02; Byte.x03]) 0 0))
  = Returned [Byte.x02; Byte.x03].
Proof.
  apply (dataStoreGet_reads_whole (C := sample_collaborators)
           (fun e => sx_store e !! "root-topology"%string = Some [Byte.x02; Byte.x03])
           "root-topology" [Byte.x02; Byte.x03] 2).
  - intros e i Hinv Hi. cbn. unfold sample_get. rewrite Hinv.
    rewrite Nat2Z.id. cbn [length] in Hi.
    destruct Hi as [Hi | Hi]; [| discriminate Hi].
    assert (Hcases : i = 0%nat \/ i = 1%nat) by lia.
    destruct Hcases as [-> | ->]; (split; [exact Hinv | vm_compute; auto]).
  - vm_compute. reflexivity.
  - vm_compute. reflexivity.
Defined.

Lemma dataStoreGet_only_reads_witness :
  outcome (dataStoreGet_loop 1 "identity.secret" [Byte.x07] (sample_node 300))
  = Returned [].
Proof.
  apply (dataStoreGet_only_reads (C := sample_collaborators) 0 "identity.secret"
           (sample_node 300)).
  vm_compute. discriminate.
Defined.

Lemma up_event_iff_constructed_witness :
  Forall (fun c => is_statusCall c = false)
    (emitted (ZT1_Node_new sample_constants (C := sample_collaborators) 4 1000 None
                sample_ext_store_refuses 0)) /\
  exists l,
    emitted (ZT1_Node_new sample_constants (C := sample_collaborators) 4 1000 None
               (sample_ext 300) 0)
    = l ++ [CallStatus ZT1_EVENT_UP].
Proof.
  split.
  - apply (up_event_iff_constructed sample_constants (C := sample_collaborators)
             4 1000 None sample_ext_store_refuses 0).
    vm_compute. discriminate.
  - destruct (proj1 (up_event_iff_constructed sample_constants
                       (C := sample_collaborators) 4 1000 None (sample_ext 300) 0))
      as (l & Hl & _).
    + vm_compute. reflexivity.
    + exists l. exact Hl.
Defined.

Lemma subsystem_failure_witness :
  outcome (ZT1_Node_new sample_constants (C := sample_collaborators_strict) 4 1000 None
             (sample_ext_switch_throws (runtime_error "no switch")) 0)
  = Returned ZT1_RESULT_FATAL_ERROR_DATA_STORE_FAILED.
Proof.
  apply (subsystem_failure sample_constants (C := sample_collaborators_strict)
           4 1000 None (sample_ext_switch_throws (runtime_error "no switch")) 0
           (runtime_error "no switch")).
  - vm_compute. reflexivity.
  - vm_compute. reflexivity.
Defined.

Lemma root_topology_choice_witness :
  outcome (rootTopology 2 None
             (initial_state (C := sample_collaborators_strict)
                (sample_ext_holding "root-topology" [Byte.x02; Byte.x03]) 0 0))
  = Returned [Byte.x01].
Proof.
  apply (root_topology_choice (C := sample_collaborators_strict) 2
           (initial_state (C := sample_collaborators_strict)
              (sample_ext_holding "root-topology" [Byte.x02; Byte.x03]) 0 0))
    with (rttmp := [Byte.x02; Byte.x03]).
  - reflexivity.
  - vm_compute. reflexivity.
  - right. vm_compute. reflexivity.
Defined.

(** ** Edges of the clock and of the registry *)

Section Edges.

Context (K : Constants) {C : Collaborators}.

Lemma open_ping_gate_closes now (s : State C) :
  ZT_PING_CHECK_INVERVAL K <= u64 (now - _lastPingCheck s) ->
  _lastPingCheck (final (processBackgroundTasks K now s)) = now.
Proof.
  intros Hgate.
  rewrite (tick_pingCheck_field K _lastPingCheck) by (exact _ || exact Hgate).
  transitivity (_lastPingCheck (before_peers K now s)); [| reflexivity].
  fapply (obeys_try_or_return_internal (keeps _lastPingCheck) any_call).
  fapply obeys_bind; [| intros lr; fapply obeys_bind;
    [fapply obeys_get | intros s'; fapply obeys_modify; intros ?; reflexivity]].
  fapply _PingPeersThatNeedPing_obeys. intros; exact I.
Qed.

(** X25.  The gates subtract unsigned 64-bit times, so a clock that
    steps back opens them: a tick at a time earlier than the last ping
    check runs the ping check again and moves [_lastPingCheck] back to
    that earlier time (unless the step is within a ping-check interval
    of 2^64). *)
Theorem clock_step_back_opens_gate now (s : State C) :
  0 <= now < _lastPingCheck s ->
  _lastPingCheck s < 2 ^ 64 ->
  ZT_PING_CHECK_INVERVAL K <= 2 ^ 64 - (_lastPingCheck s - now) ->
  u64 (now - _lastPingCheck s) = 2 ^ 64 - (_lastPingCheck s - now) /\
  _lastPingCheck (final (processBackgroundTasks K now s)) = now.
Proof.
  intros Hback Hlast Hint.
  assert (Hu : u64 (now - _lastPingCheck s) = 2 ^ 64 - (_lastPingCheck s - now)).
  { unfold u64.
    replace (now - _lastPingCheck s)
      with (2 ^ 64 - (_lastPingCheck s - now) + (-1) * 2 ^ 64) by lia.
    rewrite Z.mod_add by lia. apply Z.mod_small. lia. }
  split; [exact Hu |]. apply open_ping_gate_closes. rewrite Hu. exact Hint.
Qed.

(** X26.  The constructor joins no network: however [ZT1_Node_new]
    ends, the registry of the node it worked on is empty, so that on a
    constructed node [networkConfig] answers with a null pointer for
    every network and no entry is null. *)
Theorem constructed_node_has_no_networks fuel now ov (e0 : Ext C) d0 nwid :
  let s := final (ZT1_Node_new K fuel now ov e0 d0) in
  _networks s = ∅ /\
  networkConfig nwid s = mkResult (Returned None) s [] /\
  no_null_entry s.
Proof.
  cbv zeta.
  assert (He : _networks (final (ZT1_Node_new K fuel now ov e0 d0)) = ∅).
  { unfold ZT1_Node_new. cbn [final].
    assert (H : obeys (keeps _networks) any_call (Node_ctor K (C := C) fuel ov)).
    { unfold Node_ctor.
      fapply obeys_bind; [fapply obeys_modify; intros s; reflexivity | intros _].
      fapply obeys_bind; [fapply loadOrGenerateIdentity_obeys; intros; exact I |].
      intros _.
      fapply obeys_bind; [fapply obeys_call; exact I | intros _].
      fapply obeys_bind; [fapply rootTopology_obeys; intros; exact I | intros rt].
      fapply obeys_bind; [cbv zeta; fapply obeys_call; exact I | intros _].
      fapply postEvent_obeys. exact I. }
    rewrite (proj1 (H _)). reflexivity. }
  split; [exact He |]. split.
  - unfold networkConfig, bind, get, ret. cbn [outcome final emitted app].
    rewrite He, lookup_empty. reflexivity.
  - intros n. rewrite He, lookup_empty. discriminate.
Qed.

End Edges.

Lemma clock_step_back_opens_gate_witness :
  let s := final (processBackgroundTasks sample_constants 9000 (sample_node 300)) in
  _lastPingCheck s = 9000 /\
  _lastPingCheck (final (processBackgroundTasks sample_constants 8000 s)) = 8000.
Proof.
  cbv zeta. split; [vm_compute; reflexivity |].
  apply (clock_step_back_opens_gate sample_constants (C := sample_collaborators) 8000
           (final (processBackgroundTasks sample_constants 9000 (sample_node 300)))).
  - vm_compute. split; [discriminate | reflexivity].
  - vm_compute. reflexivity.
  - vm_compute. discriminate.
Defined.
